(** * PhysicsEngine: the bookkeeping layer over the Bullet dynamics world

    A shallow embedding of [libraries/physics/src/PhysicsEngine.cpp]:
    the voxel map, the entity life cycle (add / remove / update), the
    hard and easy update paths and the step loop, written as state
    transformers over an explicit engine state.

    The Bullet library is not part of the repository.  The handful of
    Bullet operations the engine calls are modelled in [Module Bullet]
    after Bullet 2.82 ([btCollisionObject], [btRigidBody],
    [btDiscreteDynamicsWorld], [btAlignedObjectArray]); each definition
    names the Bullet member it stands for. *)

From Stdlib Require Import ZArith Bool SpecFloat.
From stdpp Require Import gmap list.

Local Open Scope Z_scope.

(** ** Scalars

    A C++ [float] is an IEEE-754 binary32 number: [spec_float] with 24 bits
    of precision and maximal exponent 128. *)

Abbreviation float := spec_float.

Module F32.
Definition prec : Z := 24.
Definition emax : Z := 128.

(** [m * 2^e], rounded to the nearest binary32 value. *)
Definition make (m e : Z) : float := binary_normalize prec emax m e false.
(** The conversion [(float) n] of an integer. *)
Definition of_Z (n : Z) : float := make n 0.

Definition zero : float := S754_zero false.
Definition one : float := of_Z 1.
Definition half : float := make 1 (-1).

Definition add : float -> float -> float := SFadd prec emax.
Definition sub : float -> float -> float := SFsub prec emax.
Definition mul : float -> float -> float := SFmul prec emax.
Definition div : float -> float -> float := SFdiv prec emax.
Definition ltb : float -> float -> bool := SFltb.
Definition eqb : float -> float -> bool := SFeqb.

(** Bullet's [btMin(a, b)]: [a < b ? a : b]. *)
Definition btMin (a b : float) : float := if ltb a b then a else b.
End F32.

(** [glm::vec3] and [btVector3]. *)
Record vec3 : Type := Vec3 { vx : float; vy : float; vz : float }.

Definition vec3_splat (a : float) : vec3 := Vec3 a a a.
Definition vec3_add (a b : vec3) : vec3 :=
  Vec3 (F32.add (vx a) (vx b)) (F32.add (vy a) (vy b)) (F32.add (vz a) (vz b)).
Definition vec3_sub (a b : vec3) : vec3 :=
  Vec3 (F32.sub (vx a) (vx b)) (F32.sub (vy a) (vy b)) (F32.sub (vz a) (vz b)).
Definition vec3_zero : vec3 := vec3_splat F32.zero.

(** [btTransform]: a rotation basis (three rows) and an origin. *)
Record btTransform : Type := BtTransform {
  m_basis : vec3 * vec3 * vec3;
  m_origin : vec3
}.

Definition identityTransform : btTransform :=
  BtTransform (Vec3 F32.one F32.zero F32.zero,
               Vec3 F32.zero F32.one F32.zero,
               Vec3 F32.zero F32.zero F32.one) vec3_zero.

Definition setOrigin (o : vec3) (t : btTransform) : btTransform :=
  BtTransform (m_basis t) o.

(** Addresses of heap objects ([new] / [delete]). *)
Abbreviation ptr := positive.

(** ** The Bullet objects the engine touches *)

Module Bullet.

(** Collision flags, as listed in the comment above [addEntity]. *)
Definition CF_STATIC_OBJECT : Z := 1.
Definition CF_KINEMATIC_OBJECT : Z := 2.

(** Activation states ([btCollisionObject.h]). *)
Definition ACTIVE_TAG : Z := 1.
Definition ISLAND_SLEEPING : Z := 2.
Definition WANTS_DEACTIVATION : Z := 3.
Definition DISABLE_DEACTIVATION : Z := 4.
Definition DISABLE_SIMULATION : Z := 5.

(** Rigid body flags ([btRigidBody.h]). *)
Definition BT_DISABLE_WORLD_GRAVITY : Z := 1.

(** [btBoxShape]: its half extents. *)
Record btCollisionShape : Type := BtBoxShape { boxHalfExtents : vec3 }.

(** [btBoxShape::calculateLocalInertia(mass, inertia)], on the half extents
    the box was built from (Bullet takes the collision margin off and puts
    it back). *)
Definition calculateLocalInertia (shape : btCollisionShape) (mass : float) : vec3 :=
  let h := boxHalfExtents shape in
  let two := F32.of_Z 2 in
  let lx := F32.mul two (vx h) in
  let ly := F32.mul two (vy h) in
  let lz := F32.mul two (vz h) in
  let k := F32.div mass (F32.of_Z 12) in
  Vec3 (F32.mul k (F32.add (F32.mul ly ly) (F32.mul lz lz)))
       (F32.mul k (F32.add (F32.mul lx lx) (F32.mul lz lz)))
       (F32.mul k (F32.add (F32.mul lx lx) (F32.mul ly ly))).

(** A plain [btCollisionObject] (the ground plane and the voxels). *)
Record btCollisionObject : Type := BtCollisionObject {
  co_collisionFlags : Z;
  co_collisionShape : option ptr;
  co_worldTransform : btTransform
}.

(** [btCollisionObject::btCollisionObject()] starts out static. *)
Definition newCollisionObject : btCollisionObject :=
  BtCollisionObject CF_STATIC_OBJECT None identityTransform.

(** [btRigidBody], with the members the engine reads or writes. *)
Record btRigidBody : Type := BtRigidBody {
  m_collisionFlags : Z;
  m_activationState1 : Z;
  m_collisionShape : option ptr;
  m_worldTransform : btTransform;
  m_inverseMass : float;
  m_invInertiaLocal : vec3;
  m_linearVelocity : vec3;
  m_angularVelocity : vec3;
  m_gravity_acceleration : vec3;
  m_restitution : float;
  m_friction : float;
  m_rigidbodyFlags : Z;
  m_optionalMotionState : ptr
}.

Definition isStaticObject (b : btRigidBody) : bool :=
  negb (Z.land (m_collisionFlags b) CF_STATIC_OBJECT =? 0).
Definition isKinematicObject (b : btRigidBody) : bool :=
  negb (Z.land (m_collisionFlags b) CF_KINEMATIC_OBJECT =? 0).
Definition isStaticOrKinematicObject (b : btRigidBody) : bool :=
  negb (Z.land (m_collisionFlags b) (Z.lor CF_KINEMATIC_OBJECT CF_STATIC_OBJECT) =? 0).

(** [btCollisionObject::isActive()]. *)
Definition isActive (b : btRigidBody) : bool :=
  negb (m_activationState1 b =? ISLAND_SLEEPING)
  && negb (m_activationState1 b =? DISABLE_SIMULATION).

Definition setCollisionFlags (f : Z) (b : btRigidBody) : btRigidBody :=
  BtRigidBody f (m_activationState1 b) (m_collisionShape b) (m_worldTransform b)
    (m_inverseMass b) (m_invInertiaLocal b) (m_linearVelocity b) (m_angularVelocity b)
    (m_gravity_acceleration b) (m_restitution b) (m_friction b) (m_rigidbodyFlags b)
    (m_optionalMotionState b).

Definition forceActivationState (st : Z) (b : btRigidBody) : btRigidBody :=
  BtRigidBody (m_collisionFlags b) st (m_collisionShape b) (m_worldTransform b)
    (m_inverseMass b) (m_invInertiaLocal b) (m_linearVelocity b) (m_angularVelocity b)
    (m_gravity_acceleration b) (m_restitution b) (m_friction b) (m_rigidbodyFlags b)
    (m_optionalMotionState b).

(** [btCollisionObject::setActivationState]: the two "disable" states are
    sticky, only [forceActivationState] leaves them. *)
Definition setActivationState (st : Z) (b : btRigidBody) : btRigidBody :=
  if negb (m_activationState1 b =? DISABLE_DEACTIVATION)
     && negb (m_activationState1 b =? DISABLE_SIMULATION)
  then forceActivationState st b
  else b.

(** [btCollisionObject::activate(forceActivation)]. *)
Definition activate (forceActivation : bool) (b : btRigidBody) : btRigidBody :=
  if forceActivation || negb (isStaticOrKinematicObject b)
  then setActivationState ACTIVE_TAG b
  else b.

Definition setCollisionShape (sh : option ptr) (b : btRigidBody) : btRigidBody :=
  BtRigidBody (m_collisionFlags b) (m_activationState1 b) sh (m_worldTransform b)
    (m_inverseMass b) (m_invInertiaLocal b) (m_linearVelocity b) (m_angularVelocity b)
    (m_gravity_acceleration b) (m_restitution b) (m_friction b) (m_rigidbodyFlags b)
    (m_optionalMotionState b).

Definition setWorldTransform (t : btTransform) (b : btRigidBody) : btRigidBody :=
  BtRigidBody (m_collisionFlags b) (m_activationState1 b) (m_collisionShape b) t
    (m_inverseMass b) (m_invInertiaLocal b) (m_linearVelocity b) (m_angularVelocity b)
    (m_gravity_acceleration b) (m_restitution b) (m_friction b) (m_rigidbodyFlags b)
    (m_optionalMotionState b).

Definition invOrZero (a : float) : float :=
  if F32.eqb a F32.zero then F32.zero else F32.div F32.one a.

(** [btRigidBody::setMassProps(mass, inertia)]: a zero mass marks the
    body static, any other mass clears the static flag; the body keeps
    the reciprocals. *)
Definition setMassProps (mass : float) (inertia : vec3) (b : btRigidBody) : btRigidBody :=
  let flags :=
    if F32.eqb mass F32.zero
    then Z.lor (m_collisionFlags b) CF_STATIC_OBJECT
    else Z.land (m_collisionFlags b) (Z.lnot CF_STATIC_OBJECT) in
  BtRigidBody flags (m_activationState1 b) (m_collisionShape b) (m_worldTransform b)
    (invOrZero mass)
    (Vec3 (invOrZero (vx inertia)) (invOrZero (vy inertia)) (invOrZero (vz inertia)))
    (m_linearVelocity b) (m_angularVelocity b)
    (m_gravity_acceleration b) (m_restitution b) (m_friction b) (m_rigidbodyFlags b)
    (m_optionalMotionState b).

(** [btRigidBody::updateInertiaTensor()] recomputes the world-frame
    inverse inertia tensor, a member the engine never reads. *)
Definition updateInertiaTensor (b : btRigidBody) : btRigidBody := b.

Definition setLinearVelocity (v : vec3) (b : btRigidBody) : btRigidBody :=
  BtRigidBody (m_collisionFlags b) (m_activationState1 b) (m_collisionShape b)
    (m_worldTransform b) (m_inverseMass b) (m_invInertiaLocal b) v (m_angularVelocity b)
    (m_gravity_acceleration b) (m_restitution b) (m_friction b) (m_rigidbodyFlags b)
    (m_optionalMotionState b).

Definition setAngularVelocity (v : vec3) (b : btRigidBody) : btRigidBody :=
  BtRigidBody (m_collisionFlags b) (m_activationState1 b) (m_collisionShape b)
    (m_worldTransform b) (m_inverseMass b) (m_invInertiaLocal b) (m_linearVelocity b) v
    (m_gravity_acceleration b) (m_restitution b) (m_friction b) (m_rigidbodyFlags b)
    (m_optionalMotionState b).

(** [btRigidBody::setGravity(acceleration)]; the force derived from it is
    not tracked. *)
Definition setGravity (g : vec3) (b : btRigidBody) : btRigidBody :=
  BtRigidBody (m_collisionFlags b) (m_activationState1 b) (m_collisionShape b)
    (m_worldTransform b) (m_inverseMass b) (m_invInertiaLocal b) (m_linearVelocity b)
    (m_angularVelocity b) g (m_restitution b) (m_friction b) (m_rigidbodyFlags b)
    (m_optionalMotionState b).

Definition setRestitution (r : float) (b : btRigidBody) : btRigidBody :=
  BtRigidBody (m_collisionFlags b) (m_activationState1 b) (m_collisionShape b)
    (m_worldTransform b) (m_inverseMass b) (m_invInertiaLocal b) (m_linearVelocity b)
    (m_angularVelocity b) (m_gravity_acceleration b) r (m_friction b) (m_rigidbodyFlags b)
    (m_optionalMotionState b).

Definition setFriction (f : float) (b : btRigidBody) : btRigidBody :=
  BtRigidBody (m_collisionFlags b) (m_activationState1 b) (m_collisionShape b)
    (m_worldTransform b) (m_inverseMass b) (m_invInertiaLocal b) (m_linearVelocity b)
    (m_angularVelocity b) (m_gravity_acceleration b) (m_restitution b) f (m_rigidbodyFlags b)
    (m_optionalMotionState b).

(** [btRigidBody::setFlags]. *)
Definition setFlags (f : Z) (b : btRigidBody) : btRigidBody :=
  BtRigidBody (m_collisionFlags b) (m_activationState1 b) (m_collisionShape b)
    (m_worldTransform b) (m_inverseMass b) (m_invInertiaLocal b) (m_linearVelocity b)
    (m_angularVelocity b) (m_gravity_acceleration b) (m_restitution b) (m_friction b) f
    (m_optionalMotionState b).

(** [btRigidBody::btRigidBody(mass, motionState, shape, inertia)]:
    the collision object starts static and active, the world transform is
    pulled from the motion state, velocities and gravity are zero, the
    default friction is 0.5, and [setMassProps] runs last. *)
Definition newRigidBody (mass : float) (motionState : ptr) (startTransform : btTransform)
    (shape : ptr) (inertia : vec3) : btRigidBody :=
  updateInertiaTensor
    (setMassProps mass inertia
       (BtRigidBody CF_STATIC_OBJECT ACTIVE_TAG (Some shape) startTransform
          F32.zero vec3_zero vec3_zero vec3_zero vec3_zero
          F32.zero F32.half 0 motionState)).

(** [btAlignedObjectArray::remove(key)]: the first occurrence is
    overwritten with the last element and the array shrinks by one. *)
Fixpoint array_remove (key : ptr) (l : list ptr) : list ptr :=
  match l with
  | [] => []
  | x :: l' =>
      if decide (x = key)
      then match l' with
           | [] => []
           | y :: l'' => List.last l'' y :: List.removelast l'
           end
      else x :: array_remove key l'
  end.

(** [btDiscreteDynamicsWorld]: the collision objects in the world, the
    non-static rigid bodies among them, the world gravity, and the
    [stepSimulation] calls received so far (most recent first).  The
    broadphase and the solver are not modelled. *)
Record btDiscreteDynamicsWorld : Type := BtDiscreteDynamicsWorld {
  m_collisionObjects : list ptr;
  m_nonStaticRigidBodies : list ptr;
  m_gravity : vec3;
  m_stepCalls : list (float * Z * float)
}.

(** A new world has Bullet's default gravity (0, -10, 0). *)
Definition newDynamicsWorld : btDiscreteDynamicsWorld :=
  BtDiscreteDynamicsWorld [] [] (Vec3 F32.zero (SFopp (F32.of_Z 10)) F32.zero) [].

Definition addCollisionObject (o : ptr) (w : btDiscreteDynamicsWorld) : btDiscreteDynamicsWorld :=
  BtDiscreteDynamicsWorld (m_collisionObjects w ++ [o]) (m_nonStaticRigidBodies w)
    (m_gravity w) (m_stepCalls w).

Definition removeCollisionObject (o : ptr) (w : btDiscreteDynamicsWorld) : btDiscreteDynamicsWorld :=
  BtDiscreteDynamicsWorld (array_remove o (m_collisionObjects w)) (m_nonStaticRigidBodies w)
    (m_gravity w) (m_stepCalls w).

(** [btDiscreteDynamicsWorld::addRigidBody(body)]: world gravity is given
    to a moving body unless it opted out; a body without a shape is not
    inserted; a static body is put to sleep. *)
Definition addRigidBody (p : ptr) (b : btRigidBody) (w : btDiscreteDynamicsWorld)
    : btRigidBody * btDiscreteDynamicsWorld :=
  let b1 :=
    if negb (isStaticOrKinematicObject b)
       && (Z.land (m_rigidbodyFlags b) BT_DISABLE_WORLD_GRAVITY =? 0)
    then setGravity (m_gravity w) b
    else b in
  match m_collisionShape b1 with
  | None => (b1, w)
  | Some _ =>
      if isStaticObject b1
      then (setActivationState ISLAND_SLEEPING b1, addCollisionObject p w)
      else (b1,
            addCollisionObject p
              (BtDiscreteDynamicsWorld (m_collisionObjects w)
                 (m_nonStaticRigidBodies w ++ [p]) (m_gravity w) (m_stepCalls w)))
  end.

(** [btDiscreteDynamicsWorld::removeRigidBody(body)]. *)
Definition removeRigidBody (p : ptr) (w : btDiscreteDynamicsWorld) : btDiscreteDynamicsWorld :=
  removeCollisionObject p
    (BtDiscreteDynamicsWorld (m_collisionObjects w)
       (array_remove p (m_nonStaticRigidBodies w)) (m_gravity w) (m_stepCalls w)).

(** [btDiscreteDynamicsWorld::stepSimulation]: the solver is a black box,
    the call is recorded. *)
Definition stepSimulation (timeStep : float) (maxSubSteps : Z) (fixedTimeStep : float)
    (w : btDiscreteDynamicsWorld) : btDiscreteDynamicsWorld :=
  BtDiscreteDynamicsWorld (m_collisionObjects w) (m_nonStaticRigidBodies w) (m_gravity w)
    ((timeStep, maxSubSteps, fixedTimeStep) :: m_stepCalls w).

End Bullet.

Import Bullet.

(** ** Collaborators of the engine inside the repository *)

(** [MotionType] (CustomMotionState.h). *)
Inductive MotionType : Type :=
| MOTION_TYPE_STATIC
| MOTION_TYPE_DYNAMIC
| MOTION_TYPE_KINEMATIC.

(** Modelled from the spec: the Shape Descriptor ([ShapeInfo], whose
    definition is not among the sources): the shape kind, box being the
    only one, with its half extents; a default-constructed descriptor
    describes no shape. *)
Inductive ShapeInfo : Type :=
| InvalidShapeInfo
| BoxInfo (halfExtents : vec3).

(** [ShapeInfo::setBox]. *)
Definition setBox (halfExtents : vec3) : ShapeInfo := BoxInfo halfExtents.

(** Modelled from the spec: [ShapeInfo::collectInfo(shape)] rebuilds the
    descriptor from a live shape. *)
Definition collectInfo (shape : btCollisionShape) : ShapeInfo :=
  BoxInfo (boxHalfExtents shape).

(** Modelled from the spec: a Cached Shape of the Shape Cache
    ([ShapeManager], not among the sources): the simulator-native shape
    and its reference count. *)
Record ShapeReference : Type := MkShapeReference {
  _refCount : Z;
  _shape : ptr
}.

(** Modelled from the spec: the Motion Proxy ([CustomMotionState], not
    among the sources).  The entity-facing getters ([getMotionType],
    [getMass], [computeShapeInfo], [getWorldTransform] and the velocities
    and gravity that [applyVelocities] / [applyGravity] push to the body)
    are the entity's current state; [_body] is the back-reference, [None]
    for NULL. *)
Record CustomMotionState : Type := MkCustomMotionState {
  _body : option ptr;
  _restitution : float;
  _friction : float;
  getMotionType : MotionType;
  getMass : float;
  computeShapeInfo : ShapeInfo;
  getWorldTransform : btTransform;
  entityVelocity : vec3;
  entityAngularVelocity : vec3;
  entityGravity : vec3
}.

Definition set_body (b : option ptr) (ms : CustomMotionState) : CustomMotionState :=
  MkCustomMotionState b (_restitution ms) (_friction ms) (getMotionType ms) (getMass ms)
    (computeShapeInfo ms) (getWorldTransform ms) (entityVelocity ms)
    (entityAngularVelocity ms) (entityGravity ms).

(** [VoxelObject] (the value type of the voxel map). *)
Record VoxelObject : Type := MkVoxelObject {
  _trueCenter : vec3;
  _object : option ptr
}.

(** ** Engine state

    The members of [PhysicsEngine] followed by the heap the pointers
    refer to.  [_dynamicsWorld] is NULL until [init]; [_clock] holds the
    time (in microseconds) of its last reset. *)
Record PhysicsEngine : Type := MkPhysicsEngine {
  _dynamicsWorld : option btDiscreteDynamicsWorld;
  _shapeManager : gmap Z ShapeReference;
  _voxels : gmap Z VoxelObject;
  _originOffset : vec3;
  _clock : Z;
  shapes : gmap ptr btCollisionShape;
  collisionObjects : gmap ptr btCollisionObject;
  rigidBodies : gmap ptr btRigidBody;
  motionStates : gmap ptr CustomMotionState;
  nextAddress : ptr
}.

Definition set_dynamicsWorld (w : option btDiscreteDynamicsWorld) (s : PhysicsEngine) :=
  MkPhysicsEngine w (_shapeManager s) (_voxels s) (_originOffset s) (_clock s)
    (shapes s) (collisionObjects s) (rigidBodies s) (motionStates s) (nextAddress s).
Definition set_shapeManager (m : gmap Z ShapeReference) (s : PhysicsEngine) :=
  MkPhysicsEngine (_dynamicsWorld s) m (_voxels s) (_originOffset s) (_clock s)
    (shapes s) (collisionObjects s) (rigidBodies s) (motionStates s) (nextAddress s).
Definition set_voxels (v : gmap Z VoxelObject) (s : PhysicsEngine) :=
  MkPhysicsEngine (_dynamicsWorld s) (_shapeManager s) v (_originOffset s) (_clock s)
    (shapes s) (collisionObjects s) (rigidBodies s) (motionStates s) (nextAddress s).
Definition set_clock (t : Z) (s : PhysicsEngine) :=
  MkPhysicsEngine (_dynamicsWorld s) (_shapeManager s) (_voxels s) (_originOffset s) t
    (shapes s) (collisionObjects s) (rigidBodies s) (motionStates s) (nextAddress s).
Definition set_shapes (h : gmap ptr btCollisionShape) (s : PhysicsEngine) :=
  MkPhysicsEngine (_dynamicsWorld s) (_shapeManager s) (_voxels s) (_originOffset s) (_clock s)
    h (collisionObjects s) (rigidBodies s) (motionStates s) (nextAddress s).
Definition set_collisionObjects (h : gmap ptr btCollisionObject) (s : PhysicsEngine) :=
  MkPhysicsEngine (_dynamicsWorld s) (_shapeManager s) (_voxels s) (_originOffset s) (_clock s)
    (shapes s) h (rigidBodies s) (motionStates s) (nextAddress s).
Definition set_rigidBodies (h : gmap ptr btRigidBody) (s : PhysicsEngine) :=
  MkPhysicsEngine (_dynamicsWorld s) (_shapeManager s) (_voxels s) (_originOffset s) (_clock s)
    (shapes s) (collisionObjects s) h (motionStates s) (nextAddress s).
Definition set_motionStates (h : gmap ptr CustomMotionState) (s : PhysicsEngine) :=
  MkPhysicsEngine (_dynamicsWorld s) (_shapeManager s) (_voxels s) (_originOffset s) (_clock s)
    (shapes s) (collisionObjects s) (rigidBodies s) h (nextAddress s).
Definition set_nextAddress (n : ptr) (s : PhysicsEngine) :=
  MkPhysicsEngine (_dynamicsWorld s) (_shapeManager s) (_voxels s) (_originOffset s) (_clock s)
    (shapes s) (collisionObjects s) (rigidBodies s) (motionStates s) n.

(** A freshly constructed engine: no world yet, empty maps. *)
Definition newPhysicsEngine (originOffset : vec3) (now : Z) : PhysicsEngine :=
  MkPhysicsEngine None ∅ ∅ originOffset now ∅ ∅ ∅ ∅ 1%positive.

(** ** The monad of engine operations

    A member function either returns a value and a new state, or stops
    at a failed [assert] (the state reached is kept, for inspection), or
    dereferences a NULL or dangling pointer. *)
Inductive Outcome (A : Type) : Type :=
| Return (a : A) (s : PhysicsEngine)
| AssertionFailed (s : PhysicsEngine)
| Fault.
Arguments Return {A} a s.
Arguments AssertionFailed {A} s.
Arguments Fault {A}.

Definition M (A : Type) : Type := PhysicsEngine -> Outcome A.

#[global] Instance M_ret : MRet M := fun A a s => Return a s.

#[global] Instance M_bind : MBind M := fun A B f m s =>
  match m s with
  | Return a s' => f a s'
  | AssertionFailed s' => AssertionFailed s'
  | Fault => Fault
  end.

Definition gets {A} (f : PhysicsEngine -> A) : M A := fun s => Return (f s) s.
Definition modify (f : PhysicsEngine -> PhysicsEngine) : M unit := fun s => Return tt (f s).
Definition fault {A} : M A := fun _ => Fault.

(** Dereference: the object at an address, or a fault. *)
Definition deref {A} (heap : PhysicsEngine -> gmap ptr A) (p : ptr) : M A :=
  fun s => match heap s !! p with
           | Some a => Return a s
           | None => Fault
           end.

(** [when c m]: an [if] without [else]. *)
Definition when (c : bool) (m : M unit) : M unit := if c then m else mret tt.

(** [flags & bit], read as a C condition. *)
Definition has (flags bit : Z) : bool := negb (Z.land flags bit =? 0).

(** [new]: the next free address. *)
Definition alloc : M ptr :=
  fun s => Return (nextAddress s) (set_nextAddress (Pos.succ (nextAddress s)) s).

Definition modifyBody (p : ptr) (f : btRigidBody -> btRigidBody) : M unit :=
  b ← deref rigidBodies p;
  modify (fun s => set_rigidBodies (<[p := f b]> (rigidBodies s)) s).

Definition modifyMotionState (p : ptr) (f : CustomMotionState -> CustomMotionState) : M unit :=
  ms ← deref motionStates p;
  modify (fun s => set_motionStates (<[p := f ms]> (motionStates s)) s).

(** [_dynamicsWorld->...]: a fault before [init]. *)
Definition world : M btDiscreteDynamicsWorld :=
  fun s => match _dynamicsWorld s with
           | Some w => Return w s
           | None => Fault
           end.

Definition modifyWorld (f : btDiscreteDynamicsWorld -> btDiscreteDynamicsWorld) : M unit :=
  w ← world;
  modify (set_dynamicsWorld (Some (f w))).

(** [_dynamicsWorld->addRigidBody(body)]. *)
Definition world_addRigidBody (p : ptr) : M unit :=
  b ← deref rigidBodies p;
  w ← world;
  let '(b', w') := addRigidBody p b w in
  modify (fun s => set_dynamicsWorld (Some w') (set_rigidBodies (<[p := b']> (rigidBodies s)) s)).

(** [_dynamicsWorld->removeRigidBody(body)]. *)
Definition world_removeRigidBody (p : ptr) : M unit :=
  modifyWorld (removeRigidBody p).

(** ** The engine *)

(** What this translation unit takes from headers and sibling classes
    that are not among the sources. *)
Class Environment : Type := {
  (** Assertions are compiled out when [NDEBUG] is defined. *)
  NDEBUG : bool;
  (** The update flags of PhysicsEngine.h: four bits and the two masks
      that select the update tier. *)
  PHYSICS_UPDATE_POSITION : Z;
  PHYSICS_UPDATE_VELOCITY : Z;
  PHYSICS_UPDATE_MASS : Z;
  PHYSICS_UPDATE_SHAPE : Z;
  PHYSICS_UPDATE_HARD : Z;
  PHYSICS_UPDATE_EASY : Z;
  (** [PositionHashKey]: the canonical, quantized key of a voxel centre. *)
  PositionHashKey : vec3 -> Z;
  (** The Shape Cache's canonical key of a descriptor, and the range of
      box half extents for which a shape can be constructed. *)
  ShapeKey : ShapeInfo -> Z;
  shapeInRange : vec3 -> bool
}.

Section Engine.

Context {env : Environment}.

(** [assert(c)]. *)
Definition assert (c : bool) : M unit :=
  fun s => if NDEBUG || c then Return tt s else AssertionFailed s.

(** *** Shape Cache *)

(** Modelled from the spec: shape construction, which fails (NULL) for
    out-of-range geometry. *)
Definition createShape (info : ShapeInfo) : option btCollisionShape :=
  match info with
  | BoxInfo h => if shapeInRange h then Some (BtBoxShape h) else None
  | InvalidShapeInfo => None
  end.

(** Modelled from the spec: [ShapeManager::getShape(info)], the cache's
    acquire.  A hit increments the count and returns the cached shape; a
    miss constructs the shape, caches it with count 1 and returns it, or
    returns NULL and caches nothing when construction fails. *)
Definition getShape (info : ShapeInfo) : M (option ptr) :=
  let key := ShapeKey info in
  found ← gets (fun s => _shapeManager s !! key);
  match found with
  | Some shapeRef =>
      modify (fun s => set_shapeManager
        (<[key := MkShapeReference (_refCount shapeRef + 1) (_shape shapeRef)]>
           (_shapeManager s)) s);;
      mret (Some (_shape shapeRef))
  | None =>
      match createShape info with
      | Some shape =>
          p ← alloc;
          modify (fun s => set_shapes (<[p := shape]> (shapes s)) s);;
          modify (fun s => set_shapeManager
            (<[key := MkShapeReference 1 p]> (_shapeManager s)) s);;
          mret (Some p)
      | None => mret None
      end
  end.

(** Modelled from the spec: [ShapeManager::releaseShape(info)], the
    cache's release.  The matching entry's count is decremented; at zero
    the shape is destroyed and the entry removed.  No matching entry:
    [false]. *)
Definition releaseShape (info : ShapeInfo) : M bool :=
  let key := ShapeKey info in
  found ← gets (fun s => _shapeManager s !! key);
  match found with
  | Some shapeRef =>
      (if _refCount shapeRef - 1 =? 0
       then modify (fun s => set_shapes (delete (_shape shapeRef) (shapes s)) s);;
            modify (fun s => set_shapeManager (delete key (_shapeManager s)) s)
       else modify (fun s => set_shapeManager
              (<[key := MkShapeReference (_refCount shapeRef - 1) (_shape shapeRef)]>
                 (_shapeManager s)) s));;
      mret true
  | None => mret false
  end.

(** Modelled from the spec: [ShapeManager::releaseShape(shape)], release
    by shape handle: the descriptor is rebuilt from the live shape.  A
    NULL handle describes no shape. *)
Definition releaseShapePtr (shape : option ptr) : M bool :=
  match shape with
  | Some p =>
      sh ← deref shapes p;
      releaseShape (collectInfo sh)
  | None => releaseShape InvalidShapeInfo
  end.

(** The cache's reference count of a key (zero when absent). *)
Definition refCount (s : PhysicsEngine) (key : Z) : Z :=
  match _shapeManager s !! key with
  | Some shapeRef => _refCount shapeRef
  | None => 0
  end.

(** *** Motion proxy callbacks *)

(** Modelled from the spec: [CustomMotionState::applyVelocities()]
    re-derives linear and angular velocity and applies them to the
    proxy's body. *)
Definition applyVelocities (motionState : ptr) : M unit :=
  ms ← deref motionStates motionState;
  match _body ms with
  | Some body =>
      modifyBody body (fun b =>
        setAngularVelocity (entityAngularVelocity ms)
          (setLinearVelocity (entityVelocity ms) b))
  | None => mret tt
  end.

(** Modelled from the spec: [CustomMotionState::applyGravity()] applies
    the proxy's local gravity override to the proxy's body. *)
Definition applyGravity (motionState : ptr) : M unit :=
  ms ← deref motionStates motionState;
  match _body ms with
  | Some body => modifyBody body (setGravity (entityGravity ms))
  | None => mret tt
  end.

(** *** [PhysicsEngine::init] *)
Definition init : M unit :=
  w ← gets _dynamicsWorld;
  match w with
  | Some _ => mret tt
  | None =>
      modify (set_dynamicsWorld (Some newDynamicsWorld));;
      let halfSide := F32.of_Z 200 in
      let halfHeight := F32.of_Z 1 in
      groundShape ← alloc;
      modify (fun s => set_shapes
        (<[groundShape := BtBoxShape (Vec3 halfSide halfHeight halfSide)]> (shapes s)) s);;
      let groundTransform :=
        setOrigin (Vec3 halfSide (SFopp halfHeight) halfSide) identityTransform in
      groundObject ← alloc;
      modify (fun s => set_collisionObjects
        (<[groundObject := BtCollisionObject CF_STATIC_OBJECT (Some groundShape) groundTransform]>
           (collisionObjects s)) s);;
      modifyWorld (addCollisionObject groundObject)
  end.

(** *** [PhysicsEngine::stepSimulation]

    [now] is the reading of the wall clock, in microseconds. *)
Definition MAX_TIMESTEP : float := F32.div (F32.of_Z 1) (F32.of_Z 30).
Definition MAX_NUM_SUBSTEPS : Z := 2.
Definition FIXED_SUBSTEP : float := F32.div (F32.of_Z 1) (F32.of_Z 60).

(** The literal [1.0e-6f]. *)
Definition MICRO : float := F32.div (F32.of_Z 1) (F32.of_Z 1000000).

(** [_clock.getTimeMicroseconds()]. *)
Definition getTimeMicroseconds (now : Z) (s : PhysicsEngine) : Z := now - _clock s.

Definition stepSimulation (now : Z) : M unit :=
  elapsed ← gets (getTimeMicroseconds now);
  let dt := F32.mul MICRO (F32.of_Z elapsed) in
  modify (set_clock now);;
  let timeStep := F32.btMin dt MAX_TIMESTEP in
  modifyWorld (Bullet.stepSimulation timeStep MAX_NUM_SUBSTEPS FIXED_SUBSTEP).

(** *** Voxels *)

Definition addVoxel (position : vec3) (scale : float) : M bool :=
  let halfExtents := vec3_splat (F32.mul F32.half scale) in
  let trueCenter := vec3_add position halfExtents in
  let key := PositionHashKey trueCenter in
  proxy ← gets (fun s => _voxels s !! key);
  match proxy with
  | None =>
      let info := setBox halfExtents in
      shape ← getShape info;
      match shape with
      | Some sh =>
          object ← alloc;
          originOffset ← gets _originOffset;
          let shiftedCenter := vec3_add (vec3_sub position originOffset) halfExtents in
          let transform := setOrigin shiftedCenter identityTransform in
          modify (fun s => set_collisionObjects
            (<[object := BtCollisionObject (co_collisionFlags newCollisionObject)
                           (Some sh) transform]> (collisionObjects s)) s);;
          modify (fun s => set_voxels
            (<[key := MkVoxelObject trueCenter (Some object)]> (_voxels s)) s);;
          modifyWorld (addCollisionObject object);;
          mret true
      | None => mret false
      end
  | Some _ => mret false
  end.

Definition removeVoxel (position : vec3) (scale : float) : M bool :=
  let halfExtents := vec3_splat (F32.mul F32.half scale) in
  let trueCenter := vec3_add position halfExtents in
  let key := PositionHashKey trueCenter in
  proxy ← gets (fun s => _voxels s !! key);
  match proxy with
  | Some vo =>
      assert (bool_decide (is_Some (_object vo)));;
      match _object vo with
      | Some object =>
          modifyWorld (removeCollisionObject object);;
          let info := setBox halfExtents in
          released ← releaseShape info;
          assert released;;
          modify (fun s => set_collisionObjects (delete object (collisionObjects s)) s);;
          modify (fun s => set_voxels (delete key (_voxels s)) s);;
          mret true
      | None => fault
      end
  | None => mret false
  end.

(** *** Entities *)

(** [body->getCollisionShape()->calculateLocalInertia(mass, inertia)]:
    the body's shape is dereferenced. *)
Definition bodyLocalInertia (body : ptr) (mass : float) : M vec3 :=
  b ← deref rigidBodies body;
  match m_collisionShape b with
  | Some sh =>
      shape ← deref shapes sh;
      mret (calculateLocalInertia shape mass)
  | None => fault
  end.

(** [motionState] is an address, so [assert(motionState)] has nothing to
    check; a dangling one faults at its first use. *)
Definition addEntity (motionState : ptr) : M bool :=
  ms ← deref motionStates motionState;
  let info := computeShapeInfo ms in
  shape ← getShape info;
  match shape with
  | Some sh =>
      let inertia := vec3_zero in
      let mass := F32.zero in
      body ← alloc;
      match getMotionType ms with
      | MOTION_TYPE_KINEMATIC =>
          modify (fun s => set_rigidBodies
            (<[body := newRigidBody mass motionState (getWorldTransform ms) sh inertia]>
               (rigidBodies s)) s);;
          modifyBody body (setCollisionFlags CF_KINEMATIC_OBJECT);;
          modifyBody body (setActivationState DISABLE_DEACTIVATION);;
          modifyBody body updateInertiaTensor;;
          modifyMotionState motionState (set_body (Some body))
      | MOTION_TYPE_DYNAMIC =>
          let mass := getMass ms in
          shapeObject ← deref shapes sh;
          let inertia := calculateLocalInertia shapeObject mass in
          modify (fun s => set_rigidBodies
            (<[body := newRigidBody mass motionState (getWorldTransform ms) sh inertia]>
               (rigidBodies s)) s);;
          modifyBody body updateInertiaTensor;;
          modifyMotionState motionState (set_body (Some body));;
          applyVelocities motionState;;
          applyGravity motionState
      | MOTION_TYPE_STATIC =>
          modify (fun s => set_rigidBodies
            (<[body := newRigidBody mass motionState (getWorldTransform ms) sh inertia]>
               (rigidBodies s)) s);;
          modifyBody body (setCollisionFlags CF_STATIC_OBJECT);;
          modifyBody body updateInertiaTensor;;
          modifyMotionState motionState (set_body (Some body))
      end;;
      modifyBody body (setFlags BT_DISABLE_WORLD_GRAVITY);;
      modifyBody body (setRestitution (_restitution ms));;
      modifyBody body (setFriction (_friction ms));;
      world_addRigidBody body;;
      mret true
  | None => mret false
  end.

Definition removeEntity (motionState : ptr) : M bool :=
  ms ← deref motionStates motionState;
  match _body ms with
  | Some body =>
      b ← deref rigidBodies body;
      info ← match m_collisionShape b with
             | Some sh => shape ← deref shapes sh; mret (collectInfo shape)
             | None => mret InvalidShapeInfo
             end;
      world_removeRigidBody body;;
      releaseShape info;;
      modify (fun s => set_rigidBodies (delete body (rigidBodies s)) s);;
      modifyMotionState motionState (set_body None);;
      mret true
  | None => mret false
  end.

Definition updateEntityEasy (body motionState : ptr) (flags : Z) : M unit :=
  ms ← deref motionStates motionState;
  when (has flags PHYSICS_UPDATE_POSITION)
    (modifyBody body (setWorldTransform (getWorldTransform ms)));;
  when (has flags PHYSICS_UPDATE_VELOCITY)
    (applyVelocities motionState;;
     applyGravity motionState);;
  modifyBody body (setRestitution (_restitution ms));;
  modifyBody body (setFriction (_friction ms));;
  when (has flags PHYSICS_UPDATE_MASS)
    (let mass := getMass ms in
     inertia ← bodyLocalInertia body mass;
     modifyBody body (setMassProps mass inertia);;
     modifyBody body updateInertiaTensor);;
  modifyBody body (activate false).

Definition updateEntityHard (body motionState : ptr) (flags : Z) : M unit :=
  ms ← deref motionStates motionState;
  let newType := getMotionType ms in
  b ← deref rigidBodies body;
  let oldType :=
    if isStaticObject b then MOTION_TYPE_STATIC
    else if isKinematicObject b then MOTION_TYPE_KINEMATIC
    else MOTION_TYPE_DYNAMIC in
  world_removeRigidBody body;;
  when (has flags PHYSICS_UPDATE_SHAPE)
    (let oldShape := m_collisionShape b in
     let info := computeShapeInfo ms in
     newShape ← getShape info;
     (if bool_decide (newShape ≠ oldShape)
      then modifyBody body (setCollisionShape newShape);;
           releaseShapePtr oldShape
      else releaseShapePtr newShape);;
     assert (has flags PHYSICS_UPDATE_MASS));;
  let easyUpdate := has flags PHYSICS_UPDATE_EASY in
  when easyUpdate (updateEntityEasy body motionState flags);;
  match newType with
  | MOTION_TYPE_KINEMATIC =>
      modifyBody body (fun b =>
        setCollisionFlags
          (Z.land (Z.lor (m_collisionFlags b) CF_KINEMATIC_OBJECT) (Z.lnot CF_STATIC_OBJECT)) b);;
      modifyBody body (forceActivationState DISABLE_DEACTIVATION);;
      modifyBody body (setMassProps F32.zero vec3_zero);;
      modifyBody body updateInertiaTensor
  | MOTION_TYPE_DYNAMIC =>
      modifyBody body (fun b =>
        setCollisionFlags
          (Z.land (m_collisionFlags b)
             (Z.lnot (Z.lor CF_KINEMATIC_OBJECT CF_STATIC_OBJECT))) b);;
      when (negb (has flags PHYSICS_UPDATE_MASS))
        (let mass := getMass ms in
         inertia ← bodyLocalInertia body mass;
         modifyBody body (setMassProps mass inertia);;
         modifyBody body updateInertiaTensor);;
      let forceActivation := true in
      modifyBody body (activate forceActivation)
  | MOTION_TYPE_STATIC =>
      modifyBody body (fun b =>
        setCollisionFlags
          (Z.land (Z.lor (m_collisionFlags b) CF_STATIC_OBJECT) (Z.lnot CF_KINEMATIC_OBJECT)) b);;
      modifyBody body (forceActivationState DISABLE_SIMULATION);;
      modifyBody body (setMassProps F32.zero vec3_zero);;
      modifyBody body updateInertiaTensor;;
      modifyBody body (setLinearVelocity vec3_zero);;
      modifyBody body (setAngularVelocity vec3_zero)
  end;;
  world_addRigidBody body;;
  modifyBody body (activate false).

Definition updateEntity (motionState : ptr) (flags : Z) : M bool :=
  ms ← deref motionStates motionState;
  match _body ms with
  | None => mret false
  | Some body =>
      (if has flags PHYSICS_UPDATE_HARD
       then updateEntityHard body motionState flags
       else if has flags PHYSICS_UPDATE_EASY
            then updateEntityEasy body motionState flags
            else mret tt);;
      mret true
  end.

(** *** Vocabulary of the voxel and cache properties *)

(** The box descriptor and the voxel key that [addVoxel] and
    [removeVoxel] compute from a (position, scale) pair. *)
Definition voxelInfo (scale : float) : ShapeInfo :=
  setBox (vec3_splat (F32.mul F32.half scale)).
Definition voxelKey (position : vec3) (scale : float) : Z :=
  PositionHashKey (vec3_add position (vec3_splat (F32.mul F32.half scale))).

(** The Shape Cache accepts a descriptor: it is cached already, or a
    shape can be constructed for it. *)
Definition accepted (s : PhysicsEngine) (info : ShapeInfo) : Prop :=
  is_Some (_shapeManager s !! ShapeKey info) \/ is_Some (createShape info).

End Engine.

(** * Vocabulary of the properties *)

(** The collision objects currently in the simulator. *)
Definition worldObjects (s : PhysicsEngine) : list ptr :=
  match _dynamicsWorld s with
  | Some w => m_collisionObjects w
  | None => []
  end.

(** [b] is the address of a rigid body whose motion state is proxy [p]. *)
Definition isBodyOf (s : PhysicsEngine) (p b : ptr) : bool :=
  match rigidBodies s !! b with
  | Some body => bool_decide (m_optionalMotionState body = p)
  | None => false
  end.

(** The bodies the simulator holds for proxy [p]. *)
Definition bodiesOf (s : PhysicsEngine) (p : ptr) : list ptr :=
  List.filter (isBodyOf s p) (worldObjects s).

(** Proxy [p] is registered: the simulator holds a body for it. *)
Definition registeredBody (s : PhysicsEngine) (p b : ptr) : Prop :=
  b ∈ worldObjects s /\ isBodyOf s p b = true.
Definition registered (s : PhysicsEngine) (p : ptr) : Prop :=
  exists b, registeredBody s p b.

(** The invariant of the Motion Proxy: the back-reference is non-NULL
    exactly when the proxy is registered. *)
Definition backref_iff_registered (s : PhysicsEngine) : Prop :=
  forall p ms, motionStates s !! p = Some ms -> (is_Some (_body ms) <-> registered s p).

(** The inductive form of that invariant: the world exists, holds no
    object twice and only allocated ones, every rigid body in it has a
    shape, and a proxy's back-reference is [b] exactly when [b] is a body
    of that proxy in the simulator. *)
Definition consistent (s : PhysicsEngine) : Prop :=
  is_Some (_dynamicsWorld s)
  /\ NoDup (worldObjects s)
  /\ (forall x, x ∈ worldObjects s -> (x < nextAddress s)%positive)
  /\ (forall b body, b ∈ worldObjects s -> rigidBodies s !! b = Some body ->
        is_Some (m_collisionShape body))
  /\ (forall p ms b, motionStates s !! p = Some ms ->
        (_body ms = Some b <-> registeredBody s p b)).

(** During an update of proxy [p] with body [b], relative to the state
    [s0] the update started from: the proxies are the same, allocation only
    grew, every other body is untouched, and [b] is still a body of [p]
    with a shape. *)
Definition bodyFrame (s0 : PhysicsEngine) (p b : ptr) (s1 : PhysicsEngine) : Prop :=
  motionStates s1 = motionStates s0
  /\ (nextAddress s0 <= nextAddress s1)%positive
  /\ (forall x, x ≠ b -> rigidBodies s1 !! x = rigidBodies s0 !! x)
  /\ exists body,
       rigidBodies s1 !! b = Some body
       /\ m_optionalMotionState body = p
       /\ is_Some (m_collisionShape body).

(** ... and the simulator holds the objects it held in [s0], without
    [b] while [b] is pulled out. *)
Definition worldFrame (s0 : PhysicsEngine) (b : ptr) (out : bool) (s1 : PhysicsEngine) : Prop :=
  exists w1,
    _dynamicsWorld s1 = Some w1
    /\ NoDup (m_collisionObjects w1)
    /\ forall x, x ∈ m_collisionObjects w1 <-> x ∈ worldObjects s0 /\ (out = true -> x ≠ b).

Definition updateFrame (s0 : PhysicsEngine) (p b : ptr) (out : bool) (s1 : PhysicsEngine) : Prop :=
  bodyFrame s0 p b s1 /\ worldFrame s0 b out s1.

(** During an update that finds the body's shape [sh] unchanged, relative
    to the start [s0]: the proxy, the body with that shape, the shape and
    the world are alive and the Shape Cache is as it was. *)
Definition cacheFrame (s0 : PhysicsEngine) (p b : ptr) (ms : CustomMotionState)
    (sh : ptr) (shape : btCollisionShape) (s1 : PhysicsEngine) : Prop :=
  motionStates s1 !! p = Some ms
  /\ (exists body, rigidBodies s1 !! b = Some body /\ m_collisionShape body = Some sh)
  /\ shapes s1 !! sh = Some shape
  /\ is_Some (_dynamicsWorld s1)
  /\ _shapeManager s1 = _shapeManager s0.

(** A body the simulator moves: neither static nor kinematic. *)
Definition moving (b : btRigidBody) : Prop :=
  isStaticObject b = false /\ isKinematicObject b = false.

(** ** Specifications of operations

    [triple F P m Q E]: from a state in [P], operation [m] returns in a
    state in [Q], or stops at an assertion in a state in [E]; a fault is
    possible only if [F] holds ([False] for total correctness). *)
Definition triple {A} (F : Prop) (P : PhysicsEngine -> Prop) (m : M A)
    (Q : A -> PhysicsEngine -> Prop) (E : PhysicsEngine -> Prop) : Prop :=
  forall s, P s ->
    match m s with
    | Return a s' => Q a s'
    | AssertionFailed s' => E s'
    | Fault => F
    end.

(** An operation that cannot stop at an assertion. *)
Definition neverAsserts {A} (m : M A) : Prop :=
  forall s s', m s ≠ AssertionFailed s'.

(** A body update that leaves the body's shape and motion state alone. *)
Definition keepsLinks (f : btRigidBody -> btRigidBody) : Prop :=
  forall b, m_collisionShape (f b) = m_collisionShape b
            /\ m_optionalMotionState (f b) = m_optionalMotionState b.

(** A state predicate that survives replacing the body at [b] by one with
    the same shape and motion state. *)
Definition stableBody (G : PhysicsEngine -> Prop) (b : ptr) : Prop :=
  forall s body body', G s -> rigidBodies s !! b = Some body ->
    m_collisionShape body' = m_collisionShape body ->
    m_optionalMotionState body' = m_optionalMotionState body ->
    G (set_rigidBodies (<[b := body']> (rigidBodies s)) s).

(** The state an operation ends in (the given state if it faults). *)
Definition stateAfter {A} (m : M A) (s : PhysicsEngine) : PhysicsEngine :=
  match m s with
  | Return _ s' => s'
  | AssertionFailed s' => s'
  | Fault => s
  end.

(** The entity behind a proxy changes its state between engine calls. *)
Definition entityChanges (p : ptr) (f : CustomMotionState -> CustomMotionState)
    (s : PhysicsEngine) : PhysicsEngine :=
  match motionStates s !! p with
  | Some ms => set_motionStates (<[p := f ms]> (motionStates s)) s
  | None => s
  end.

Definition set_motionType (t : MotionType) (ms : CustomMotionState) : CustomMotionState :=
  MkCustomMotionState (_body ms) (_restitution ms) (_friction ms) t (getMass ms)
    (computeShapeInfo ms) (getWorldTransform ms) (entityVelocity ms)
    (entityAngularVelocity ms) (entityGravity ms).

Definition set_mass (m : float) (ms : CustomMotionState) : CustomMotionState :=
  MkCustomMotionState (_body ms) (_restitution ms) (_friction ms) (getMotionType ms) m
    (computeShapeInfo ms) (getWorldTransform ms) (entityVelocity ms)
    (entityAngularVelocity ms) (entityGravity ms).

Definition set_shapeInfo (i : ShapeInfo) (ms : CustomMotionState) : CustomMotionState :=
  MkCustomMotionState (_body ms) (_restitution ms) (_friction ms) (getMotionType ms) (getMass ms)
    i (getWorldTransform ms) (entityVelocity ms)
    (entityAngularVelocity ms) (entityGravity ms).

(** ** Allocation and the Shape Cache *)

(** Every address in use, in the heaps and in the simulator's arrays, is
    below the next address [new] hands out. *)
Definition allocatedBelow (s : PhysicsEngine) : Prop :=
  map_Forall (fun x _ => (x < nextAddress s)%positive) (shapes s)
  /\ map_Forall (fun x _ => (x < nextAddress s)%positive) (collisionObjects s)
  /\ map_Forall (fun x _ => (x < nextAddress s)%positive) (rigidBodies s)
  /\ forall w, _dynamicsWorld s = Some w ->
       Forall (fun x => (x < nextAddress s)%positive)
         (m_collisionObjects w ++ m_nonStaticRigidBodies w).

Section CacheVocabulary.

Context {env : Environment}.

(** The Shape Cache is sound: every entry counts at least one user, and
    its shape is alive and is the one the entry's key describes. *)
Definition cacheSound (s : PhysicsEngine) : Prop :=
  map_Forall
    (fun key shapeRef =>
       0 < _refCount shapeRef
       /\ (ShapeKey ∘ collectInfo) <$> shapes s !! _shape shapeRef = Some key)
    (_shapeManager s).

End CacheVocabulary.

(** The state [s] with the allocator of [s0]: what is left of [s] when
    the addresses handed out since [s0] are forgotten. *)
Definition rewound (s0 s : PhysicsEngine) : PhysicsEngine :=
  set_nextAddress (nextAddress s0) s.

(** During an easy update of the body at [b], relative to the start
    [s0]: the engine differs from [s0] in that body alone, and the body
    has kept its shape and its motion state. *)
Definition easyFrame (s0 : PhysicsEngine) (b : ptr) (s1 : PhysicsEngine) : Prop :=
  set_rigidBodies (rigidBodies s0) s1 = s0
  /\ (forall x, x ≠ b -> rigidBodies s1 !! x = rigidBodies s0 !! x)
  /\ exists body0 body1,
       rigidBodies s0 !! b = Some body0
       /\ rigidBodies s1 !! b = Some body1
       /\ m_collisionShape body1 = m_collisionShape body0
       /\ m_optionalMotionState body1 = m_optionalMotionState body0.

(** * A concrete world

    Concrete values for what the sources leave open, and a small scene:
    an initialised engine and one proxy. *)
Module Scene.

(** Modelled from the spec: the update flags and their two tiers,
    [Easy = {Position, Velocity}] and
    [Hard = {Shape, Mass, classification change}]. *)
Definition PHYSICS_UPDATE_POSITION : Z := 1.
Definition PHYSICS_UPDATE_VELOCITY : Z := 2.
Definition PHYSICS_UPDATE_MASS : Z := 4.
Definition PHYSICS_UPDATE_SHAPE : Z := 8.
Definition PHYSICS_UPDATE_MOTION_TYPE : Z := 16.
Definition PHYSICS_UPDATE_EASY : Z :=
  Z.lor PHYSICS_UPDATE_POSITION PHYSICS_UPDATE_VELOCITY.
Definition PHYSICS_UPDATE_HARD : Z :=
  Z.lor PHYSICS_UPDATE_SHAPE (Z.lor PHYSICS_UPDATE_MASS PHYSICS_UPDATE_MOTION_TYPE).

(** [(int)(1000 * x)]: a length in whole millimetres. *)
Definition millimetres (x : float) : Z :=
  match F32.mul (F32.of_Z 1000) x with
  | S754_finite sign m e =>
      let n := if 0 <=? e then Z.pos m * 2 ^ e else Z.pos m / 2 ^ (- e) in
      if sign then - n else n
  | _ => 0
  end.

Definition quantize (v : vec3) : Z :=
  (millimetres (vx v) * 2 ^ 24 + millimetres (vy v)) * 2 ^ 24 + millimetres (vz v).

(** Modelled from the spec: the canonical position key, the centre
    quantized to millimetres. *)
Definition PositionHashKey (center : vec3) : Z := quantize center.

(** Modelled from the spec: the canonical descriptor key, the half
    extents quantized to millimetres; key 0 for no shape. *)
Definition ShapeKey (info : ShapeInfo) : Z :=
  match info with
  | InvalidShapeInfo => 0
  | BoxInfo h => 1 + 2 * quantize h
  end.

(** Modelled from the spec: a box can be constructed when each half
    extent is positive and at most a kilometre. *)
Definition shapeInRange (h : vec3) : bool :=
  let ok x := F32.ltb F32.zero x && negb (F32.ltb (F32.of_Z 1000) x) in
  ok (vx h) && ok (vy h) && ok (vz h).

Definition environment (ndebug : bool) : Environment :=
  Build_Environment ndebug
    PHYSICS_UPDATE_POSITION PHYSICS_UPDATE_VELOCITY PHYSICS_UPDATE_MASS
    PHYSICS_UPDATE_SHAPE PHYSICS_UPDATE_HARD PHYSICS_UPDATE_EASY
    PositionHashKey ShapeKey shapeInRange.

Definition addVoxel := @addVoxel (environment false).
Definition removeVoxel := @removeVoxel (environment false).
Definition addEntity := @addEntity (environment false).
Definition removeEntity := @removeEntity (environment false).
Definition updateEntity (ndebug : bool) := @updateEntity (environment ndebug).

Definition unitBox : ShapeInfo := BoxInfo (vec3_splat F32.half).
Definition bigBox : ShapeInfo := BoxInfo (vec3_splat F32.one).

(** A proxy for a unit cube of mass 2 lifted one metre, moving along x
    under a gravity of its own. *)
Definition cube (t : MotionType) : CustomMotionState :=
  MkCustomMotionState None F32.half F32.half t (F32.of_Z 2) unitBox
    (setOrigin (Vec3 F32.zero F32.one F32.zero) identityTransform)
    (Vec3 F32.one F32.zero F32.zero) vec3_zero
    (Vec3 F32.zero (SFopp (F32.of_Z 5)) F32.zero).

(** The address of the proxy (owned by the entity system). *)
Definition proxy : ptr := 1000%positive.

(** An initialised engine that knows the proxy's address. *)
Definition engine0 (t : MotionType) : PhysicsEngine :=
  set_motionStates {[ proxy := cube t ]}
    (stateAfter init (newPhysicsEngine vec3_zero 0)).

(** The proxy added once, twice, and then removed once. *)
Definition added (t : MotionType) : PhysicsEngine := stateAfter (addEntity proxy) (engine0 t).
Definition addedTwice (t : MotionType) : PhysicsEngine := stateAfter (addEntity proxy) (added t).
Definition addedTwiceRemoved (t : MotionType) : PhysicsEngine :=
  stateAfter (removeEntity proxy) (addedTwice t).

(** A dynamic proxy whose entity turned static and was hard-updated. *)
Definition turnedStatic : PhysicsEngine :=
  stateAfter (updateEntity false proxy PHYSICS_UPDATE_MOTION_TYPE)
    (entityChanges proxy (set_motionType MOTION_TYPE_STATIC) (added MOTION_TYPE_DYNAMIC)).

(** ... and whose entity now reports dynamic again. *)
Definition reportsDynamicAgain : PhysicsEngine :=
  entityChanges proxy (set_motionType MOTION_TYPE_DYNAMIC) turnedStatic.

(** A static proxy whose entity grew to a bigger box. *)
Definition grown : PhysicsEngine :=
  entityChanges proxy (set_shapeInfo bigBox) (added MOTION_TYPE_STATIC).

(** A box beyond what the cache constructs. *)
Definition hugeBox : ShapeInfo := BoxInfo (vec3_splat (F32.of_Z 2000)).

(** A static proxy whose entity outgrew the cache's range, and the
    [Shape|Mass] update that reports it. *)
Definition outgrown : PhysicsEngine :=
  entityChanges proxy (set_shapeInfo hugeBox) (added MOTION_TYPE_STATIC).
Definition outgrownUpdated : PhysicsEngine :=
  stateAfter
    (updateEntity false proxy (Z.lor PHYSICS_UPDATE_SHAPE PHYSICS_UPDATE_MASS))
    outgrown.

(** An engine that knows the proxy and was never initialised. *)
Definition uninitialised (t : MotionType) : PhysicsEngine :=
  set_motionStates {[ proxy := cube t ]} (newPhysicsEngine vec3_zero 0).

(** A voxel of side 2 at the origin; the voxel of side 1 at
    [innerCorner] has the same centre. *)
Definition bigVoxel : PhysicsEngine :=
  stateAfter (addVoxel vec3_zero (F32.of_Z 2)) (engine0 MOTION_TYPE_STATIC).
Definition innerCorner : vec3 := vec3_splat F32.half.

(** A proxy that reports a box out of range before it is added. *)
Definition oversized : PhysicsEngine :=
  entityChanges proxy (set_shapeInfo hugeBox) (engine0 MOTION_TYPE_DYNAMIC).

(** The proxy added as [t0], its entity now reporting motion type [t]. *)
Definition reporting (t0 t : MotionType) : PhysicsEngine :=
  entityChanges proxy (set_motionType t) (added t0).

(** The dynamic cube after its entity gained weight. *)
Definition heavier : PhysicsEngine :=
  entityChanges proxy (set_mass (F32.of_Z 7)) (added MOTION_TYPE_DYNAMIC).

End Scene.
(** * Properties *)

(** ** Comparison of floats *)

Lemma SFcompare_Lt_Gt (a b : float) :
  SFcompare a b = Some Lt -> SFcompare b a = Some Gt.
Proof.
  destruct a as [sa|sa| |sa ma ea], b as [sb|sb| |sb mb eb]; simpl;
    try discriminate; try (destruct sa; discriminate || reflexivity);
    try (destruct sb; discriminate || reflexivity);
    try (destruct sa, sb; discriminate || reflexivity).
  assert (Hm : Pos.compare_cont Eq mb ma = CompOpp (Pos.compare_cont Eq ma mb))
    by (now rewrite (Pos.compare_cont_antisym ma mb Eq)).
  destruct sa, sb; try discriminate; try reflexivity;
    rewrite (Z.compare_antisym ea eb), Hm;
    destruct (ea ?= eb); simpl; try discriminate; try reflexivity;
    destruct (Pos.compare_cont Eq ma mb); simpl; intros; try discriminate; reflexivity.
Qed.

Lemma ltb_asym (a b : float) : F32.ltb a b = true -> F32.ltb b a = false.
Proof.
  unfold F32.ltb, SFltb. intros H.
  destruct (SFcompare a b) as [[]|] eqn:E; try discriminate.
  now rewrite (SFcompare_Lt_Gt _ _ E).
Qed.

Lemma ltb_irrefl (a : float) : F32.ltb a a = false.
Proof.
  destruct (F32.ltb a a) eqn:H; [|reflexivity]. now rewrite (ltb_asym _ _ H) in H.
Qed.

(** [btMin] never exceeds the bound. *)
Lemma btMin_bounded (dt bound : float) : F32.ltb bound (F32.btMin dt bound) = false.
Proof.
  unfold F32.btMin. destruct (F32.ltb dt bound) eqn:H.
  - now apply ltb_asym.
  - apply ltb_irrefl.
Qed.

(** [btMin] clamps: a value above the bound is replaced by the bound. *)
Lemma btMin_clamp (dt bound : float) :
  F32.ltb bound dt = true -> F32.btMin dt bound = bound.
Proof. intros H. unfold F32.btMin. now rewrite (ltb_asym _ _ H). Qed.

(** ** Symbolic execution of engine operations *)

(** Unfolds the monad and the state accessors, leaving map lookups and
    Bullet calls in place. *)
Ltac exec :=
  cbv beta iota zeta delta
    [mbind M_bind mret M_ret gets modify fault deref when alloc world modifyWorld
     modifyBody modifyMotionState world_addRigidBody world_removeRigidBody assert
     _dynamicsWorld _shapeManager _voxels _originOffset _clock shapes collisionObjects
     rigidBodies motionStates nextAddress
     set_dynamicsWorld set_shapeManager set_voxels set_clock set_shapes
     set_collisionObjects set_rigidBodies set_motionStates set_nextAddress].

Ltac exec_in H :=
  cbv beta iota zeta delta
    [mbind M_bind mret M_ret gets modify fault deref when alloc world modifyWorld
     modifyBody modifyMotionState world_addRigidBody world_removeRigidBody assert
     _dynamicsWorld _shapeManager _voxels _originOffset _clock shapes collisionObjects
     rigidBodies motionStates nextAddress
     set_dynamicsWorld set_shapeManager set_voxels set_clock set_shapes
     set_collisionObjects set_rigidBodies set_motionStates set_nextAddress] in H.

(** Runs an operation symbolically, resolving the lookups it meets. *)
Ltac run :=
  repeat first
    [ progress exec
    | rewrite lookup_insert_eq
    | rewrite insert_insert_eq
    | progress cbn [_body set_body]
    | match goal with
      | H : ?x = Some _ |- context [match ?x with _ => _ end] => rewrite H
      | H : ?x = None |- context [match ?x with _ => _ end] => rewrite H
      end ].


(** Simplifies state accessors applied to explicit states. *)
Ltac simp_state :=
  cbn [_dynamicsWorld _shapeManager _voxels _originOffset _clock shapes collisionObjects
       rigidBodies motionStates nextAddress
       set_dynamicsWorld set_shapeManager set_voxels set_clock set_shapes
       set_collisionObjects set_rigidBodies set_motionStates set_nextAddress] in *.

(** Splits on the innermost stuck lookup or test of the running goal. *)
Ltac crack :=
  repeat (run; try match goal with
    | |- context [match ?x with Some _ => _ | None => _ end] =>
        lazymatch x with
        | context [match _ with _ => _ end] => fail
        | context [if _ then _ else _] => fail
        | _ => destruct x eqn:?
        end
    | |- context [if ?x then _ else _] =>
        lazymatch x with
        | context [match _ with _ => _ end] => fail
        | context [if _ then _ else _] => fail
        | _ => destruct x eqn:?
        end
    end).

(** ** The step loop *)

(** C8.  When the elapsed time measured by [stepSimulation] (the value of
    [dt], the clock reading in seconds) exceeds [MAX_TIMESTEP], the time
    step handed to the simulator's [stepSimulation] for that call is
    exactly [MAX_TIMESTEP], together with the fixed sub-step and the
    maximal number of sub-steps. *)
Theorem stepSimulation_clamps_to_MAX_TIMESTEP
    (s : PhysicsEngine) (w : btDiscreteDynamicsWorld) (now : Z) :
  _dynamicsWorld s = Some w ->
  F32.ltb MAX_TIMESTEP (F32.mul MICRO (F32.of_Z (getTimeMicroseconds now s))) = true ->
  exists s' w',
    stepSimulation now s = Return tt s'
    /\ _dynamicsWorld s' = Some w'
    /\ m_stepCalls w' = (MAX_TIMESTEP, MAX_NUM_SUBSTEPS, FIXED_SUBSTEP) :: m_stepCalls w
    /\ _clock s' = now.
Proof.
  intros Hw Hdt. destruct s as [dw sm vox off clk shp cobj rb mst nxt].
  cbn in Hw. subst dw. unfold stepSimulation. exec.
  unfold getTimeMicroseconds in *. cbn [_clock] in *.
  rewrite (btMin_clamp _ _ Hdt).
  eexists _, _. repeat split.
Qed.

(** Whatever the clock says, the time step handed to the simulator is
    never above [MAX_TIMESTEP]. *)
Lemma stepSimulation_never_exceeds_MAX_TIMESTEP
    (s s' : PhysicsEngine) (w' : btDiscreteDynamicsWorld) (now : Z) :
  stepSimulation now s = Return tt s' ->
  _dynamicsWorld s' = Some w' ->
  exists timeStep rest,
    m_stepCalls w' = (timeStep, MAX_NUM_SUBSTEPS, FIXED_SUBSTEP) :: rest
    /\ F32.ltb MAX_TIMESTEP timeStep = false.
Proof.
  destruct s as [dw sm vox off clk shp cobj rb mst nxt]. unfold stepSimulation. exec.
  destruct dw as [w|]; [|discriminate]. intros [= <-]. exec. intros [= <-].
  eexists _, _. split; [reflexivity|]. apply btMin_bounded.
Qed.

(** ** Rules for [triple] *)

Section TripleRules.

Context {A B : Type} (F : Prop).
Implicit Types (P G : PhysicsEngine -> Prop) (E : PhysicsEngine -> Prop).

Lemma triple_ret P (a : A) (Q : A -> PhysicsEngine -> Prop) E :
  (forall s, P s -> Q a s) -> triple F P (mret a) Q E.
Proof. intros H s Hs. now apply H. Qed.

Lemma triple_bind P (m : M A) (f : A -> M B) R (Q : B -> PhysicsEngine -> Prop) E :
  triple F P m R E -> (forall a, triple F (R a) (f a) Q E) ->
  triple F P (m ≫= f) Q E.
Proof.
  intros Hm Hf s Hs. specialize (Hm s Hs). unfold mbind, M_bind.
  destruct (m s) as [a s'| |]; auto. now apply Hf.
Qed.

Lemma triple_conseq P P' (m : M A) (Q Q' : A -> PhysicsEngine -> Prop) E :
  triple F P' m Q' E -> (forall s, P s -> P' s) -> (forall a s, Q' a s -> Q a s) ->
  triple F P m Q E.
Proof.
  intros Hm HP HQ s Hs. specialize (Hm s (HP s Hs)).
  destruct (m s); auto.
Qed.

Lemma triple_gets P (f : PhysicsEngine -> A) (Q : A -> PhysicsEngine -> Prop) E :
  (forall s, P s -> Q (f s) s) -> triple F P (gets f) Q E.
Proof. intros H s Hs. now apply H. Qed.

Lemma triple_deref P (heap : PhysicsEngine -> gmap ptr A) (p : ptr)
    (Q : A -> PhysicsEngine -> Prop) E :
  (forall s, P s -> match heap s !! p with Some a => Q a s | None => F end) ->
  triple F P (deref heap p) Q E.
Proof.
  intros H s Hs. specialize (H s Hs). unfold deref. now destruct (heap s !! p).
Qed.

End TripleRules.

(** A bind that returns went through both of its parts. *)
Lemma bind_inv {A B} (m : M A) (f : A -> M B) (s s' : PhysicsEngine) (b : B) :
  (m ≫= f) s = Return b s' -> exists a s1, m s = Return a s1 /\ f a s1 = Return b s'.
Proof.
  unfold mbind, M_bind. destruct (m s) as [a s1| |]; [eauto|discriminate..].
Qed.

Lemma triple_deref_known {A B} (F : Prop) (P : PhysicsEngine -> Prop)
    (heap : PhysicsEngine -> gmap ptr A) (p : ptr) (a : A) (k : A -> M B)
    (Q : B -> PhysicsEngine -> Prop) (E : PhysicsEngine -> Prop) :
  (forall s, P s -> heap s !! p = Some a) ->
  triple F P (k a) Q E ->
  triple F P (deref heap p ≫= k) Q E.
Proof.
  intros Hp Hk s Hs. unfold mbind, M_bind, deref. rewrite (Hp s Hs). now apply Hk.
Qed.

Lemma triple_pure {A} (F : Prop) (phi : Prop) (P : PhysicsEngine -> Prop) (m : M A)
    (Q : A -> PhysicsEngine -> Prop) (E : PhysicsEngine -> Prop) :
  (phi -> triple F P m Q E) -> triple F (fun s => P s /\ phi) m Q E.
Proof. intros H s [Hs Hphi]. now apply H. Qed.

Lemma triple_modify (F : Prop) P (f : PhysicsEngine -> PhysicsEngine)
    (Q : unit -> PhysicsEngine -> Prop) E :
  (forall s, P s -> Q tt (f s)) -> triple F P (modify f) Q E.
Proof. intros H s Hs. now apply H. Qed.

Lemma triple_when (F : Prop) P (c : bool) (m : M unit) (Q : unit -> PhysicsEngine -> Prop) E :
  (c = true -> triple F P m Q E) -> (c = false -> forall s, P s -> Q tt s) ->
  triple F P (when c m) Q E.
Proof.
  intros Hm Hs. destruct c; cbn.
  - now apply Hm.
  - intros s HP. now apply Hs.
Qed.

Lemma triple_assert {env : Environment} (F : Prop) P (c : bool)
    (Q : unit -> PhysicsEngine -> Prop) E :
  (forall s, P s -> if NDEBUG || c then Q tt s else E s) ->
  triple F P (assert c) Q E.
Proof.
  intros H s Hs. specialize (H s Hs). unfold assert. now destruct (NDEBUG || c).
Qed.

(** ** Bullet setters and the links of a body *)

Lemma keepsLinks_compose f g : keepsLinks f -> keepsLinks g -> keepsLinks (fun b => f (g b)).
Proof.
  intros Hf Hg b. destruct (Hf (g b)) as [-> ->]. apply Hg.
Qed.

Ltac links :=
  intros [];
  cbv [activate setActivationState forceActivationState setMassProps updateInertiaTensor
       setCollisionFlags setWorldTransform setLinearVelocity setAngularVelocity setGravity
       setRestitution setFriction setFlags isStaticOrKinematicObject
       m_collisionShape m_optionalMotionState m_collisionFlags m_activationState1];
  repeat match goal with |- context [if ?c then _ else _] => destruct c end;
  split; reflexivity.

Lemma keepsLinks_id : keepsLinks (fun b => b).
Proof. now intros b. Qed.
Lemma keepsLinks_setCollisionFlags f : keepsLinks (setCollisionFlags f).
Proof. links. Qed.
Lemma keepsLinks_setCollisionFlags_fun (g : btRigidBody -> Z) :
  keepsLinks (fun b => setCollisionFlags (g b) b).
Proof. now intros []. Qed.
Lemma keepsLinks_forceActivationState st : keepsLinks (forceActivationState st).
Proof. links. Qed.
Lemma keepsLinks_setActivationState st : keepsLinks (setActivationState st).
Proof. links. Qed.
Lemma keepsLinks_activate force : keepsLinks (activate force).
Proof. destruct force; links. Qed.
Lemma keepsLinks_setMassProps mass inertia : keepsLinks (setMassProps mass inertia).
Proof. links. Qed.
Lemma keepsLinks_updateInertiaTensor : keepsLinks updateInertiaTensor.
Proof. links. Qed.
Lemma keepsLinks_setWorldTransform t : keepsLinks (setWorldTransform t).
Proof. links. Qed.
Lemma keepsLinks_setLinearVelocity v : keepsLinks (setLinearVelocity v).
Proof. links. Qed.
Lemma keepsLinks_setAngularVelocity v : keepsLinks (setAngularVelocity v).
Proof. links. Qed.
Lemma keepsLinks_setGravity g : keepsLinks (setGravity g).
Proof. links. Qed.
Lemma keepsLinks_setRestitution r : keepsLinks (setRestitution r).
Proof. links. Qed.
Lemma keepsLinks_setFriction r : keepsLinks (setFriction r).
Proof. links. Qed.
Lemma keepsLinks_setFlags r : keepsLinks (setFlags r).
Proof. links. Qed.

Create HintDb links discriminated.
#[export] Hint Resolve keepsLinks_id keepsLinks_setCollisionFlags keepsLinks_setCollisionFlags_fun
  keepsLinks_forceActivationState keepsLinks_setActivationState keepsLinks_activate
  keepsLinks_setMassProps keepsLinks_updateInertiaTensor keepsLinks_setWorldTransform
  keepsLinks_setLinearVelocity keepsLinks_setAngularVelocity keepsLinks_setGravity
  keepsLinks_setRestitution keepsLinks_setFriction keepsLinks_setFlags : links.
#[export] Hint Extern 5 (keepsLinks (fun b => _ (_ b))) =>
  simple apply keepsLinks_compose : links.

(** ** Easy updates *)

(** [activate] only ever touches the activation state. *)
Lemma activate_keeps (force : bool) (b : btRigidBody) :
  m_collisionFlags (activate force b) = m_collisionFlags b
  /\ m_worldTransform (activate force b) = m_worldTransform b
  /\ m_linearVelocity (activate force b) = m_linearVelocity b
  /\ m_angularVelocity (activate force b) = m_angularVelocity b
  /\ m_gravity_acceleration (activate force b) = m_gravity_acceleration b
  /\ m_inverseMass (activate force b) = m_inverseMass b
  /\ m_rigidbodyFlags (activate force b) = m_rigidbodyFlags b.
Proof.
  unfold activate, setActivationState.
  destruct (force || _); [destruct (_ && _)|]; now destruct b.
Qed.

Section EasyUpdate.

Context {env : Environment}.

(** C7.  With the flag taxonomy of the interface ([Velocity] is an easy
    bit, not a hard one, and distinct from [Position] and [Mass]), an
    [updateEntity] of a registered proxy with only [Velocity] set returns
    [true], leaves the body's collision flags and its world transform
    (position included) unchanged, and sets the body's linear and angular
    velocity and its gravity to those of the proxy. *)
Theorem updateEntity_velocity_only
    (s : PhysicsEngine) (p b : ptr) (ms : CustomMotionState) (body : btRigidBody) :
  has PHYSICS_UPDATE_VELOCITY PHYSICS_UPDATE_HARD = false ->
  has PHYSICS_UPDATE_VELOCITY PHYSICS_UPDATE_EASY = true ->
  has PHYSICS_UPDATE_VELOCITY PHYSICS_UPDATE_POSITION = false ->
  has PHYSICS_UPDATE_VELOCITY PHYSICS_UPDATE_MASS = false ->
  motionStates s !! p = Some ms ->
  _body ms = Some b ->
  rigidBodies s !! b = Some body ->
  exists s' body',
    updateEntity p PHYSICS_UPDATE_VELOCITY s = Return true s'
    /\ rigidBodies s' !! b = Some body'
    /\ m_collisionFlags body' = m_collisionFlags body
    /\ m_worldTransform body' = m_worldTransform body
    /\ m_origin (m_worldTransform body') = m_origin (m_worldTransform body)
    /\ m_linearVelocity body' = entityVelocity ms
    /\ m_angularVelocity body' = entityAngularVelocity ms
    /\ m_gravity_acceleration body' = entityGravity ms.
Proof.
  intros Hhard Heasy Hpos Hmass Hms Hb Hbody.
  assert (Hvel : has PHYSICS_UPDATE_VELOCITY PHYSICS_UPDATE_VELOCITY = true).
  { unfold has in *. rewrite Z.land_diag.
    destruct (PHYSICS_UPDATE_VELOCITY =? 0) eqn:E; [|reflexivity].
    apply Z.eqb_eq in E. rewrite E, Z.land_0_l in Heasy. discriminate. }
  destruct s as [dw sm vox off clk shp cobj rb mst nxt].
  exec_in Hms. exec_in Hbody.
  unfold updateEntity, updateEntityEasy, applyVelocities, applyGravity.
  rewrite Hhard, Heasy, Hpos, Hmass, Hvel. exec.
  rewrite Hms, Hb. exec. rewrite Hms. exec. rewrite Hms, Hb. exec. rewrite Hbody.
  exec. rewrite Hms, Hb. rewrite !lookup_insert_eq.
  eexists _, _. split; [reflexivity|]. exec. rewrite lookup_insert_eq.
  split; [reflexivity|].
  destruct (activate_keeps false
    (setFriction (_friction ms) (setRestitution (_restitution ms)
       (setGravity (entityGravity ms) (setAngularVelocity (entityAngularVelocity ms)
          (setLinearVelocity (entityVelocity ms) body))))))
    as (-> & -> & -> & -> & -> & _).
  now destruct body.
Qed.

End EasyUpdate.

(** ** Voxels *)

Section VoxelProperties.

Context {env : Environment}.

(** What a successful [addVoxel] needs and does. *)
Lemma addVoxel_true_inv (s s1 : PhysicsEngine) (position : vec3) (scale : float) :
  addVoxel position scale s = Return true s1 ->
  _voxels s !! voxelKey position scale = None
  /\ is_Some (_dynamicsWorld s1)
  /\ (exists object,
        _voxels s1 !! voxelKey position scale
        = Some (MkVoxelObject (vec3_add position (vec3_splat (F32.mul F32.half scale)))
                  (Some object)))
  /\ (exists sh,
        _shapeManager s1 !! ShapeKey (voxelInfo scale)
        = Some (MkShapeReference (refCount s (ShapeKey (voxelInfo scale)) + 1) sh)).
Proof.
  destruct s as [dw sm vox off clk shp cobj rb mst nxt].
  unfold addVoxel, getShape, refCount, voxelKey, voxelInfo. exec.
  destruct (vox !! _) eqn:Hv; [discriminate|].
  destruct (sm !! _) eqn:Hs.
  - destruct dw; [|discriminate]. intros [= <-]. exec.
    rewrite !lookup_insert_eq. eauto 10.
  - destruct (createShape _); [|discriminate].
    destruct dw; [|discriminate]. intros [= <-]. exec.
    rewrite !lookup_insert_eq. eauto 10.
Qed.

(** What [removeVoxel] does to a recorded voxel whose box is cached. *)
Lemma removeVoxel_recorded (s1 : PhysicsEngine) (position : vec3) (scale : float)
    (center : vec3) (object sh : ptr) (c : Z) :
  is_Some (_dynamicsWorld s1) ->
  _voxels s1 !! voxelKey position scale = Some (MkVoxelObject center (Some object)) ->
  _shapeManager s1 !! ShapeKey (voxelInfo scale) = Some (MkShapeReference (c + 1) sh) ->
  exists s2,
    removeVoxel position scale s1 = Return true s2
    /\ refCount s2 (ShapeKey (voxelInfo scale)) = c
    /\ _voxels s2 !! voxelKey position scale = None.
Proof.
  intros [w Hw] Hvox Hsm.
  destruct s1 as [dw sm vox off clk shp cobj rb mst nxt].
  unfold voxelKey, voxelInfo in *. exec_in Hw. exec_in Hvox. exec_in Hsm. subst dw.
  unfold removeVoxel, releaseShape, refCount. exec.
  rewrite Hvox. cbn [_object is_Some]. rewrite bool_decide_eq_true_2 by eauto.
  rewrite orb_true_r. rewrite Hsm. cbn [_refCount _shape].
  destruct (c + 1 - 1 =? 0) eqn:Hc; rewrite orb_true_r; eexists; (split; [reflexivity|]); exec.
  - rewrite !lookup_delete_eq. split; [lia|reflexivity].
  - rewrite lookup_insert_eq, lookup_delete_eq. cbn. split; [lia|reflexivity].
Qed.

(** C5.  Whenever [addVoxel] succeeds for a (position, scale) pair, the
    following [removeVoxel] with the same pair succeeds as well and leaves
    the Shape Cache's reference count of the box descriptor equal to its
    value before the two calls. *)
Theorem addVoxel_removeVoxel_refCount
    (s s1 : PhysicsEngine) (position : vec3) (scale : float) :
  addVoxel position scale s = Return true s1 ->
  exists s2,
    removeVoxel position scale s1 = Return true s2
    /\ refCount s2 (ShapeKey (voxelInfo scale)) = refCount s (ShapeKey (voxelInfo scale)).
Proof.
  intros Hadd.
  destruct (addVoxel_true_inv _ _ _ _ Hadd) as (_ & Hw & [object Hvox] & [sh Hsm]).
  destruct (removeVoxel_recorded _ _ _ _ _ _ _ Hw Hvox Hsm) as (s2 & Hrm & Hc & _).
  eauto.
Qed.

(** [addVoxel] succeeds on a free key when the box is accepted. *)
Lemma addVoxel_accepted (s : PhysicsEngine) (position : vec3) (scale : float) :
  is_Some (_dynamicsWorld s) ->
  accepted s (voxelInfo scale) ->
  _voxels s !! voxelKey position scale = None ->
  exists s1, addVoxel position scale s = Return true s1.
Proof.
  intros [w Hw] Hacc Hfree.
  destruct s as [dw sm vox off clk shp cobj rb mst nxt].
  unfold accepted, voxelKey, voxelInfo in *.
  exec_in Hw. exec_in Hacc. exec_in Hfree. subst dw.
  unfold addVoxel, getShape. exec. rewrite Hfree.
  destruct (sm !! _) eqn:Hs; [eauto|].
  destruct Hacc as [[? [=]]|[shape ->]]. eauto.
Qed.

(** C6.  In an initialised engine, for a (position, scale) pair whose box
    the Shape Cache accepts and whose canonical centre holds no voxel yet:
    [addVoxel] twice returns [true] then [false], the second call leaving
    the state untouched; [removeVoxel] twice then returns [true] then
    [false], the second call again leaving the state untouched. *)
Theorem addVoxel_twice_removeVoxel_twice
    (s : PhysicsEngine) (position : vec3) (scale : float) :
  is_Some (_dynamicsWorld s) ->
  accepted s (voxelInfo scale) ->
  _voxels s !! voxelKey position scale = None ->
  exists s1 s2,
    addVoxel position scale s = Return true s1
    /\ addVoxel position scale s1 = Return false s1
    /\ removeVoxel position scale s1 = Return true s2
    /\ removeVoxel position scale s2 = Return false s2.
Proof.
  intros Hw Hacc Hfree.
  destruct (addVoxel_accepted _ _ _ Hw Hacc Hfree) as [s1 Hadd].
  destruct (addVoxel_true_inv _ _ _ _ Hadd) as (_ & Hw1 & [object Hvox] & [sh Hsm]).
  destruct (removeVoxel_recorded _ _ _ _ _ _ _ Hw1 Hvox Hsm) as (s2 & Hrm & _ & Hgone).
  exists s1, s2. repeat split; try assumption.
  - destruct s1 as [dw sm vox off clk shp cobj rb mst nxt].
    unfold addVoxel, voxelKey in *. exec. exec_in Hvox.
    now rewrite Hvox.
  - destruct s2 as [dw sm vox off clk shp cobj rb mst nxt].
    unfold removeVoxel, voxelKey in *. exec. exec_in Hgone.
    now rewrite Hgone.
Qed.

End VoxelProperties.

(** ** Insertion into the simulator *)

(** What [addRigidBody] does to the body and to the world. *)
Lemma addRigidBody_spec (p : ptr) (b b' : btRigidBody) (w w' : btDiscreteDynamicsWorld) :
  addRigidBody p b w = (b', w') ->
  m_optionalMotionState b' = m_optionalMotionState b
  /\ m_collisionShape b' = m_collisionShape b
  /\ m_collisionFlags b' = m_collisionFlags b
  /\ m_rigidbodyFlags b' = m_rigidbodyFlags b
  /\ m_inverseMass b' = m_inverseMass b
  /\ m_collisionObjects w'
     = (if m_collisionShape b is Some _ then m_collisionObjects w ++ [p] else m_collisionObjects w)
  /\ (has (m_rigidbodyFlags b) BT_DISABLE_WORLD_GRAVITY = true ->
      m_gravity_acceleration b' = m_gravity_acceleration b)
  /\ (isStaticObject b = false -> m_activationState1 b' = m_activationState1 b).
Proof.
  unfold addRigidBody, has. destruct b as [cf act sh tr im ii lv av g re fr rf mo].
  cbn [m_rigidbodyFlags].
  destruct (Z.land rf BT_DISABLE_WORLD_GRAVITY =? 0) eqn:Hg;
    [rewrite ?andb_true_r|rewrite ?andb_false_r].
  - destruct (negb _); cbn [setGravity m_collisionShape]; destruct sh;
      try destruct (isStaticObject _) eqn:Hst; intros [= <- <-]; repeat split; try easy.
      all: unfold setActivationState; destruct (_ && _); reflexivity.
  - cbn [m_collisionShape]. destruct sh.
    + destruct (isStaticObject _) eqn:Hst; intros [= <- <-]; repeat split; try easy.
      all: unfold setActivationState; destruct (_ && _); reflexivity.
    + intros [= <- <-]; repeat split; easy.
Qed.

(** What the rigid body constructor produces. *)
Lemma newRigidBody_links mass p tr sh inertia :
  m_optionalMotionState (newRigidBody mass p tr sh inertia) = p
  /\ m_collisionShape (newRigidBody mass p tr sh inertia) = Some sh
  /\ m_rigidbodyFlags (newRigidBody mass p tr sh inertia) = 0
  /\ m_gravity_acceleration (newRigidBody mass p tr sh inertia) = vec3_zero.
Proof. repeat split. Qed.

(** ** [addEntity] *)

Section AddEntity.

Context {env : Environment}.

(** What a successful [addEntity] does: one new body, at a fresh
    address, appended to the simulator and stored on the proxy. *)
Lemma addEntity_true_effect (s s' : PhysicsEngine) (p : ptr) (ms : CustomMotionState) :
  motionStates s !! p = Some ms ->
  addEntity p s = Return true s' ->
  exists b body sh w,
    (nextAddress s <= b)%positive /\ (b < nextAddress s')%positive
    /\ rigidBodies s' = <[b := body]> (rigidBodies s)
    /\ motionStates s' = <[p := set_body (Some b) ms]> (motionStates s)
    /\ _dynamicsWorld s = Some w
    /\ worldObjects s' = m_collisionObjects w ++ [b]
    /\ m_optionalMotionState body = p
    /\ m_collisionShape body = Some sh
    /\ has (m_rigidbodyFlags body) BT_DISABLE_WORLD_GRAVITY = true
    /\ m_gravity_acceleration body
       = match getMotionType ms with
         | MOTION_TYPE_DYNAMIC => entityGravity ms
         | _ => vec3_zero
         end.
Proof.
  intros Hms. destruct s as [dw sm vox off clk shp cobj rb mst nxt]. exec_in Hms.
  unfold addEntity, getShape, applyVelocities, applyGravity. exec. rewrite Hms.
  destruct (sm !! _) as [ref|] eqn:Hs; [|destruct (createShape _) as [shape|]; [|discriminate]];
    (destruct (getMotionType ms) eqn:Ht; run;
     [ | try (destruct (shp !! _) as [shapeObject|]; [|discriminate]; run) | ];
     (destruct dw as [w|]; [|discriminate]);
     match goal with |- context [addRigidBody ?b ?body ?w] =>
       destruct (addRigidBody b body w) as [b' w'] eqn:Hadd;
       apply addRigidBody_spec in Hadd;
       destruct Hadd as (Hmo & Hsh & _ & Hrf & _ & Hw' & Hg & _)
     end;
     exec; intros [= <-]; exec;
     eexists _, b', _, w; unfold worldObjects; exec;
     rewrite insert_insert_eq, Hmo, Hsh, Hrf, Hw', (Hg eq_refl);
     repeat split; lia).
Qed.

(** A lookup that finds no shape leaves the cache as it was. *)
Lemma getShape_None (info : ShapeInfo) (s s' : PhysicsEngine) :
  getShape info s = Return None s' -> s' = s.
Proof.
  destruct s as [dw sm vox off clk shp cobj rb mst nxt].
  unfold getShape. exec.
  destruct (sm !! _); [discriminate|].
  destruct (createShape _); [discriminate|]. now intros [= <-].
Qed.

(** A failed [addEntity] changes nothing. *)
Lemma addEntity_false_effect (s s' : PhysicsEngine) (p : ptr) :
  addEntity p s = Return false s' -> s' = s.
Proof.
  unfold addEntity. intros H.
  apply bind_inv in H as (ms & s1 & Hms & H).
  apply bind_inv in H as (shape & s2 & Hshape & H).
  assert (s1 = s) as -> by (unfold deref in Hms; destruct (_ !! _); congruence).
  destruct shape.
  - repeat (apply bind_inv in H as (? & ? & _ & H)). discriminate H.
  - apply getShape_None in Hshape as ->. now injection H.
Qed.

End AddEntity.

Section AddEntityClaims.

Context {env : Environment}.

(** C10.  Whatever the motion type, the body created by a successful
    [addEntity] carries [BT_DISABLE_WORLD_GRAVITY] and is in the
    simulator, and the simulator's insertion did not give it the world's
    gravity: a dynamic body has the gravity the proxy applied, any other
    body has none. *)
Theorem addEntity_disables_world_gravity
    (s s' : PhysicsEngine) (p : ptr) (ms : CustomMotionState) :
  motionStates s !! p = Some ms ->
  addEntity p s = Return true s' ->
  exists b body,
    motionStates s' !! p = Some (set_body (Some b) ms)
    /\ rigidBodies s' !! b = Some body
    /\ has (m_rigidbodyFlags body) BT_DISABLE_WORLD_GRAVITY = true
    /\ b ∈ worldObjects s'
    /\ m_gravity_acceleration body
       = match getMotionType ms with
         | MOTION_TYPE_DYNAMIC => entityGravity ms
         | _ => vec3_zero
         end.
Proof.
  intros Hms Hadd.
  destruct (addEntity_true_effect _ _ _ _ Hms Hadd)
    as (b & body & sh & w & _ & _ & Hrb & Hmst & _ & Hw & _ & _ & Hflag & Hg).
  exists b, body. rewrite Hrb, Hmst, Hw, !lookup_insert_eq.
  repeat split; try assumption. set_solver.
Qed.

(** Bodies at other addresses are untouched by an insertion. *)
Lemma isBodyOf_insert_ne (s s' : PhysicsEngine) (p b x : ptr) (body : btRigidBody) :
  rigidBodies s' = <[b := body]> (rigidBodies s) -> x ≠ b ->
  isBodyOf s' p x = isBodyOf s p x.
Proof. intros Hrb Hne. unfold isBodyOf. now rewrite Hrb, lookup_insert_ne. Qed.

(** C1 (amended).  [addEntity] does not look at the back-reference: a
    successful call allocates one new body, appends it to the simulator's
    bodies of the proxy and makes it the back-reference.  For a proxy with
    no body in the simulator the result is a single body; keeping it single
    is left to the caller. *)
Theorem addEntity_inserts_one_more_body
    (s s' : PhysicsEngine) (p : ptr) (ms : CustomMotionState) :
  motionStates s !! p = Some ms ->
  (forall x, x ∈ worldObjects s -> (x < nextAddress s)%positive) ->
  addEntity p s = Return true s' ->
  exists b,
    (b ∉ worldObjects s)
    /\ bodiesOf s' p = bodiesOf s p ++ [b]
    /\ (bodiesOf s p = [] -> bodiesOf s' p = [b])
    /\ motionStates s' !! p = Some (set_body (Some b) ms).
Proof.
  intros Hms Hfresh Hadd.
  destruct (addEntity_true_effect _ _ _ _ Hms Hadd)
    as (b & body & sh & w & Hle & _ & Hrb & Hmst & Hdw & Hw & Hmo & _).
  assert (Hobjs : worldObjects s = m_collisionObjects w)
    by (unfold worldObjects; now rewrite Hdw).
  assert (Hnew : b ∉ worldObjects s).
  { intros Hin. apply Hfresh in Hin. lia. }
  assert (Hbodies : bodiesOf s' p = bodiesOf s p ++ [b]).
  { unfold bodiesOf. rewrite Hw, <- Hobjs, List.filter_app. f_equal.
    - apply List.filter_ext_in. intros x Hx.
      apply (isBodyOf_insert_ne _ _ _ _ _ _ Hrb).
      intros ->. apply Hnew. now apply list_elem_of_In.
    - cbn. unfold isBodyOf. rewrite Hrb, lookup_insert_eq.
      now rewrite bool_decide_eq_true_2. }
  exists b. split; [assumption|]. split; [assumption|]. split.
  - intros Hnone. now rewrite Hbodies, Hnone.
  - now rewrite Hmst, lookup_insert_eq.
Qed.

End AddEntityClaims.

(** ** Removal from a Bullet array *)

Lemma last_cons_default (l : list ptr) (y d : ptr) :
  List.last (y :: l) d = List.last l y.
Proof.
  revert y d. induction l as [|z l IH]; intros y d; [reflexivity|].
  change (List.last (y :: z :: l) d) with (List.last (z :: l) d).
  rewrite IH. symmetry. apply IH.
Qed.

Lemma array_remove_notin (key : ptr) (l : list ptr) :
  key ∉ l -> array_remove key l = l.
Proof.
  induction l as [|x l IH]; [reflexivity|]. intros Hn. cbn.
  destruct (decide (x = key)) as [->|Hne]; [exfalso; apply Hn; left|].
  f_equal. apply IH. intros Hin. apply Hn. now right.
Qed.

Lemma array_remove_perm (key : ptr) (l : list ptr) :
  key ∈ l -> l ≡ₚ key :: array_remove key l.
Proof.
  induction l as [|x l IH]; [now intros Hin%elem_of_nil|]. intros Hin. cbn.
  destruct (decide (x = key)) as [->|Hne].
  - constructor. destruct l as [|y l']; [reflexivity|].
    rewrite <- (last_cons_default l' y y).
    rewrite (List.app_removelast_last y (l := y :: l')) at 1 by discriminate.
    symmetry. apply Permutation_cons_append.
  - apply elem_of_cons in Hin as [->|Hin]; [congruence|].
    rewrite (IH Hin) at 1. apply Permutation_swap.
Qed.

Lemma array_remove_NoDup (key : ptr) (l : list ptr) :
  NoDup l -> NoDup (array_remove key l).
Proof.
  intros Hnd. destruct (decide (key ∈ l)) as [Hin|Hn].
  - rewrite (array_remove_perm key l Hin) in Hnd. now apply NoDup_cons in Hnd.
  - now rewrite array_remove_notin.
Qed.

Lemma array_remove_elem (key x : ptr) (l : list ptr) :
  NoDup l -> x ∈ array_remove key l <-> x ∈ l /\ x ≠ key.
Proof.
  intros Hnd. destruct (decide (key ∈ l)) as [Hin|Hn].
  - pose proof (array_remove_perm key l Hin) as Hp.
    rewrite Hp in Hnd. apply NoDup_cons in Hnd as [Hk _].
    rewrite Hp at 2. rewrite elem_of_cons. split.
    + intros Hx. split; [now right|]. now intros ->.
    + now intros [[->|Hx] Hne].
  - rewrite array_remove_notin by assumption. split; [|now intros []].
    intros Hx. split; [assumption|]. now intros ->.
Qed.

(** Membership survives removal only for elements of the original. *)
Lemma array_remove_subseteq (key x : ptr) (l : list ptr) :
  x ∈ array_remove key l -> x ∈ l.
Proof.
  destruct (decide (key ∈ l)) as [Hin|Hn].
  - intros Hx. rewrite (array_remove_perm key l Hin). now right.
  - now rewrite array_remove_notin.
Qed.

(** ** [removeEntity] *)

Section RemoveEntity.

Context {env : Environment}.

(** What [removeEntity] does. *)
Lemma removeEntity_effect (s s' : PhysicsEngine) (p : ptr) (r : bool) :
  removeEntity p s = Return r s' ->
  exists ms,
    motionStates s !! p = Some ms
    /\ match _body ms with
       | None => r = false /\ s' = s
       | Some b =>
           r = true
           /\ exists w,
               _dynamicsWorld s = Some w
               /\ _dynamicsWorld s' = Some (removeRigidBody b w)
               /\ rigidBodies s' = delete b (rigidBodies s)
               /\ motionStates s' = <[p := set_body None ms]> (motionStates s)
               /\ nextAddress s' = nextAddress s
       end.
Proof.
  destruct s as [dw sm vox off clk shp cobj rb mst nxt].
  unfold removeEntity, releaseShape. exec.
  destruct (mst !! p) as [ms|] eqn:Hms; [|discriminate].
  intros H. exists ms. split; [reflexivity|]. revert H.
  destruct (_body ms) as [b|]; [|now intros [= <- <-]].
  destruct (rb !! b) as [body|]; [|discriminate].
  destruct (m_collisionShape body) as [sh|]; run;
    [destruct (shp !! sh) as [shape|]; [|discriminate]; run|];
    (destruct dw as [w|]; [|discriminate]); run;
    (destruct (sm !! _) as [ref|]; [destruct (_ =? 0)|]); run;
    intros [= <- <-]; exec; eauto 10.
Qed.

End RemoveEntity.

(** ** Updates under an invariant of the body

    A state predicate [G] that pins the proxy, survives link-preserving
    updates of the proxy's body and (unless faults are tolerated) keeps the
    body and its shape alive, is preserved by every step of an update that
    works on the body alone. *)

Section BodyInvariant.

Context {env : Environment}.
Variables (F : Prop) (G E : PhysicsEngine -> Prop).
Variables (p b : ptr) (ms : CustomMotionState).

Hypothesis G_ms : forall s, G s -> motionStates s !! p = Some ms.
Hypothesis ms_body : _body ms = Some b.
Hypothesis G_stable : stableBody G b.
Hypothesis G_live : forall s, G s ->
  F \/ exists body sh shape,
         rigidBodies s !! b = Some body
         /\ m_collisionShape body = Some sh
         /\ shapes s !! sh = Some shape.

Local Abbreviation inv m := (triple F G m (fun _ => G) E).

Lemma inv_ret {A} (a : A) : inv (mret a).
Proof. now apply triple_ret. Qed.

Lemma inv_bind {A B} (m : M A) (f : A -> M B) :
  inv m -> (forall a, inv (f a)) -> inv (m ≫= f).
Proof. intros Hm Hf. now apply (triple_bind F G m f (fun _ => G)). Qed.

Lemma inv_when (c : bool) (m : M unit) : inv m -> inv (when c m).
Proof. intros Hm. apply triple_when; auto. Qed.

Lemma inv_modifyBody (f : btRigidBody -> btRigidBody) :
  keepsLinks f -> inv (modifyBody b f).
Proof.
  intros Hf s Hs. unfold modifyBody. exec.
  destruct (G_live s Hs) as [HF|(body & sh & shape & Hb & _)].
  - destruct (_ !! b) as [body|] eqn:Hb; [|assumption].
    now apply (G_stable s body); [..|apply Hf|apply Hf].
  - exec_in Hb. rewrite Hb. now apply (G_stable s body); [..|apply Hf|apply Hf].
Qed.

Lemma inv_deref_ms {B} (k : CustomMotionState -> M B) :
  inv (k ms) -> inv (deref motionStates p ≫= k).
Proof.
  intros Hk s Hs. unfold mbind, M_bind, deref. rewrite (G_ms s Hs). now apply Hk.
Qed.

Lemma inv_applyVelocities : inv (applyVelocities p).
Proof.
  unfold applyVelocities. apply inv_deref_ms. rewrite ms_body.
  apply inv_modifyBody. auto with links.
Qed.

Lemma inv_applyGravity : inv (applyGravity p).
Proof.
  unfold applyGravity. apply inv_deref_ms. rewrite ms_body.
  apply inv_modifyBody. auto with links.
Qed.

Lemma inv_bodyLocalInertia {B} (mass : float) (k : vec3 -> M B) :
  (forall inertia, inv (k inertia)) -> inv (bodyLocalInertia b mass ≫= k).
Proof.
  intros Hk s Hs. unfold bodyLocalInertia. exec.
  destruct (G_live s Hs) as [HF|(body & sh & shape & Hb & Hsh & Hshape)].
  - destruct (_ !! b) as [body|]; [|assumption].
    destruct (m_collisionShape body) as [sh|]; [|assumption].
    destruct (_ !! sh) as [shape|]; [|assumption]. now apply Hk.
  - exec_in Hb. exec_in Hshape. rewrite Hb, Hsh, Hshape. now apply Hk.
Qed.

Lemma inv_updateEntityEasy (flags : Z) : inv (updateEntityEasy b p flags).
Proof.
  unfold updateEntityEasy. apply inv_deref_ms.
  repeat first
    [ apply inv_bind; [|intros _]
    | apply inv_when
    | apply inv_bodyLocalInertia; intros ?
    | apply inv_applyVelocities
    | apply inv_applyGravity
    | apply inv_modifyBody; auto with links ].
Qed.

End BodyInvariant.

(** ** The simulator calls of an update *)

Lemma triple_world_removeRigidBody (F : Prop) (P : PhysicsEngine -> Prop)
    (Q : unit -> PhysicsEngine -> Prop) (E : PhysicsEngine -> Prop) (b : ptr) :
  (forall s w, P s -> _dynamicsWorld s = Some w ->
     Q tt (set_dynamicsWorld (Some (removeRigidBody b w)) s)) ->
  (forall s, P s -> F \/ is_Some (_dynamicsWorld s)) ->
  triple F P (world_removeRigidBody b) Q E.
Proof.
  intros HQ Hlive s Hs. unfold world_removeRigidBody. exec.
  destruct (Hlive s Hs) as [HF|[w Hw]].
  - destruct s as [[w|] sm vox off clk shp cobj rb mst nxt]; [|assumption].
    now apply (HQ _ w Hs).
  - specialize (HQ s w Hs Hw). destruct s. exec_in Hw. subst. exact HQ.
Qed.

Lemma triple_world_addRigidBody (F : Prop) (P : PhysicsEngine -> Prop)
    (Q : unit -> PhysicsEngine -> Prop) (E : PhysicsEngine -> Prop) (b : ptr) :
  (forall s body w b' w', P s -> rigidBodies s !! b = Some body ->
     _dynamicsWorld s = Some w -> addRigidBody b body w = (b', w') ->
     Q tt (set_dynamicsWorld (Some w') (set_rigidBodies (<[b := b']> (rigidBodies s)) s))) ->
  (forall s, P s -> F \/ (is_Some (rigidBodies s !! b) /\ is_Some (_dynamicsWorld s))) ->
  triple F P (world_addRigidBody b) Q E.
Proof.
  intros HQ Hlive s Hs. unfold world_addRigidBody. exec.
  specialize (HQ s). specialize (Hlive s Hs).
  destruct s as [dw sm vox off clk shp cobj rb mst nxt]. exec_in HQ. exec_in Hlive.
  destruct (rb !! b) as [body|] eqn:Hb; [|destruct Hlive as [HF|[[? [=]] _]]; assumption].
  destruct dw as [w|]; [|destruct Hlive as [HF|[_ [? [=]]]]; assumption].
  destruct (addRigidBody b body w) as [b' w'] eqn:Hadd. exec.
  now apply (HQ body w b' w').
Qed.

(** ** The back-reference invariant *)

Lemma isBodyOf_true (s : PhysicsEngine) (p b : ptr) :
  isBodyOf s p b = true <->
  exists body, rigidBodies s !! b = Some body /\ m_optionalMotionState body = p.
Proof.
  unfold isBodyOf. destruct (rigidBodies s !! b) as [body|].
  - rewrite bool_decide_eq_true. split; [eauto|]. now intros (? & [= <-] & ?).
  - split; [discriminate|]. now intros (? & [=] & _).
Qed.

(** In a consistent state the back-reference is non-NULL exactly for the
    registered proxies. *)
Lemma consistent_backref (s : PhysicsEngine) :
  consistent s -> backref_iff_registered s.
Proof.
  intros (_ & _ & _ & _ & Hreg) p ms Hms. split.
  - intros [b Hb]. exists b. now apply (Hreg p ms b Hms).
  - intros [b Hb]. exists b. now apply (Hreg p ms b Hms).
Qed.

Section Lifecycle.

Context {env : Environment}.

(** [addEntity] on a proxy that has no body yet keeps the state
    consistent. *)
Lemma addEntity_consistent (s s' : PhysicsEngine) (p : ptr) (ms : CustomMotionState)
    (r : bool) :
  consistent s ->
  motionStates s !! p = Some ms ->
  _body ms = None ->
  addEntity p s = Return r s' ->
  consistent s'.
Proof.
  intros Hc Hms Hnull Hadd. destruct r; [|now rewrite (addEntity_false_effect _ _ _ Hadd)].
  destruct Hc as (_ & Hnd & Hfresh & Hshape & Hreg).
  destruct (addEntity_true_effect _ _ _ _ Hms Hadd)
    as (b & body & sh & w & Hle & Hlt & Hrb & Hmst & Hdw & Hw & Hmo & Hsh & _).
  assert (Hobjs : worldObjects s = m_collisionObjects w)
    by (unfold worldObjects; now rewrite Hdw).
  rewrite <- Hobjs in Hw.
  assert (Hnew : b ∉ worldObjects s) by (intros Hin%Hfresh; lia).
  assert (Hold : forall q x, x ∈ worldObjects s -> isBodyOf s' q x = isBodyOf s q x).
  { intros q x Hx. apply (isBodyOf_insert_ne _ _ _ _ _ _ Hrb). now intros ->. }
  assert (Hb : forall q, isBodyOf s' q b = bool_decide (p = q)).
  { intros q. unfold isBodyOf. rewrite Hrb, lookup_insert_eq, Hmo. reflexivity. }
  split; [|split; [|split; [|split]]].
  - destruct (_dynamicsWorld s') eqn:Hdw'; [eauto|]. exfalso.
    unfold worldObjects in Hw at 1. rewrite Hdw' in Hw.
    symmetry in Hw. now apply app_eq_nil in Hw as [_ [=]].
  - rewrite Hw. apply NoDup_app. repeat split; [assumption| |apply NoDup_singleton].
    intros x Hx ->%list_elem_of_singleton. contradiction.
  - intros x. rewrite Hw, elem_of_app, list_elem_of_singleton.
    intros [Hx%Hfresh| ->]; lia.
  - intros b' body'. rewrite Hw, Hrb, elem_of_app, list_elem_of_singleton.
    intros [Hx| ->].
    + rewrite lookup_insert_ne by (now intros ->). now apply Hshape.
    + rewrite lookup_insert_eq. intros [= <-]. rewrite Hsh. eauto.
  - intros q msq b' Hq. unfold registeredBody.
    rewrite Hw, elem_of_app, list_elem_of_singleton.
    rewrite Hmst in Hq. destruct (decide (p = q)) as [<-|Hne].
    + rewrite lookup_insert_eq in Hq. injection Hq as <-. cbn. split.
      * intros [= <-]. split; [now right|]. rewrite Hb. now apply bool_decide_eq_true.
      * intros [[Hin| ->] Hbody]; [|reflexivity].
        rewrite Hold in Hbody by assumption.
        assert (_body ms = Some b') by (apply (Hreg _ _ _ Hms); now split). congruence.
    + rewrite lookup_insert_ne in Hq by assumption. split.
      * intros [Hin Hbody]%(Hreg _ _ _ Hq). split; [now left|]. now rewrite Hold.
      * intros [[Hin| ->] Hbody].
        -- apply (Hreg _ _ _ Hq). split; [assumption|]. now rewrite <- Hold.
        -- rewrite Hb in Hbody. now apply bool_decide_eq_true in Hbody.
Qed.

(** [removeEntity] keeps the state consistent and clears the
    back-reference. *)
Lemma removeEntity_consistent (s s' : PhysicsEngine) (p : ptr) (r : bool) :
  consistent s ->
  removeEntity p s = Return r s' ->
  consistent s' /\ exists ms', motionStates s' !! p = Some ms' /\ _body ms' = None.
Proof.
  intros Hc Hrm. destruct (removeEntity_effect _ _ _ _ Hrm) as (ms & Hms & Heff).
  destruct (_body ms) as [b|] eqn:Hb; [|destruct Heff as [-> ->]; eauto].
  destruct Heff as (-> & w & Hdw & Hdw' & Hrb & Hmst & Hnext).
  split; [|exists (set_body None ms); now rewrite Hmst, lookup_insert_eq].
  destruct Hc as (_ & Hnd & Hfresh & Hshape & Hreg).
  assert (Hobjs : worldObjects s = m_collisionObjects w)
    by (unfold worldObjects; now rewrite Hdw).
  assert (Hw : worldObjects s' = array_remove b (worldObjects s))
    by (unfold worldObjects; now rewrite Hdw', Hdw).
  assert (Hin : forall x, x ∈ worldObjects s' <-> x ∈ worldObjects s /\ x ≠ b)
    by (intros x; rewrite Hw; now apply array_remove_elem).
  assert (Hold : forall q x, x ≠ b -> isBodyOf s' q x = isBodyOf s q x).
  { intros q x Hx. unfold isBodyOf. now rewrite Hrb, lookup_delete_ne. }
  assert (Hbp : isBodyOf s p b = true) by (now apply (Hreg _ _ _ Hms)).
  split; [|split; [|split; [|split]]].
  - rewrite Hdw'. eauto.
  - rewrite Hw. now apply array_remove_NoDup.
  - intros x [Hx _]%Hin. rewrite Hnext. now apply Hfresh.
  - intros b' body' [Hx Hne]%Hin. rewrite Hrb, lookup_delete_ne by congruence.
    now apply Hshape.
  - intros q msq b' Hq. unfold registeredBody. rewrite Hin.
    rewrite Hmst in Hq. destruct (decide (p = q)) as [<-|Hne].
    + rewrite lookup_insert_eq in Hq. injection Hq as <-. cbn. split; [discriminate|].
      intros [[Hx Hne] Hbody]. rewrite Hold in Hbody by assumption.
      assert (_body ms = Some b') by (apply (Hreg _ _ _ Hms); now split). congruence.
    + rewrite lookup_insert_ne in Hq by assumption. split.
      * intros [Hx Hbody]%(Hreg _ _ _ Hq).
        assert (b' ≠ b).
        { intros ->. apply isBodyOf_true in Hbody as (? & Hq1 & Hq2).
          apply isBodyOf_true in Hbp as (? & Hp1 & Hp2). congruence. }
        repeat split; try assumption. now rewrite Hold.
      * intros [[Hx Hne'] Hbody]. rewrite Hold in Hbody by assumption.
        apply (Hreg _ _ _ Hq). now split.
Qed.

End Lifecycle.

(** ** Updates keep the back-reference invariant *)

Section UpdateFrame.

Context {env : Environment}.
Variables (s0 : PhysicsEngine) (p b : ptr) (ms : CustomMotionState).
Hypothesis Hms : motionStates s0 !! p = Some ms.
Hypothesis Hb : _body ms = Some b.

Lemma updateFrame_ms out s : updateFrame s0 p b out s -> motionStates s !! p = Some ms.
Proof. intros [(-> & _) _]. exact Hms. Qed.

Lemma updateFrame_stable out : stableBody (updateFrame s0 p b out) b.
Proof.
  intros s body body' [(Hmst & Hnext & Hothers & body1 & Hb1 & Hmo & Hsh) Hw] Hbody Hs' Hm'.
  destruct s as [dw sm vox off clk shp cobj rb mst nxt].
  split; [|exact Hw]. unfold bodyFrame in *. simp_state.
  repeat split; try assumption.
  - intros x Hx. rewrite lookup_insert_ne by congruence. now apply Hothers.
  - exists body'. rewrite lookup_insert_eq, Hs', Hm'.
    rewrite Hb1 in Hbody. injection Hbody as <-. auto.
Qed.

Lemma updateFrame_live out s :
  updateFrame s0 p b out s ->
  True \/ exists body sh shape,
            rigidBodies s !! b = Some body
            /\ m_collisionShape body = Some sh
            /\ shapes s !! sh = Some shape.
Proof. now left. Qed.

(** The shape step of a hard update keeps the frame when the new
    descriptor is accepted. *)
Lemma shapeStep_frame (flags : Z) (oldShape : option ptr) :
  accepted s0 (computeShapeInfo ms) ->
  triple True
    (fun s => updateFrame s0 p b true s /\ _shapeManager s = _shapeManager s0)
    (newShape ← getShape (computeShapeInfo ms);
     (if bool_decide (newShape ≠ oldShape)
      then modifyBody b (setCollisionShape newShape);;
           releaseShapePtr oldShape
      else releaseShapePtr newShape);;
     assert (has flags PHYSICS_UPDATE_MASS))
    (fun _ => updateFrame s0 p b true)
    (fun _ => True).
Proof.
  intros Hacc s [[(Hmst & Hnext & Hothers & body1 & Hb1 & Hmo & Hsh) Hw] Hsm].
  unfold accepted in Hacc. rewrite <- Hsm in Hacc. clear Hsm.
  destruct s as [dw sm vox off clk shp cobj rb mst nxt].
  unfold updateFrame, bodyFrame, worldFrame in *. simp_state.
  remember (motionStates s0) as mst0 eqn:Emst. remember (nextAddress s0) as nxt0 eqn:Enxt.
  remember (rigidBodies s0) as rb0 eqn:Erb. clear Emst Enxt Erb.
  unfold getShape, releaseShapePtr, releaseShape.
  exec.
  destruct (sm !! _) as [ref|] eqn:Hs;
    [|destruct Hacc as [[? [=]]|[shape Hshape]]; rewrite Hshape]; run.
  all: destruct (bool_decide _); run.
  all: try (destruct oldShape as [old|]; run).
  all: crack; try exact I.
  all: (split; [|exact Hw]); (split; [assumption|]); (split; [lia|]); split;
    [ intros x Hx; rewrite ?lookup_insert_ne by congruence; now apply Hothers
    | first [ eexists; split; [reflexivity|]; split; [now destruct body1|cbn; eauto]
            | exists body1; auto ] ].
Qed.

Hypothesis Hregistered : registeredBody s0 p b.
Hypothesis Hnodup : NoDup (worldObjects s0).
Hypothesis Hshaped : forall body, rigidBodies s0 !! b = Some body ->
  is_Some (m_collisionShape body).

Lemma updateFrame_start : updateFrame s0 p b false s0.
Proof.
  destruct Hregistered as [Hin (body0 & Hbody0 & Hmo)%isBodyOf_true].
  split.
  - repeat split; try reflexivity. exists body0. auto.
  - unfold worldObjects in *. destruct (_dynamicsWorld s0) as [w0|] eqn:Hw0;
      [|now apply elem_of_nil in Hin].
    exists w0. split; [assumption|]. split; [assumption|].
    intros x. unfold worldObjects. rewrite Hw0. split; [intros Hx; split; [assumption|discriminate]|now intros []].
Qed.

(** Pulling the body out of the simulator. *)
Lemma removeRigidBody_frame (s : PhysicsEngine) (w : btDiscreteDynamicsWorld) :
  updateFrame s0 p b false s -> _dynamicsWorld s = Some w ->
  updateFrame s0 p b true (set_dynamicsWorld (Some (removeRigidBody b w)) s).
Proof.
  intros [Hbody (w1 & Hw1 & Hnd & Hin)] Hw. rewrite Hw in Hw1. injection Hw1 as <-.
  split; [destruct s; exact Hbody|].
  exists (removeRigidBody b w). destruct s; simp_state. split; [reflexivity|].
  cbn. split; [now apply array_remove_NoDup|].
  intros x. rewrite array_remove_elem, Hin by assumption. tauto.
Qed.

(** Putting it back. *)
Lemma addRigidBody_frame (s : PhysicsEngine) (body b' : btRigidBody)
    (w w' : btDiscreteDynamicsWorld) :
  updateFrame s0 p b true s -> rigidBodies s !! b = Some body ->
  _dynamicsWorld s = Some w -> addRigidBody b body w = (b', w') ->
  updateFrame s0 p b false
    (set_dynamicsWorld (Some w') (set_rigidBodies (<[b := b']> (rigidBodies s)) s)).
Proof.
  intros [(Hmst & Hnext & Hothers & body1 & Hb1 & Hmo & Hsh) (w1 & Hw1 & Hnd & Hin)] Hbody Hw Hadd.
  rewrite Hw in Hw1. injection Hw1 as <-. rewrite Hb1 in Hbody. injection Hbody as <-.
  apply addRigidBody_spec in Hadd as (Hmo' & Hsh' & _ & _ & _ & Hobjs & _).
  destruct Hsh as [sh Hsh]. rewrite Hsh in Hobjs.
  destruct s as [dw sm vox off clk shp cobj rb mst nxt]. simp_state. split.
  - unfold bodyFrame. simp_state. repeat split; try assumption.
    + intros x Hx. rewrite lookup_insert_ne by congruence. now apply Hothers.
    + exists b'. rewrite lookup_insert_eq, Hmo', Hsh', Hsh. eauto.
  - exists w'. simp_state. split; [reflexivity|]. rewrite Hobjs. split.
    + apply NoDup_app. repeat split; [assumption| |apply NoDup_singleton].
      intros x Hx ->%list_elem_of_singleton. apply Hin in Hx as [_ Hx]. now apply Hx.
    + intros x. rewrite elem_of_app, list_elem_of_singleton, Hin.
      destruct Hregistered as [Hbin _]. split.
      * intros [[Hx _]| ->]; auto.
      * intros [Hx _]. destruct (decide (x = b)); auto.
Qed.

(** An update of a registered proxy keeps the frame: whatever it
    returns, the proxy's body is in the simulator again, still linked to
    the proxy, and nothing else moved. *)
Lemma updateEntity_frame (flags : Z) :
  (has flags PHYSICS_UPDATE_SHAPE = true -> accepted s0 (computeShapeInfo ms)) ->
  triple True (fun s => s = s0) (updateEntity p flags)
    (fun _ => updateFrame s0 p b false) (fun _ => True).
Proof.
  intros Hacc.
  destruct Hregistered as [Hin (body0 & Hbody0 & Hmo)%isBodyOf_true].
  pose proof updateFrame_start as Hstart.
  unfold updateEntity.
  apply triple_deref_known with (a := ms); [now intros s ->|]. rewrite Hb.
  apply triple_bind with (R := fun _ => updateFrame s0 p b false);
    [|intros _; now apply triple_ret].
  destruct (has flags PHYSICS_UPDATE_HARD).
  - unfold updateEntityHard.
    apply triple_deref_known with (a := ms); [now intros s ->|].
    apply triple_deref_known with (a := body0); [now intros s ->|]. cbv zeta.
    apply triple_bind with
      (R := fun _ s => updateFrame s0 p b true s /\ _shapeManager s = _shapeManager s0).
    { apply triple_world_removeRigidBody; [|now left].
      intros s w -> Hw. split; [now apply removeRigidBody_frame|now destruct s0]. }
    intros _. apply triple_bind with (R := fun _ => updateFrame s0 p b true).
    { apply triple_when; [|now intros _ s []].
      intros Hshape. now apply shapeStep_frame, Hacc. }
    intros _.
    pose proof (updateFrame_ms true) as G_ms.
    pose proof (updateFrame_stable true) as G_stable.
    pose proof (updateFrame_live true) as G_live.
    apply triple_bind with (R := fun _ => updateFrame s0 p b true).
    { apply triple_when; [|auto]. intros _.
      now apply (inv_updateEntityEasy True _ _ p b ms). }
    intros _. apply triple_bind with (R := fun _ => updateFrame s0 p b true).
    { destruct (getMotionType ms);
        repeat first
          [ apply inv_bind; [|intros _]
          | apply inv_when
          | apply (inv_bodyLocalInertia True _ _ b); [assumption|intros ?]
          | apply (inv_modifyBody True _ _ b); [assumption|assumption|auto with links] ]. }
    intros _. apply triple_bind with (R := fun _ => updateFrame s0 p b false).
    { apply triple_world_addRigidBody; [|now left].
      intros s body w b' w'. apply addRigidBody_frame. }
    intros _. apply (inv_modifyBody True _ _ b);
      [apply updateFrame_stable|apply updateFrame_live|auto with links].
  - destruct (has flags PHYSICS_UPDATE_EASY).
    + apply triple_conseq with (P' := updateFrame s0 p b false)
        (Q' := fun _ => updateFrame s0 p b false); [|now intros s ->|auto].
      apply (inv_updateEntityEasy True _ _ p b ms);
        [apply updateFrame_ms|assumption|apply updateFrame_stable|apply updateFrame_live].
    + apply triple_ret. now intros s ->.
Qed.

End UpdateFrame.

(** ** The back-reference invariant over the entity operations *)

Section BackReference.

Context {env : Environment}.

(** An update moves nothing the invariant depends on. *)
Lemma updateEntity_consistent (s s' : PhysicsEngine) (p : ptr) (ms : CustomMotionState)
    (flags : Z) (r : bool) :
  consistent s ->
  motionStates s !! p = Some ms ->
  (has flags PHYSICS_UPDATE_SHAPE = true -> accepted s (computeShapeInfo ms)) ->
  updateEntity p flags s = Return r s' ->
  consistent s' /\ motionStates s' = motionStates s.
Proof.
  intros Hc Hms Hacc Hup.
  destruct (_body ms) as [b|] eqn:Hb.
  - pose proof Hc as (_ & Hnd & Hfresh & Hshape & Hreg).
    assert (Hrb : registeredBody s p b) by (now apply (Hreg p ms b Hms)).
    assert (Hshaped : forall body, rigidBodies s !! b = Some body ->
              is_Some (m_collisionShape body)).
    { intros body. apply Hshape. apply Hrb. }
    pose proof (updateEntity_frame s p b ms Hms Hb Hrb Hnd Hshaped flags Hacc s eq_refl) as Hf.
    rewrite Hup in Hf.
    destruct Hf as [(Hmst & Hnext & Hothers & body1 & Hb1 & Hmo & Hsh) (w1 & Hw1 & Hnd1 & Hin)].
    split; [|assumption].
    assert (Hobjs : forall x, x ∈ worldObjects s' <-> x ∈ worldObjects s).
    { intros x. unfold worldObjects at 1. rewrite Hw1, Hin. split; [now intros []|].
      intros Hx. split; [assumption|discriminate]. }
    assert (Hbodies : forall q x, isBodyOf s' q x = isBodyOf s q x).
    { intros q x. unfold isBodyOf. destruct (decide (x = b)) as [->|Hne].
      - destruct Hrb as [_ (body0 & Hb0 & Hmo0)%isBodyOf_true]. rewrite Hb0, Hb1, Hmo, Hmo0. reflexivity.
      - now rewrite Hothers. }
    split; [|split; [|split; [|split]]].
    + rewrite Hw1. eauto.
    + unfold worldObjects. now rewrite Hw1.
    + intros x Hx%Hobjs%Hfresh. lia.
    + intros b' body' Hx%Hobjs. destruct (decide (b' = b)) as [->|Hne].
      * rewrite Hb1. now intros [= <-].
      * rewrite Hothers by assumption. now apply Hshape.
    + intros q msq b'. rewrite Hmst. intros Hq. unfold registeredBody.
      rewrite Hobjs, Hbodies. now apply Hreg.
  - revert Hup. unfold updateEntity, mbind, M_bind, deref. rewrite Hms, Hb.
    intros [= <- <-]. auto.
Qed.

(** C2 (amended).  In every consistent state the back-reference of a
    proxy is non-NULL exactly when the proxy is registered, and
    consistency is kept by [addEntity] on a proxy whose back-reference is
    NULL (which then is non-NULL if the call succeeds), by [removeEntity]
    (after which it is NULL) and by [updateEntity] (which leaves the
    proxies alone), whenever these return. *)
Theorem backref_invariant (s : PhysicsEngine) :
  consistent s ->
  backref_iff_registered s
  /\ (forall p ms r s',
        motionStates s !! p = Some ms -> _body ms = None ->
        addEntity p s = Return r s' ->
        consistent s'
        /\ (r = true ->
            exists ms', motionStates s' !! p = Some ms' /\ is_Some (_body ms')))
  /\ (forall p r s',
        removeEntity p s = Return r s' ->
        consistent s'
        /\ exists ms', motionStates s' !! p = Some ms' /\ _body ms' = None)
  /\ (forall p ms flags r s',
        motionStates s !! p = Some ms ->
        (has flags PHYSICS_UPDATE_SHAPE = true -> accepted s (computeShapeInfo ms)) ->
        updateEntity p flags s = Return r s' ->
        consistent s' /\ motionStates s' = motionStates s).
Proof.
  intros Hc. split; [now apply consistent_backref|]. split; [|split].
  - intros p ms r s' Hms Hnull Hadd. split; [now apply (addEntity_consistent s s' p ms r)|].
    intros ->. destruct (addEntity_true_effect _ _ _ _ Hms Hadd)
      as (b & _ & _ & _ & _ & _ & _ & Hmst & _).
    exists (set_body (Some b) ms). rewrite Hmst, lookup_insert_eq. cbn. eauto.
  - intros p r s'. now apply removeEntity_consistent.
  - intros p ms flags r s'. now apply updateEntity_consistent.
Qed.

End BackReference.

(** The scene's engine starts out consistent. *)
Lemma engine0_consistent (t : MotionType) : consistent (Scene.engine0 t).
Proof.
  assert (Hw : worldObjects (Scene.engine0 t) = [2%positive]) by (vm_compute; reflexivity).
  assert (Hrb : rigidBodies (Scene.engine0 t) = ∅) by (vm_compute; reflexivity).
  assert (Hmst : motionStates (Scene.engine0 t) = {[ Scene.proxy := Scene.cube t ]})
    by (vm_compute; reflexivity).
  assert (Hnext : nextAddress (Scene.engine0 t) = 3%positive) by (vm_compute; reflexivity).
  split; [|split; [|split; [|split]]].
  - vm_compute. eauto.
  - rewrite Hw. apply NoDup_singleton.
  - rewrite Hw, Hnext. intros x ->%list_elem_of_singleton. reflexivity.
  - intros b body _. now rewrite Hrb, lookup_empty.
  - intros p ms b. unfold registeredBody, isBodyOf. rewrite Hrb, Hmst, lookup_empty.
    intros [<- <-]%lookup_singleton_Some. split; [discriminate|]. now intros [].
Qed.

(** ** Hard updates that find the shape unchanged *)

Section UnchangedShape.

Context {env : Environment}.
Variables (s0 : PhysicsEngine) (p b sh : ptr) (ms : CustomMotionState).
Variables (shape : btCollisionShape) (ref : ShapeReference).

Hypothesis Hb : _body ms = Some b.
Hypothesis Hcached : _shapeManager s0 !! ShapeKey (computeShapeInfo ms) = Some ref.
Hypothesis Hsame : _shape ref = sh.
Hypothesis Hheld : 0 < _refCount ref.
Hypothesis Hkey : ShapeKey (collectInfo shape) = ShapeKey (computeShapeInfo ms).

Local Abbreviation G := (cacheFrame s0 p b ms sh shape).

Lemma cacheFrame_ms s : G s -> motionStates s !! p = Some ms.
Proof. now intros []. Qed.

Lemma cacheFrame_stable : stableBody G b.
Proof.
  intros s body body' (Hms & (body1 & Hb1 & Hsh) & Hshape & Hw & Hsm) Hbody Hs' _.
  destruct s as [dw sm vox off clk shp cobj rb mst nxt]. unfold cacheFrame in *. simp_state.
  repeat split; try assumption.
  exists body'. rewrite lookup_insert_eq, Hs'.
  rewrite Hb1 in Hbody. injection Hbody as <-. auto.
Qed.

Lemma cacheFrame_live s :
  G s ->
  False \/ exists body sh shape,
             rigidBodies s !! b = Some body
             /\ m_collisionShape body = Some sh
             /\ shapes s !! sh = Some shape.
Proof. intros (_ & (body & Hbody & Hsh) & Hshape & _). right. eauto 10. Qed.

(** The acquire of the lookup and the release that follows cancel. *)
Lemma shapeStep_unchanged (flags : Z) :
  triple False G
    (newShape ← getShape (computeShapeInfo ms);
     (if bool_decide (newShape ≠ Some sh)
      then modifyBody b (setCollisionShape newShape);;
           releaseShapePtr (Some sh)
      else releaseShapePtr newShape);;
     assert (has flags PHYSICS_UPDATE_MASS))
    (fun _ => G) G.
Proof.
  intros s (Hms & Hbody & Hshape & Hw & Hsm).
  assert (Hlook : _shapeManager s !! ShapeKey (computeShapeInfo ms) = Some ref)
    by (now rewrite Hsm).
  assert (Hres : G (set_shapeManager (_shapeManager s0) s)).
  { destruct s; unfold cacheFrame; simp_state. auto. }
  destruct s as [dw sm vox off clk shp cobj rb mst nxt]. simp_state.
  unfold getShape, releaseShapePtr, releaseShape. exec.
  rewrite Hlook. exec. rewrite Hsame.
  rewrite bool_decide_eq_false_2 by (intros H; now apply H).
  run. rewrite Hkey. run. cbn [_refCount _shape].
  replace (_refCount ref + 1 - 1) with (_refCount ref) by lia.
  destruct (_refCount ref =? 0) eqn:Hz; [lia|]. run.
  replace (<[_ := _]> sm) with (_shapeManager s0);
    [destruct (NDEBUG || _); exact Hres|].
  subst sm. symmetry. apply insert_id. rewrite Hcached. f_equal. now destruct ref; subst.
Qed.

Lemma cacheFrame_world s w' : G s -> G (set_dynamicsWorld (Some w') s).
Proof.
  intros (Hms & Hbody & Hshape & Hw & Hsm). destruct s. unfold cacheFrame in *. simp_state.
  repeat split; eauto.
Qed.

(** The whole update keeps the Shape Cache. *)
Lemma updateEntity_unchanged_shape (flags : Z) :
  has flags PHYSICS_UPDATE_HARD = true ->
  has flags PHYSICS_UPDATE_SHAPE = true ->
  triple False G (updateEntity p flags) (fun r s => r = true /\ G s) G.
Proof.
  intros Hhard Hshape.
  pose proof cacheFrame_ms as G_ms.
  pose proof cacheFrame_stable as G_stable.
  pose proof cacheFrame_live as G_live.
  unfold updateEntity.
  apply triple_deref_known with (a := ms); [assumption|]. rewrite Hb, Hhard.
  apply triple_bind with (R := fun _ => G); [|intros _; now apply triple_ret].
  unfold updateEntityHard.
  apply triple_deref_known with (a := ms); [assumption|].
  apply triple_bind with (R := fun body s => G s /\ m_collisionShape body = Some sh).
  { apply triple_deref. intros s Hs. pose proof Hs as (_ & (body & -> & Hsh) & _). auto. }
  intros body. apply triple_pure. intros Hsh. rewrite Hsh. cbv zeta.
  apply triple_bind with (R := fun _ => G).
  { apply triple_world_removeRigidBody.
    - intros s w Hs _. now apply cacheFrame_world.
    - intros s (_ & _ & _ & Hw & _). now right. }
  intros _. rewrite Hshape. apply triple_bind with (R := fun _ => G).
  { apply shapeStep_unchanged. }
  intros _. apply triple_bind with (R := fun _ => G).
  { apply triple_when; [|auto]. intros _.
    now apply (inv_updateEntityEasy False _ _ p b ms). }
  intros _. apply triple_bind with (R := fun _ => G).
  { destruct (getMotionType ms);
      repeat first
        [ apply inv_bind; [|intros _]
        | apply inv_when
        | apply (inv_bodyLocalInertia False _ _ b); [assumption|intros ?]
        | apply (inv_modifyBody False _ _ b); [assumption|assumption|auto with links] ]. }
  intros _. apply triple_bind with (R := fun _ => G).
  { apply triple_world_addRigidBody.
    - intros s body1 w b' w' Hs Hbody1 Hw Hadd.
      apply addRigidBody_spec in Hadd as (Hmo & Hsh' & _).
      apply (cacheFrame_world (set_rigidBodies _ s)).
      now apply (cacheFrame_stable s body1).
    - intros s (_ & (body1 & Hb1 & _) & _ & Hw & _). right. split; [eauto|assumption]. }
  intros _. apply (inv_modifyBody False _ _ b); [assumption|assumption|auto with links].
Qed.

(** C4.  A hard update with [Shape] set, on a registered proxy whose newly
    computed descriptor resolves to the cached shape the body already
    holds (the body holding one of its references, and the live shape
    reconstructing to the same canonical key): whether the call returns or
    stops at its assertion, the Shape Cache is as before, so the reference
    count of the descriptor is unchanged; the call does not fault. *)
Theorem updateEntity_unchanged_shape_refCount (body : btRigidBody) (flags : Z) :
  motionStates s0 !! p = Some ms ->
  rigidBodies s0 !! b = Some body ->
  m_collisionShape body = Some sh ->
  shapes s0 !! sh = Some shape ->
  is_Some (_dynamicsWorld s0) ->
  has flags PHYSICS_UPDATE_HARD = true ->
  has flags PHYSICS_UPDATE_SHAPE = true ->
  exists s',
    (updateEntity p flags s0 = Return true s' \/ updateEntity p flags s0 = AssertionFailed s')
    /\ refCount s' (ShapeKey (computeShapeInfo ms)) = refCount s0 (ShapeKey (computeShapeInfo ms))
    /\ _shapeManager s' = _shapeManager s0.
Proof.
  intros Hms Hbody Hsh Hshape Hw Hhard Hflag.
  assert (Hstart : G s0) by (unfold cacheFrame; eauto 10).
  pose proof (updateEntity_unchanged_shape flags Hhard Hflag s0 Hstart) as Hrun.
  destruct (updateEntity p flags s0) as [r s'|s'|]; [| |contradiction].
  - destruct Hrun as (-> & _ & _ & _ & _ & Hsm). exists s'. unfold refCount.
    rewrite Hsm. auto.
  - destruct Hrun as (_ & _ & _ & _ & Hsm). exists s'. unfold refCount.
    rewrite Hsm. auto.
Qed.

End UnchangedShape.

(** ** Builds without assertions *)

Lemma neverAsserts_bind {A B} (m : M A) (f : A -> M B) :
  neverAsserts m -> (forall a, neverAsserts (f a)) -> neverAsserts (m ≫= f).
Proof.
  intros Hm Hf s s'. unfold mbind, M_bind.
  destruct (m s) as [a s1|s1|] eqn:E; [apply Hf|now apply Hm in E|discriminate].
Qed.

Lemma neverAsserts_ret {A} (a : A) : neverAsserts (mret a).
Proof. now intros s s'. Qed.
Lemma neverAsserts_gets {A} (f : PhysicsEngine -> A) : neverAsserts (gets f).
Proof. now intros s s'. Qed.
Lemma neverAsserts_modify f : neverAsserts (modify f).
Proof. now intros s s'. Qed.
Lemma neverAsserts_fault {A} : neverAsserts (@fault A).
Proof. now intros s s'. Qed.
Lemma neverAsserts_alloc : neverAsserts alloc.
Proof. now intros s s'. Qed.
Lemma neverAsserts_world : neverAsserts world.
Proof. intros s s'. unfold world. now destruct (_dynamicsWorld s). Qed.
Lemma neverAsserts_deref {A} (heap : PhysicsEngine -> gmap ptr A) p :
  neverAsserts (deref heap p).
Proof. intros s s'. unfold deref. now destruct (heap s !! p). Qed.

Lemma neverAsserts_when (c : bool) (m : M unit) : neverAsserts m -> neverAsserts (when c m).
Proof. intros Hm. destruct c; [assumption|apply neverAsserts_ret]. Qed.

Ltac quiet :=
  repeat first
    [ solve [auto]
    | apply neverAsserts_bind; [|intros ?]
    | apply neverAsserts_ret | apply neverAsserts_gets | apply neverAsserts_modify
    | apply neverAsserts_fault | apply neverAsserts_alloc | apply neverAsserts_world
    | apply neverAsserts_deref
    | apply neverAsserts_when
    | match goal with
      | |- neverAsserts (match ?x with _ => _ end) => destruct x
      | |- neverAsserts (if ?x then _ else _) => destruct x
      end ].


Section NoAssertions.

Context {env : Environment}.
Hypothesis HNDEBUG : NDEBUG = true.

Lemma neverAsserts_assert (c : bool) : neverAsserts (assert c).
Proof. intros s s'. unfold assert. now rewrite HNDEBUG. Qed.

Lemma neverAsserts_modifyBody p f : neverAsserts (modifyBody p f).
Proof. unfold modifyBody. quiet. Qed.

Lemma neverAsserts_getShape info : neverAsserts (getShape info).
Proof. unfold getShape. quiet. Qed.

Lemma neverAsserts_releaseShape info : neverAsserts (releaseShape info).
Proof. unfold releaseShape. quiet. Qed.

Lemma neverAsserts_releaseShapePtr shape : neverAsserts (releaseShapePtr shape).
Proof. unfold releaseShapePtr. pose proof neverAsserts_releaseShape. quiet. Qed.

Lemma neverAsserts_world_addRigidBody p : neverAsserts (world_addRigidBody p).
Proof.
  unfold world_addRigidBody. quiet.
Qed.

Lemma neverAsserts_world_removeRigidBody p : neverAsserts (world_removeRigidBody p).
Proof. unfold world_removeRigidBody, modifyWorld. quiet. Qed.

Lemma neverAsserts_applyVelocities p : neverAsserts (applyVelocities p).
Proof. unfold applyVelocities. pose proof neverAsserts_modifyBody. quiet. Qed.

Lemma neverAsserts_applyGravity p : neverAsserts (applyGravity p).
Proof. unfold applyGravity. pose proof neverAsserts_modifyBody. quiet. Qed.

Lemma neverAsserts_bodyLocalInertia b mass : neverAsserts (bodyLocalInertia b mass).
Proof. unfold bodyLocalInertia. quiet. Qed.

Lemma neverAsserts_updateEntityEasy b p flags : neverAsserts (updateEntityEasy b p flags).
Proof.
  unfold updateEntityEasy.
  pose proof neverAsserts_modifyBody. pose proof neverAsserts_applyVelocities.
  pose proof neverAsserts_applyGravity. pose proof neverAsserts_bodyLocalInertia.
  quiet.
Qed.

Lemma neverAsserts_updateEntityHard b p flags : neverAsserts (updateEntityHard b p flags).
Proof.
  unfold updateEntityHard.
  pose proof neverAsserts_modifyBody. pose proof neverAsserts_bodyLocalInertia.
  pose proof neverAsserts_updateEntityEasy. pose proof neverAsserts_getShape.
  pose proof neverAsserts_releaseShapePtr. pose proof neverAsserts_assert.
  pose proof neverAsserts_world_addRigidBody. pose proof neverAsserts_world_removeRigidBody.
  quiet.
Qed.

(** Without assertions nothing stops an update. *)
Lemma neverAsserts_updateEntity p flags : neverAsserts (updateEntity p flags).
Proof.
  unfold updateEntity.
  pose proof neverAsserts_updateEntityHard. pose proof neverAsserts_updateEntityEasy.
  quiet.
Qed.

End NoAssertions.

(** ** [Shape] without [Mass] *)

Section ShapeWithoutMass.

Context {env : Environment}.

Lemma hard_update_asserts_late
    (s : PhysicsEngine) (p b old : ptr) (ms : CustomMotionState) (body : btRigidBody)
    (w : btDiscreteDynamicsWorld) (oldShape : btCollisionShape) (flags : Z) :
  motionStates s !! p = Some ms ->
  _body ms = Some b ->
  rigidBodies s !! b = Some body ->
  _dynamicsWorld s = Some w ->
  m_collisionShape body = Some old ->
  shapes s !! old = Some oldShape ->
  accepted s (computeShapeInfo ms) ->
  has flags PHYSICS_UPDATE_HARD = true ->
  has flags PHYSICS_UPDATE_SHAPE = true ->
  has flags PHYSICS_UPDATE_MASS = false ->
  NDEBUG = false ->
  exists s' s1 newShape body',
    updateEntity p flags s = AssertionFailed s'
    /\ _dynamicsWorld s' = Some (removeRigidBody b w)
    /\ getShape (computeShapeInfo ms) s = Return (Some newShape) s1
    /\ rigidBodies s' !! b = Some body'
    /\ m_collisionShape body' = Some newShape.
Proof.
  intros Hms Hb Hbody Hw Hold Hlive Hacc Hhard Hshape Hmass HN.
  destruct s as [dw sm vox off clk shp cobj rb mst nxt]. unfold accepted in Hacc. simp_state.
  subst dw.
  unfold updateEntity, updateEntityHard, getShape, releaseShapePtr, releaseShape, assert.
  rewrite Hhard, Hshape, Hmass, HN. cbn [orb]. run.
  destruct (sm !! _) as [ref|] eqn:Hs;
    [|destruct Hacc as [[? [=]]|[shape Hcreate]]; rewrite Hcreate]; run.
  all: destruct (bool_decide _) eqn:Hdec; run.
  all: try (apply bool_decide_eq_true in Hdec;
            rewrite lookup_insert_ne by congruence; run).
  all: try (apply bool_decide_eq_false in Hdec; apply dec_stable in Hdec;
            injection Hdec as Hdec; try rewrite Hdec; run).
  all: crack.
  all: eexists _, _, _, _; (split; [reflexivity|]); exec; (split; [reflexivity|]);
       (split; [reflexivity|]); rewrite ?lookup_insert_eq, ?Hbody; eauto.
Qed.

(** C9 (amended).  An update of a registered proxy with [Shape] set and
    [Mass] clear takes the hard path.  With assertions enabled it stops at
    the assertion inside the hard update, and by then the body has been
    pulled out of the simulator and holds the shape acquired for the new
    descriptor: the violation is detected after the shape step, not
    before.  With assertions compiled out the call never stops at an
    assertion. *)
Theorem updateEntity_shape_without_mass
    (s : PhysicsEngine) (p b old : ptr) (ms : CustomMotionState) (body : btRigidBody)
    (w : btDiscreteDynamicsWorld) (oldShape : btCollisionShape) (flags : Z) :
  motionStates s !! p = Some ms ->
  _body ms = Some b ->
  rigidBodies s !! b = Some body ->
  _dynamicsWorld s = Some w ->
  m_collisionShape body = Some old ->
  shapes s !! old = Some oldShape ->
  accepted s (computeShapeInfo ms) ->
  has flags PHYSICS_UPDATE_HARD = true ->
  has flags PHYSICS_UPDATE_SHAPE = true ->
  has flags PHYSICS_UPDATE_MASS = false ->
  (NDEBUG = false ->
   exists s' s1 newShape body',
     updateEntity p flags s = AssertionFailed s'
     /\ _dynamicsWorld s' = Some (removeRigidBody b w)
     /\ getShape (computeShapeInfo ms) s = Return (Some newShape) s1
     /\ rigidBodies s' !! b = Some body'
     /\ m_collisionShape body' = Some newShape)
  /\ (NDEBUG = true -> forall s', updateEntity p flags s ≠ AssertionFailed s').
Proof.
  intros Hms Hb Hbody Hw Hold Hlive Hacc Hhard Hshape Hmass. split.
  - intros HN. now apply (hard_update_asserts_late s p b old ms body w oldShape flags).
  - intros HN s'. now apply neverAsserts_updateEntity.
Qed.

End ShapeWithoutMass.

(** ** Hard updates from static to dynamic *)

Lemma land_clear_static (f : Z) :
  Z.land (Z.land f (Z.lnot (Z.lor CF_KINEMATIC_OBJECT CF_STATIC_OBJECT))) CF_STATIC_OBJECT = 0
  /\ Z.land (Z.land f (Z.lnot (Z.lor CF_KINEMATIC_OBJECT CF_STATIC_OBJECT))) CF_KINEMATIC_OBJECT = 0.
Proof.
  rewrite <- !Z.land_assoc. change (Z.land (Z.lnot _) CF_STATIC_OBJECT) with 0.
  change (Z.land (Z.lnot _) CF_KINEMATIC_OBJECT) with 0. now rewrite Z.land_0_r.
Qed.

Lemma moving_clear (b : btRigidBody) :
  moving (setCollisionFlags
            (Z.land (m_collisionFlags b) (Z.lnot (Z.lor CF_KINEMATIC_OBJECT CF_STATIC_OBJECT))) b).
Proof.
  destruct (land_clear_static (m_collisionFlags b)) as [H1 H2].
  unfold moving, isStaticObject, isKinematicObject. cbn. now rewrite H1, H2.
Qed.

(** [activate] either leaves the activation state or makes it active;
    it never leaves [DISABLE_DEACTIVATION], never enters [DISABLE_SIMULATION]. *)
Lemma activate_state (force : bool) (b : btRigidBody) :
  m_activationState1 (activate force b) = m_activationState1 b
  \/ (m_activationState1 (activate force b) = ACTIVE_TAG
      /\ m_activationState1 b ≠ DISABLE_DEACTIVATION
      /\ m_activationState1 b ≠ DISABLE_SIMULATION).
Proof.
  unfold activate, setActivationState.
  destruct (force || _); [|now left].
  destruct (negb (_ =? DISABLE_DEACTIVATION)) eqn:H4; [|now left].
  destruct (negb (_ =? DISABLE_SIMULATION)) eqn:H5; [|now left].
  right. apply negb_true_iff, Z.eqb_neq in H4, H5. now destruct b.
Qed.

Lemma activate_forced (b : btRigidBody) :
  m_activationState1 b ≠ DISABLE_SIMULATION ->
  m_activationState1 (activate true b) = ACTIVE_TAG
  \/ m_activationState1 (activate true b) = DISABLE_DEACTIVATION.
Proof.
  intros H5. unfold activate, setActivationState. cbn [orb].
  destruct (m_activationState1 b =? DISABLE_DEACTIVATION) eqn:H4; cbn [negb andb].
  - right. now apply Z.eqb_eq in H4.
  - apply Z.eqb_neq in H5. rewrite H5. left. now destruct b.
Qed.

Lemma activate_not_disabled (force : bool) (b : btRigidBody) :
  m_activationState1 b ≠ DISABLE_SIMULATION ->
  m_activationState1 (activate force b) ≠ DISABLE_SIMULATION.
Proof.
  intros H. destruct (activate_state force b) as [->|[-> _]]; [assumption|discriminate].
Qed.

Lemma activate_inverseMass (force : bool) (b : btRigidBody) :
  m_inverseMass (activate force b) = m_inverseMass b.
Proof. now destruct (activate_keeps force b) as (_ & _ & _ & _ & _ & -> & _). Qed.

Lemma moving_activate (force : bool) (b : btRigidBody) : moving b -> moving (activate force b).
Proof.
  unfold moving, isStaticObject, isKinematicObject.
  now destruct (activate_keeps force b) as (-> & _).
Qed.

Lemma invOrZero_nonzero (mass : float) :
  F32.eqb mass F32.zero = false -> invOrZero mass = F32.div F32.one mass.
Proof. intros H. unfold invOrZero. now rewrite H. Qed.

(** The dynamic branch when the easy update has set the mass already. *)
Lemma dynamic_branch_mass_set (y : btRigidBody) (v : float) :
  m_activationState1 y ≠ DISABLE_SIMULATION ->
  m_inverseMass y = v ->
  let x := activate true
             (setCollisionFlags
                (Z.land (m_collisionFlags y)
                   (Z.lnot (Z.lor CF_KINEMATIC_OBJECT CF_STATIC_OBJECT))) y) in
  moving x /\ m_inverseMass x = v
  /\ (m_activationState1 x = ACTIVE_TAG \/ m_activationState1 x = DISABLE_DEACTIVATION).
Proof.
  intros Hact Hv x. subst x. split; [apply moving_activate, moving_clear|]. split.
  - destruct (activate_keeps true (setCollisionFlags
      (Z.land (m_collisionFlags y) (Z.lnot (Z.lor CF_KINEMATIC_OBJECT CF_STATIC_OBJECT))) y))
      as (_ & _ & _ & _ & _ & -> & _). now destruct y.
  - apply activate_forced. now destruct y.
Qed.

(** The dynamic branch when it sets the mass itself. *)
Lemma dynamic_branch_sets_mass (y : btRigidBody) (mass : float) (inertia : vec3) :
  m_activationState1 y ≠ DISABLE_SIMULATION ->
  F32.eqb mass F32.zero = false ->
  let x := activate true
             (updateInertiaTensor
                (setMassProps mass inertia
                   (setCollisionFlags
                      (Z.land (m_collisionFlags y)
                         (Z.lnot (Z.lor CF_KINEMATIC_OBJECT CF_STATIC_OBJECT))) y))) in
  moving x /\ m_inverseMass x = F32.div F32.one mass
  /\ (m_activationState1 x = ACTIVE_TAG \/ m_activationState1 x = DISABLE_DEACTIVATION).
Proof.
  intros Hact Hmass x. subst x.
  set (z := setCollisionFlags _ y).
  assert (Hz : moving z) by apply moving_clear.
  assert (Hm : moving (updateInertiaTensor (setMassProps mass inertia z))).
  { destruct Hz as [Hs Hk]. unfold moving, isStaticObject, isKinematicObject in *.
    cbn [updateInertiaTensor setMassProps m_collisionFlags]. rewrite Hmass.
    apply negb_false_iff, Z.eqb_eq in Hs, Hk. split.
    - rewrite <- Z.land_assoc. change (Z.land (Z.lnot _) CF_STATIC_OBJECT) with 0.
      now rewrite Z.land_0_r.
    - rewrite <- Z.land_assoc, (Z.land_comm (Z.lnot _)), Z.land_assoc, Hk. reflexivity. }
  split; [now apply moving_activate|]. split.
  - destruct (activate_keeps true (updateInertiaTensor (setMassProps mass inertia z)))
      as (_ & _ & _ & _ & _ & -> & _).
    cbn [updateInertiaTensor setMassProps m_inverseMass]. now apply invOrZero_nonzero.
  - apply activate_forced. subst z. now destruct y.
Qed.

(** Reinsertion and the final [activate] of a moving body. *)
Lemma reinsert_moving (p : ptr) (x b' : btRigidBody) (w w' : btDiscreteDynamicsWorld)
    (v : float) :
  addRigidBody p x w = (b', w') ->
  moving x -> m_inverseMass x = v ->
  (m_activationState1 x = ACTIVE_TAG \/ m_activationState1 x = DISABLE_DEACTIVATION) ->
  isStaticObject (activate false b') = false
  /\ isKinematicObject (activate false b') = false
  /\ m_inverseMass (activate false b') = v
  /\ isActive (activate false b') = true.
Proof.
  intros Hadd [Hs Hk] Hv Hact.
  apply addRigidBody_spec in Hadd as (_ & _ & Hcf & _ & Him & _ & _ & Hst).
  specialize (Hst Hs).
  destruct (activate_keeps false b') as (Hcf' & _ & _ & _ & _ & Him' & _).
  unfold isStaticObject, isKinematicObject in *. rewrite Hcf', Hcf, Him', Him.
  repeat split; try assumption.
  unfold isActive.
  destruct (activate_state false b') as [->|[-> _]]; [|reflexivity].
  rewrite Hst. now destruct Hact as [->| ->].
Qed.

Section StaticToDynamic.

Context {env : Environment}.

(** Where C3 holds.  A hard update without [Shape] of a registered proxy
    that reports dynamic with a non-zero mass, on a body that is static and
    not in [DISABLE_SIMULATION] (flags that carry [Mass] also carrying an
    easy bit, so that the easy steps run): the call returns [true] and the
    body has neither the static nor the kinematic flag, the inverse of the
    proxy's mass, and is active. *)
Lemma hard_update_static_to_dynamic
    (s : PhysicsEngine) (p b sh : ptr) (ms : CustomMotionState) (body : btRigidBody)
    (shape : btCollisionShape) (flags : Z) :
  motionStates s !! p = Some ms ->
  _body ms = Some b ->
  rigidBodies s !! b = Some body ->
  is_Some (_dynamicsWorld s) ->
  m_collisionShape body = Some sh ->
  shapes s !! sh = Some shape ->
  isStaticObject body = true ->
  getMotionType ms = MOTION_TYPE_DYNAMIC ->
  F32.eqb (getMass ms) F32.zero = false ->
  m_activationState1 body ≠ DISABLE_SIMULATION ->
  has flags PHYSICS_UPDATE_HARD = true ->
  has flags PHYSICS_UPDATE_SHAPE = false ->
  (has flags PHYSICS_UPDATE_MASS = true -> has flags PHYSICS_UPDATE_EASY = true) ->
  exists s' body',
    updateEntity p flags s = Return true s'
    /\ rigidBodies s' !! b = Some body'
    /\ isStaticObject body' = false
    /\ isKinematicObject body' = false
    /\ m_inverseMass body' = F32.div F32.one (getMass ms)
    /\ isActive body' = true.
Proof.
  intros Hms Hb Hbody [w Hw] Hsh Hshape Hstatic Hdyn Hmass Hact Hhard Hnoshape Heasy.
  destruct s as [dw sm vox off clk shp cobj rb mst nxt]. simp_state. subst dw.
  unfold updateEntity, updateEntityHard, updateEntityEasy, applyVelocities, applyGravity,
    bodyLocalInertia.
  rewrite Hhard, Hnoshape.
  destruct (has flags PHYSICS_UPDATE_MASS) eqn:HM; [rewrite (Heasy eq_refl)|];
    [|destruct (has flags PHYSICS_UPDATE_EASY)];
    destruct (has flags PHYSICS_UPDATE_POSITION), (has flags PHYSICS_UPDATE_VELOCITY).
  all: repeat first
         [ progress run
         | rewrite Hdyn
         | progress cbn [negb]
         | progress cbn [m_collisionShape setFriction setRestitution setGravity
                         setAngularVelocity setLinearVelocity setWorldTransform
                         setMassProps updateInertiaTensor setCollisionFlags]
         | rewrite (proj1 (keepsLinks_activate _ _))
         | rewrite Hsh ].
  all: match goal with |- context [addRigidBody ?p0 ?x ?w0] =>
         destruct (addRigidBody p0 x w0) as [b' w'] eqn:Hadd end.
  all: run; eexists _, _; (split; [reflexivity|]); exec; rewrite lookup_insert_eq;
       (split; [reflexivity|]).
  all: rewrite <- (invOrZero_nonzero _ Hmass).
  all: lazymatch type of Hadd with
       | addRigidBody _ (activate true (updateInertiaTensor
           (setMassProps ?m ?i (setCollisionFlags _ ?y)))) _ = _ =>
           destruct (dynamic_branch_sets_mass y m i) as (Hm & Hv & Ha);
             [ first [ apply activate_not_disabled; now destruct body | assumption ]
             | assumption
             | rewrite <- (invOrZero_nonzero _ Hmass) in Hv;
               exact (reinsert_moving _ _ _ _ _ _ Hadd Hm Hv Ha) ]
       | addRigidBody _ (activate true (setCollisionFlags _ ?y)) _ = _ =>
           destruct (dynamic_branch_mass_set y (invOrZero (getMass ms))) as (Hm & Hv & Ha);
             [ apply activate_not_disabled; now destruct body
             | now rewrite activate_inverseMass
             | exact (reinsert_moving _ _ _ _ _ _ Hadd Hm Hv Ha) ]
       end.
Qed.

End StaticToDynamic.

(** ** Start-up and the step loop *)

(** The value and the state of a normal return. *)
Lemma Return_inj {A} (a a' : A) (s s' : PhysicsEngine) :
  Return a s = Return a' s' -> a = a' /\ s = s'.
Proof. now intros [= -> ->]. Qed.

Section Startup.

Context {env : Environment}.

(** X1.  [init] always returns and leaves a world; on an engine that has
    a world already it changes nothing, so a second [init] is a no-op. *)
Theorem init_is_idempotent (s : PhysicsEngine) :
  exists s',
    init s = Return tt s'
    /\ is_Some (_dynamicsWorld s')
    /\ (is_Some (_dynamicsWorld s) -> s' = s)
    /\ init s' = Return tt s'.
Proof.
  destruct s as [[w|] sm vox off clk shp cobj rb mst nxt]; unfold init; exec.
  - eexists. split; [reflexivity|]. exec. eauto.
  - eexists. split; [reflexivity|]. exec. split; [eauto|]. split; [|reflexivity].
    now intros [? [=]].
Qed.

(** X2.  On an engine without a world [init] puts exactly one object in
    the new world, the ground: a static collision object, not a rigid
    body, holding a box of half extents (200, 1, 200) centred at
    (200, -1, 200).  The box is allocated outside the Shape Cache, and the
    voxels and the proxies are as before. *)
Theorem init_builds_the_ground (s : PhysicsEngine) :
  _dynamicsWorld s = None ->
  exists s' ground groundShape,
    init s = Return tt s'
    /\ worldObjects s' = [ground]
    /\ collisionObjects s' !! ground
       = Some (BtCollisionObject CF_STATIC_OBJECT (Some groundShape)
                 (setOrigin (Vec3 (F32.of_Z 200) (SFopp (F32.of_Z 1)) (F32.of_Z 200))
                    identityTransform))
    /\ shapes s' !! groundShape
       = Some (BtBoxShape (Vec3 (F32.of_Z 200) (F32.of_Z 1) (F32.of_Z 200)))
    /\ ground ≠ groundShape
    /\ (nextAddress s <= groundShape)%positive /\ (nextAddress s <= ground)%positive
    /\ (ground < nextAddress s')%positive /\ (groundShape < nextAddress s')%positive
    /\ _shapeManager s' = _shapeManager s
    /\ _voxels s' = _voxels s
    /\ rigidBodies s' = rigidBodies s
    /\ motionStates s' = motionStates s.
Proof.
  destruct s as [dw sm vox off clk shp cobj rb mst nxt]. cbn. intros ->.
  unfold init. exec. eexists _, _, _. split; [reflexivity|].
  unfold worldObjects. exec. rewrite !lookup_insert_eq. cbn.
  repeat split; lia.
Qed.

(** X3.  A [stepSimulation] that returns has reset the clock to the
    reading it was given and has handed the simulator one more step:
    whatever that reading was, the time step is not above [MAX_TIMESTEP],
    and it comes with two sub-steps at most and the fixed sub-step of
    1/60 s. *)
Theorem stepSimulation_step_is_bounded
    (s s' : PhysicsEngine) (now : Z) :
  stepSimulation now s = Return tt s' ->
  exists w w' timeStep,
    _dynamicsWorld s = Some w
    /\ _dynamicsWorld s' = Some w'
    /\ m_stepCalls w' = (timeStep, MAX_NUM_SUBSTEPS, FIXED_SUBSTEP) :: m_stepCalls w
    /\ F32.ltb MAX_TIMESTEP timeStep = false
    /\ MAX_NUM_SUBSTEPS = 2
    /\ FIXED_SUBSTEP = F32.div (F32.of_Z 1) (F32.of_Z 60)
    /\ _clock s' = now.
Proof.
  destruct s as [dw sm vox off clk shp cobj rb mst nxt]. unfold stepSimulation. exec.
  destruct dw as [w|]; [|discriminate]. intros [_ <-]%Return_inj. exec.
  eexists _, _, _. split; [reflexivity|]. split; [reflexivity|]. split; [reflexivity|].
  split; [apply btMin_bounded|]. repeat split.
Qed.

(** X4.  Two calls in a row: each passes the simulator the time since the
    previous reset of the clock, capped at [MAX_TIMESTEP], so the second
    call measures the time since the first; below the cap the elapsed
    time is passed through as it is. *)
Theorem stepSimulation_measures_since_last_call
    (s : PhysicsEngine) (w : btDiscreteDynamicsWorld) (t1 t2 : Z) :
  _dynamicsWorld s = Some w ->
  exists s1 s2 w2 step1 step2,
    stepSimulation t1 s = Return tt s1
    /\ stepSimulation t2 s1 = Return tt s2
    /\ _dynamicsWorld s2 = Some w2
    /\ m_stepCalls w2
       = (step2, MAX_NUM_SUBSTEPS, FIXED_SUBSTEP)
           :: (step1, MAX_NUM_SUBSTEPS, FIXED_SUBSTEP) :: m_stepCalls w
    /\ step1 = F32.btMin (F32.mul MICRO (F32.of_Z (t1 - _clock s))) MAX_TIMESTEP
    /\ step2 = F32.btMin (F32.mul MICRO (F32.of_Z (t2 - t1))) MAX_TIMESTEP
    /\ (F32.ltb (F32.mul MICRO (F32.of_Z (t2 - t1))) MAX_TIMESTEP = true ->
        step2 = F32.mul MICRO (F32.of_Z (t2 - t1)))
    /\ m_collisionObjects w2 = m_collisionObjects w.
Proof.
  destruct s as [dw sm vox off clk shp cobj rb mst nxt]. cbn. intros ->.
  unfold stepSimulation, getTimeMicroseconds. exec.
  eexists _, _, _, _, _. split; [reflexivity|]. exec.
  split; [reflexivity|]. split; [reflexivity|]. cbn.
  split; [reflexivity|]. split; [reflexivity|]. split; [reflexivity|].
  split; [|reflexivity]. intros H. unfold F32.btMin. now rewrite H.
Qed.

(** X5.  Before [init] there is no world: every call that reaches the
    simulator dereferences the null [_dynamicsWorld].  That is
    [stepSimulation], an [addVoxel] or [addEntity] whose shape the cache
    accepts, a hard [updateEntity] and a [removeEntity] of a proxy with a
    body. *)
Theorem operations_before_init_fault (s : PhysicsEngine) :
  _dynamicsWorld s = None ->
  (forall now, stepSimulation now s = Fault)
  /\ (forall position scale,
        _voxels s !! voxelKey position scale = None ->
        accepted s (voxelInfo scale) ->
        addVoxel position scale s = Fault)
  /\ (forall p ms,
        motionStates s !! p = Some ms ->
        accepted s (computeShapeInfo ms) ->
        addEntity p s = Fault)
  /\ (forall p ms b flags,
        motionStates s !! p = Some ms -> _body ms = Some b ->
        has flags PHYSICS_UPDATE_HARD = true ->
        updateEntity p flags s = Fault)
  /\ (forall p ms b,
        motionStates s !! p = Some ms -> _body ms = Some b ->
        removeEntity p s = Fault).
Proof.
  destruct s as [dw sm vox off clk shp cobj rb mst nxt]. cbn. intros ->.
  split; [reflexivity|]. split; [|split; [|split]].
  - intros position scale Hfree Hacc. unfold voxelKey, voxelInfo, accepted in *.
    exec_in Hfree. exec_in Hacc.
    unfold addVoxel, getShape. exec. rewrite Hfree.
    destruct (sm !! _) as [ref|]; [reflexivity|].
    destruct Hacc as [[? [=]]|[shape ->]]. reflexivity.
  - intros p ms Hms Hacc. unfold accepted in Hacc. exec_in Hms. exec_in Hacc.
    unfold addEntity, getShape, applyVelocities, applyGravity. exec. rewrite Hms.
    destruct (sm !! _) as [ref|];
      [|destruct Hacc as [[? [=]]|[shape ->]]];
      destruct (getMotionType ms); crack; reflexivity.
  - intros p ms b flags Hms Hb Hhard. exec_in Hms.
    unfold updateEntity, updateEntityHard. exec. rewrite Hms, Hb, Hhard. exec.
    rewrite Hms. now destruct (rb !! b).
  - intros p ms b Hms Hb. exec_in Hms.
    unfold removeEntity. exec. rewrite Hms, Hb.
    destruct (rb !! b) as [body|]; [|reflexivity].
    destruct (m_collisionShape body) as [sh|]; exec; [|reflexivity].
    now destruct (shp !! sh).
Qed.

End Startup.

(** ** More on voxels *)

Section MoreVoxels.

Context {env : Environment}.

(** X6.  A refused [addVoxel] changes nothing: it returns [false] with
    the state as it was when the centre is occupied already and when the
    cache rejects the box, and these are the only ways it returns
    [false]. *)
Theorem addVoxel_refused_changes_nothing
    (s : PhysicsEngine) (position : vec3) (scale : float) :
  (is_Some (_voxels s !! voxelKey position scale) ->
   addVoxel position scale s = Return false s)
  /\ (~ accepted s (voxelInfo scale) -> addVoxel position scale s = Return false s)
  /\ (forall s', addVoxel position scale s = Return false s' ->
        s' = s
        /\ (is_Some (_voxels s !! voxelKey position scale)
            \/ ~ accepted s (voxelInfo scale))).
Proof.
  destruct s as [dw sm vox off clk shp cobj rb mst nxt].
  unfold voxelKey, voxelInfo, accepted, addVoxel, getShape. exec.
  split; [|split].
  - intros [vo ->]. reflexivity.
  - intros Hrej. destruct (vox !! _); [reflexivity|].
    destruct (sm !! _) as [ref|]; [exfalso; apply Hrej; eauto|].
    destruct (createShape _) as [shape|]; [exfalso; apply Hrej; eauto|]. reflexivity.
  - intros s'. destruct (vox !! _) as [vo|]; [intros [= <-]; eauto|].
    destruct (sm !! _) as [ref|]; [destruct dw; discriminate|].
    destruct (createShape _) as [shape|]; [destruct dw; discriminate|].
    intros [= <-]. split; [reflexivity|]. right. now intros [[? [=]]|[? [=]]].
Qed.

(** X7.  What a successful [addVoxel] builds: one new static collision
    object at a fresh address, appended to the simulator's objects, that
    holds the shape the cache returned for the box.  Its transform is the
    identity moved to the voxel's centre in the simulation frame (the
    centre less the origin offset), while the voxel map records the centre
    as given.  Bodies and proxies are not touched. *)
Theorem addVoxel_effect
    (s s' : PhysicsEngine) (position : vec3) (scale : float) :
  addVoxel position scale s = Return true s' ->
  let halfExtents := vec3_splat (F32.mul F32.half scale) in
  exists object sh w,
    _dynamicsWorld s = Some w
    /\ worldObjects s' = m_collisionObjects w ++ [object]
    /\ (nextAddress s <= object)%positive /\ (object < nextAddress s')%positive
    /\ _voxels s'
       = <[voxelKey position scale :=
             MkVoxelObject (vec3_add position halfExtents) (Some object)]> (_voxels s)
    /\ collisionObjects s'
       = <[object :=
             BtCollisionObject CF_STATIC_OBJECT (Some sh)
               (setOrigin (vec3_add (vec3_sub position (_originOffset s)) halfExtents)
                  identityTransform)]> (collisionObjects s)
    /\ (_shape <$> _shapeManager s' !! ShapeKey (voxelInfo scale)) = Some sh
    /\ rigidBodies s' = rigidBodies s
    /\ motionStates s' = motionStates s
    /\ _originOffset s' = _originOffset s.
Proof.
  destruct s as [dw sm vox off clk shp cobj rb mst nxt].
  unfold addVoxel, getShape, voxelKey, voxelInfo, worldObjects. exec.
  destruct (vox !! _); [discriminate|].
  destruct (sm !! _) as [ref|];
    [|destruct (createShape _) as [shape|]; [|discriminate]];
    (destruct dw as [w|]; [|discriminate]); intros [= <-]; exec;
    eexists _, _, _; rewrite !lookup_insert_eq; cbn;
    repeat split; lia.
Qed.

(** X9.  [removeVoxel] finds the voxel by its centre and releases the box
    it computes from the [scale] it is given.  When the cache holds no
    such box (the voxel was added under another scale with the same
    centre), a build with assertions stops at [assert(released)] with the
    object out of the simulator and the voxel still on the map; a build
    without them returns [true], forgets the voxel, and leaves the cache
    as it was, the voxel's own reference included. *)
Theorem removeVoxel_releases_by_the_given_scale
    (s : PhysicsEngine) (position : vec3) (scale : float)
    (vo : VoxelObject) (object : ptr) (w : btDiscreteDynamicsWorld) :
  _dynamicsWorld s = Some w ->
  _voxels s !! voxelKey position scale = Some vo ->
  _object vo = Some object ->
  _shapeManager s !! ShapeKey (voxelInfo scale) = None ->
  let pulled := set_dynamicsWorld (Some (removeCollisionObject object w)) s in
  removeVoxel position scale s
  = if NDEBUG
    then Return true
           (set_voxels (delete (voxelKey position scale) (_voxels s))
              (set_collisionObjects (delete object (collisionObjects s)) pulled))
    else AssertionFailed pulled.
Proof.
  destruct s as [dw sm vox off clk shp cobj rb mst nxt].
  unfold voxelKey, voxelInfo. intros Hw Hvo Hobj Hsm.
  exec_in Hw. exec_in Hvo. exec_in Hsm. subst dw.
  unfold removeVoxel, releaseShape. exec. rewrite Hvo, Hobj.
  rewrite bool_decide_eq_true_2 by eauto. rewrite orb_true_r.
  rewrite Hsm. rewrite orb_false_r. now destruct NDEBUG.
Qed.

End MoreVoxels.

(** ** Round trips *)

(** Removing the element that was appended last restores the array. *)
Lemma array_remove_app_last (key : ptr) (l : list ptr) :
  key ∉ l -> array_remove key (l ++ [key]) = l.
Proof.
  induction l as [|x l IH]; intros Hnotin; cbn.
  - now rewrite decide_True.
  - apply not_elem_of_cons in Hnotin as [Hne Hnotin].
    rewrite decide_False by congruence. f_equal. now apply IH.
Qed.

Section CacheRoundTrip.

Context {env : Environment}.

(** The shape a constructed box describes has the descriptor's key. *)
Lemma createShape_collectInfo (info : ShapeInfo) (shape : btCollisionShape) :
  createShape info = Some shape -> collectInfo shape = info.
Proof.
  destruct info as [|h]; [discriminate|]. cbn.
  destruct (shapeInRange h); [|discriminate]. now intros [= <-].
Qed.

(** What an acquire that finds or builds a shape does to the state. *)
Lemma getShape_Some (info : ShapeInfo) (s s1 : PhysicsEngine) (sh : ptr) :
  getShape info s = Return (Some sh) s1 ->
  (exists shapeRef,
     _shapeManager s !! ShapeKey info = Some shapeRef
     /\ sh = _shape shapeRef
     /\ s1 = set_shapeManager
               (<[ShapeKey info := MkShapeReference (_refCount shapeRef + 1) sh]>
                  (_shapeManager s)) s)
  \/ (exists shape,
        _shapeManager s !! ShapeKey info = None
        /\ createShape info = Some shape
        /\ sh = nextAddress s
        /\ s1 = set_shapeManager
                  (<[ShapeKey info := MkShapeReference 1 sh]> (_shapeManager s))
                  (set_shapes (<[sh := shape]> (shapes s))
                     (set_nextAddress (Pos.succ sh) s))).
Proof.
  destruct s as [dw sm vox off clk shp cobj rb mst nxt]. unfold getShape. exec.
  destruct (sm !! _) as [shapeRef|].
  - intros [= <- <-]. left. eauto.
  - destruct (createShape info) as [shape|]; [|discriminate].
    intros [= <- <-]. right. eauto.
Qed.

(** A release that follows an acquire of the same key undoes it: the
    cache and the shapes are what they were before the acquire. *)
Lemma releaseShape_after_getShape
    (info info' : ShapeInfo) (s s1 t : PhysicsEngine) (sh : ptr) :
  getShape info s = Return (Some sh) s1 ->
  cacheSound s ->
  map_Forall (fun x _ => (x < nextAddress s)%positive) (shapes s) ->
  _shapeManager t = _shapeManager s1 ->
  shapes t = shapes s1 ->
  ShapeKey info' = ShapeKey info ->
  releaseShape info' t
  = Return true (set_shapeManager (_shapeManager s) (set_shapes (shapes s) t)).
Proof.
  intros Hget Hsound Hfresh Hsm Hshp Hkey.
  destruct t as [dw' sm' vox' off' clk' shp' cobj' rb' mst' nxt']. simp_state.
  unfold releaseShape. rewrite Hkey. exec. subst sm' shp'.
  apply getShape_Some in Hget as [(shapeRef & Hhit & -> & ->)|(shape & Hmiss & Hshape & -> & ->)].
  - destruct (Hsound _ _ Hhit) as [Hpos _]. destruct shapeRef as [c sh0].
    destruct s as [dw sm vox off clk shp cobj rb mst nxt]. simp_state.
    rewrite lookup_insert_eq. cbn [_refCount _shape] in *.
    destruct (_ =? 0) eqn:Hz; [apply Z.eqb_eq in Hz; lia|].
    now rewrite insert_insert_eq, Z.add_simpl_r, insert_id.
  - destruct s as [dw sm vox off clk shp cobj rb mst nxt]. simp_state.
    rewrite lookup_insert_eq. cbn [_refCount _shape].
    change (1 - 1 =? 0) with true. exec.
    rewrite (delete_insert_id sm) by assumption.
    rewrite (delete_insert_id shp); [reflexivity|].
    destruct (shp !! nxt) eqn:Hin; [|reflexivity].
    apply Hfresh in Hin. cbn in Hin. lia.
Qed.

(** The shape an acquire returns is alive and described by the key. *)
Lemma getShape_alive (info : ShapeInfo) (s s1 : PhysicsEngine) (sh : ptr) :
  getShape info s = Return (Some sh) s1 ->
  cacheSound s ->
  exists shape, shapes s1 !! sh = Some shape
                /\ ShapeKey (collectInfo shape) = ShapeKey info.
Proof.
  intros Hget Hsound.
  apply getShape_Some in Hget as [(shapeRef & Hhit & -> & ->)|(shape & Hmiss & Hshape & -> & ->)];
    simp_state.
  - destruct (Hsound _ _ Hhit) as [_ Hshape].
    destruct (shapes s !! _shape shapeRef) as [shape|]; [|discriminate].
    exists shape. split; [reflexivity|]. now injection Hshape.
  - exists shape. rewrite lookup_insert_eq. split; [reflexivity|].
    now rewrite (createShape_collectInfo _ _ Hshape).
Qed.

(** An acquire touches the cache, the shapes and the allocator only. *)
Lemma getShape_frame (info : ShapeInfo) (s s1 : PhysicsEngine) (r : option ptr) :
  getShape info s = Return r s1 ->
  _dynamicsWorld s1 = _dynamicsWorld s
  /\ _voxels s1 = _voxels s
  /\ _originOffset s1 = _originOffset s
  /\ _clock s1 = _clock s
  /\ collisionObjects s1 = collisionObjects s
  /\ rigidBodies s1 = rigidBodies s
  /\ motionStates s1 = motionStates s
  /\ (nextAddress s <= nextAddress s1)%positive.
Proof.
  destruct s as [dw sm vox off clk shp cobj rb mst nxt]. unfold getShape. exec.
  destruct (sm !! _) as [shapeRef|]; [|destruct (createShape info)];
    intros [= <- <-]; cbn; repeat split; lia.
Qed.

End CacheRoundTrip.

(** Taking out the object that was put in last restores the world. *)
Lemma removeCollisionObject_addCollisionObject (o : ptr) (w : btDiscreteDynamicsWorld) :
  o ∉ m_collisionObjects w ->
  removeCollisionObject o (addCollisionObject o w) = w.
Proof.
  intros Hnew. destruct w as [objs moving g calls].
  unfold removeCollisionObject, addCollisionObject. cbn in *.
  now rewrite array_remove_app_last.
Qed.

Section VoxelRoundTrip.

Context {env : Environment}.

(** X8.  From a state whose addresses are all allocated and whose cache
    is sound, a successful [addVoxel] followed by [removeVoxel] with the
    same pair gives back the engine it started from: the voxel map, the
    simulator's objects, the heaps and the cache are as they were, and
    only the allocator has moved on. *)
Theorem addVoxel_removeVoxel_restores_the_engine
    (s s1 : PhysicsEngine) (position : vec3) (scale : float) :
  allocatedBelow s ->
  cacheSound s ->
  addVoxel position scale s = Return true s1 ->
  exists s2,
    removeVoxel position scale s1 = Return true s2
    /\ rewound s s2 = s.
Proof.
  destruct s as [dw sm vox off clk shp cobj rb mst nxt].
  intros (Hshp & Hcobj & _ & Hworld) Hsound. simp_state.
  unfold addVoxel. exec.
  destruct (vox !! _) eqn:Hfree; [discriminate|].
  destruct (getShape _ _) as [[sh|] sa| |] eqn:Hget; try discriminate.
  destruct (getShape_frame _ _ _ _ Hget) as (Hdw & Hvox & Hoff & Hclk & Hco & Hrb & Hmst & Hnext).
  destruct sa as [dwa sma voxa offa clka shpa cobja rba msta nxta]. simp_state.
  subst dwa voxa offa clka cobja rba msta.
  destruct dw as [w|]; [|discriminate].
  intros [= <-].
  unfold removeVoxel. exec. rewrite lookup_insert_eq. cbn [_object is_Some].
  rewrite bool_decide_eq_true_2 by eauto. rewrite orb_true_r.
  erewrite (releaseShape_after_getShape _ _ _ _ _ sh Hget Hsound Hshp);
    [|reflexivity..].
  exec. rewrite orb_true_r. eexists. split; [reflexivity|].
  unfold rewound. exec.
  assert (Hnew : nxta ∉ m_collisionObjects w).
  { intros Hin. specialize (Hworld w eq_refl). rewrite Forall_forall in Hworld.
    specialize (Hworld nxta). rewrite elem_of_app in Hworld.
    specialize (Hworld (or_introl Hin)). lia. }
  rewrite (removeCollisionObject_addCollisionObject _ _ Hnew).
  rewrite (delete_insert_id vox) by assumption.
  rewrite (delete_insert_id cobj); [reflexivity|].
  destruct (cobj !! nxta) eqn:Hin; [|reflexivity].
  apply Hcobj in Hin. cbn in Hin. lia.
Qed.

End VoxelRoundTrip.

(** Pulling out the body that was inserted last restores the world. *)
Lemma removeRigidBody_addRigidBody (p : ptr) (x x' : btRigidBody)
    (w w' : btDiscreteDynamicsWorld) :
  addRigidBody p x w = (x', w') ->
  p ∉ m_collisionObjects w ->
  p ∉ m_nonStaticRigidBodies w ->
  removeRigidBody p w' = w.
Proof.
  intros Hadd Hobjs Hmoving. destruct w as [objs moving g calls]. cbn in *.
  unfold addRigidBody in Hadd. cbn [m_gravity m_collisionObjects m_nonStaticRigidBodies
    m_stepCalls] in Hadd.
  destruct (m_collisionShape _) as [sh|].
  - destruct (isStaticObject _); injection Hadd as <- <-;
      unfold removeRigidBody, removeCollisionObject, addCollisionObject; cbn;
      rewrite ?array_remove_app_last by assumption;
      now rewrite ?array_remove_notin by assumption.
  - injection Hadd as <- <-. unfold removeRigidBody, removeCollisionObject. cbn.
    now rewrite !array_remove_notin by assumption.
Qed.

Section EntityRoundTrip.

Context {env : Environment}.

(** X12.  From a state whose addresses are all allocated and whose cache
    is sound, a successful [addEntity] of a proxy without a body followed
    by [removeEntity] gives back the engine it started from, whatever the
    motion type: the simulator's arrays, the bodies, the proxy with its
    null back-reference, the shapes and the cache are as they were, and
    only the allocator has moved on. *)
Theorem addEntity_removeEntity_restores_the_engine
    (s s1 : PhysicsEngine) (p : ptr) (ms : CustomMotionState) :
  allocatedBelow s ->
  cacheSound s ->
  motionStates s !! p = Some ms ->
  _body ms = None ->
  addEntity p s = Return true s1 ->
  exists s2,
    removeEntity p s1 = Return true s2
    /\ rewound s s2 = s.
Proof.
  destruct s as [dw sm vox off clk shp cobj rb mst nxt].
  intros (Hshp & _ & Hrb & Hworld) Hsound Hms Hnull. simp_state.
  unfold addEntity, applyVelocities, applyGravity. exec. rewrite Hms.
  destruct (getShape _ _) as [[sh|] sa| |] eqn:Hget; try discriminate.
  destruct (getShape_frame _ _ _ _ Hget) as (Hdw & Hvox & Hoff & Hclk & Hco & Hrb' & Hmst & Hnext).
  destruct (getShape_alive _ _ _ _ Hget Hsound) as (shape & Hshape & Hkey).
  destruct sa as [dwa sma voxa offa clka shpa cobja rba msta nxta]. simp_state.
  subst dwa voxa offa clka cobja rba msta.
  assert (Hfresh : rb !! nxta = None).
  { destruct (rb !! nxta) eqn:Hin; [|reflexivity]. apply Hrb in Hin. cbn in Hin. lia. }
  destruct dw as [w|].
  2:{ destruct (getMotionType ms); run; discriminate. }
  assert (Hnew : (nxta ∉ m_collisionObjects w) /\ (nxta ∉ m_nonStaticRigidBodies w)).
  { specialize (Hworld w eq_refl). rewrite Forall_forall in Hworld.
    split; intros Hin; specialize (Hworld nxta); rewrite elem_of_app in Hworld;
      [specialize (Hworld (or_introl Hin))|specialize (Hworld (or_intror Hin))]; lia. }
  destruct Hnew as [Hnew1 Hnew2].
  destruct (getMotionType ms); run.
  all: match goal with |- context [addRigidBody ?b ?x ?w0] =>
         destruct (addRigidBody b x w0) as [b' w'] eqn:Hadd;
         pose proof (removeRigidBody_addRigidBody _ _ _ _ _ Hadd Hnew1 Hnew2) as Hback;
         apply addRigidBody_spec in Hadd as (_ & Hsh & _)
       end.
  all: repeat first
         [ rewrite (proj1 (keepsLinks_setFriction _ _)) in Hsh
         | rewrite (proj1 (keepsLinks_setRestitution _ _)) in Hsh
         | rewrite (proj1 (keepsLinks_setFlags _ _)) in Hsh
         | rewrite (proj1 (keepsLinks_updateInertiaTensor _)) in Hsh
         | rewrite (proj1 (keepsLinks_setCollisionFlags _ _)) in Hsh
         | rewrite (proj1 (keepsLinks_setActivationState _ _)) in Hsh
         | rewrite (proj1 (keepsLinks_setGravity _ _)) in Hsh
         | rewrite (proj1 (keepsLinks_setAngularVelocity _ _)) in Hsh
         | rewrite (proj1 (keepsLinks_setLinearVelocity _ _)) in Hsh ].
  all: rewrite (proj1 (proj2 (newRigidBody_links _ _ _ _ _))) in Hsh.
  all: exec; intros [= <-]; unfold removeEntity; run.
  all: rewrite ?Hsh; run.
  all: rewrite Hback.
  all: erewrite (releaseShape_after_getShape _ _ _ _ _ sh Hget Hsound Hshp);
         [|reflexivity|reflexivity|exact Hkey].
  all: run; eexists; (split; [reflexivity|]); unfold rewound; exec.
  all: rewrite (delete_insert_id rb) by assumption.
  all: destruct ms as [bd re fr mt ma si tr ve av gr]; cbn in Hnull; subst bd;
         cbn [set_body _body _restitution _friction
              getMotionType getMass computeShapeInfo getWorldTransform entityVelocity
              entityAngularVelocity entityGravity].
  all: now rewrite insert_id.
Qed.

End EntityRoundTrip.

(** ** Calls that have nothing to do *)

Section Refusals.

Context {env : Environment}.

(** X10.  [addEntity] returns [false] exactly when the cache has no shape
    for the proxy's descriptor and cannot construct one, and then the
    engine is as before: no body, no back-reference, nothing in the
    simulator. *)
Theorem addEntity_refused_changes_nothing
    (s : PhysicsEngine) (p : ptr) (ms : CustomMotionState) :
  motionStates s !! p = Some ms ->
  (~ accepted s (computeShapeInfo ms) -> addEntity p s = Return false s)
  /\ (forall s', addEntity p s = Return false s' ->
        s' = s /\ ~ accepted s (computeShapeInfo ms)).
Proof.
  intros Hms. split.
  - intros Hrej. destruct s as [dw sm vox off clk shp cobj rb mst nxt].
    unfold accepted in Hrej. exec_in Hms. exec_in Hrej.
    unfold addEntity, getShape. exec. rewrite Hms.
    destruct (sm !! _) as [shapeRef|]; [exfalso; apply Hrej; eauto|].
    destruct (createShape _) as [shape|]; [exfalso; apply Hrej; eauto|]. reflexivity.
  - intros s' Hadd. split; [exact (addEntity_false_effect _ _ _ Hadd)|].
    revert Hadd. unfold addEntity. intros H.
    apply bind_inv in H as (ms' & s1 & Hderef & H).
    apply bind_inv in H as (shape & s2 & Hshape & H).
    destruct shape as [sh|].
    + repeat (apply bind_inv in H as (? & ? & _ & H)). discriminate H.
    + unfold deref in Hderef. rewrite Hms in Hderef. injection Hderef as <- <-.
      destruct s as [dw sm vox off clk shp cobj rb mst nxt].
      revert Hshape. unfold accepted, getShape. exec.
      destruct (sm !! _) as [shapeRef|]; [discriminate|].
      destruct (createShape _) as [shape|]; [discriminate|].
      intros _ [[? [=]]|[? [=]]].
Qed.

(** X13.  After a [removeEntity] that removed the body, the proxy is
    unknown to the engine again: a second [removeEntity] and any
    [updateEntity] return [false] and change nothing. *)
Theorem removeEntity_twice (s s1 : PhysicsEngine) (p : ptr) :
  removeEntity p s = Return true s1 ->
  removeEntity p s1 = Return false s1
  /\ forall flags, updateEntity p flags s1 = Return false s1.
Proof.
  intros Hrm. destruct (removeEntity_effect _ _ _ _ Hrm) as (ms & Hms & Heff).
  destruct (_body ms) as [b|]; [|now destruct Heff].
  destruct Heff as (_ & w & _ & _ & _ & Hmst & _).
  destruct s1 as [dw sm vox off clk shp cobj rb mst nxt]. simp_state.
  unfold removeEntity, updateEntity. exec. rewrite Hmst, lookup_insert_eq. cbn [_body set_body].
  split; [reflexivity|]. intros flags. reflexivity.
Qed.

(** X14.  [updateEntity] leaves the engine alone in two cases: for a
    proxy without a body it returns [false], and for flags that carry no
    hard and no easy bit it returns [true] without looking at the body. *)
Theorem updateEntity_without_work
    (s : PhysicsEngine) (p : ptr) (ms : CustomMotionState) (flags : Z) :
  motionStates s !! p = Some ms ->
  (_body ms = None -> updateEntity p flags s = Return false s)
  /\ (is_Some (_body ms) ->
      has flags PHYSICS_UPDATE_HARD = false ->
      has flags PHYSICS_UPDATE_EASY = false ->
      updateEntity p flags s = Return true s).
Proof.
  intros Hms. destruct s as [dw sm vox off clk shp cobj rb mst nxt]. exec_in Hms.
  unfold updateEntity. exec. rewrite Hms. split.
  - now intros ->.
  - intros [b ->] -> ->. reflexivity.
Qed.

End Refusals.

(** ** The body [addEntity] builds *)

(** Insertion of a body that has a shape and has opted out of the
    world's gravity: a static body is put to sleep, any other body joins
    the simulator's list of moving bodies. *)
Lemma addRigidBody_result (p sh : ptr) (b b' : btRigidBody) (w w' : btDiscreteDynamicsWorld) :
  addRigidBody p b w = (b', w') ->
  m_collisionShape b = Some sh ->
  has (m_rigidbodyFlags b) BT_DISABLE_WORLD_GRAVITY = true ->
  b' = (if isStaticObject b then setActivationState ISLAND_SLEEPING b else b)
  /\ w' = BtDiscreteDynamicsWorld (m_collisionObjects w ++ [p])
            (if isStaticObject b
             then m_nonStaticRigidBodies w
             else m_nonStaticRigidBodies w ++ [p])
            (m_gravity w) (m_stepCalls w).
Proof.
  unfold addRigidBody, has. intros Hadd Hsh Hflag.
  apply negb_true_iff in Hflag. rewrite Hflag, andb_false_r, Hsh in Hadd.
  destruct (isStaticObject b); now injection Hadd as <- <-.
Qed.

(** The constructor with mass zero, and with any other mass. *)
Lemma newRigidBody_massless (mass : float) (p : ptr) (tr : btTransform) (sh : ptr)
    (inertia : vec3) :
  F32.eqb mass F32.zero = true ->
  newRigidBody mass p tr sh inertia
  = BtRigidBody CF_STATIC_OBJECT ACTIVE_TAG (Some sh) tr F32.zero
      (Vec3 (invOrZero (vx inertia)) (invOrZero (vy inertia)) (invOrZero (vz inertia)))
      vec3_zero vec3_zero vec3_zero F32.zero F32.half 0 p.
Proof.
  intros H. unfold newRigidBody, updateInertiaTensor, setMassProps, invOrZero.
  cbn [m_collisionFlags m_activationState1 m_collisionShape m_worldTransform m_linearVelocity
       m_angularVelocity m_gravity_acceleration m_restitution m_friction m_rigidbodyFlags
       m_optionalMotionState].
  now rewrite H.
Qed.

Lemma newRigidBody_massive (mass : float) (p : ptr) (tr : btTransform) (sh : ptr)
    (inertia : vec3) :
  F32.eqb mass F32.zero = false ->
  newRigidBody mass p tr sh inertia
  = BtRigidBody 0 ACTIVE_TAG (Some sh) tr (F32.div F32.one mass)
      (Vec3 (invOrZero (vx inertia)) (invOrZero (vy inertia)) (invOrZero (vz inertia)))
      vec3_zero vec3_zero vec3_zero F32.zero F32.half 0 p.
Proof.
  intros H. unfold newRigidBody, updateInertiaTensor, setMassProps, invOrZero.
  cbn [m_collisionFlags m_activationState1 m_collisionShape m_worldTransform m_linearVelocity
       m_angularVelocity m_gravity_acceleration m_restitution m_friction m_rigidbodyFlags
       m_optionalMotionState].
  now rewrite H.
Qed.

Section NewBodies.

Context {env : Environment}.

(** X11.  The body a successful [addEntity] creates is the one its
    motion type asks for.  It is appended to the simulator's objects,
    points back to the proxy and takes the proxy's transform, restitution
    and friction.  A Static body carries the static flag alone, has no
    mass and sleeps, and is not among the simulator's moving bodies.  A
    Kinematic body carries the kinematic flag alone, has no mass and never
    deactivates.  A Dynamic body has the proxy's velocities and gravity;
    with a non-zero mass it carries neither flag, has the reciprocal of
    the proxy's mass and is active, and with mass zero it is built
    static. *)
Theorem addEntity_builds_the_body_of_its_motion_type
    (s s' : PhysicsEngine) (p : ptr) (ms : CustomMotionState) :
  motionStates s !! p = Some ms ->
  addEntity p s = Return true s' ->
  exists b body w w',
    motionStates s' !! p = Some (set_body (Some b) ms)
    /\ rigidBodies s' !! b = Some body
    /\ _dynamicsWorld s = Some w
    /\ _dynamicsWorld s' = Some w'
    /\ m_collisionObjects w' = m_collisionObjects w ++ [b]
    /\ m_optionalMotionState body = p
    /\ m_worldTransform body = getWorldTransform ms
    /\ m_restitution body = _restitution ms
    /\ m_friction body = _friction ms
    /\ match getMotionType ms with
       | MOTION_TYPE_STATIC =>
           m_collisionFlags body = CF_STATIC_OBJECT
           /\ m_inverseMass body = F32.zero
           /\ m_activationState1 body = ISLAND_SLEEPING
           /\ m_linearVelocity body = vec3_zero
           /\ m_nonStaticRigidBodies w' = m_nonStaticRigidBodies w
       | MOTION_TYPE_KINEMATIC =>
           m_collisionFlags body = CF_KINEMATIC_OBJECT
           /\ m_inverseMass body = F32.zero
           /\ m_activationState1 body = DISABLE_DEACTIVATION
           /\ m_linearVelocity body = vec3_zero
           /\ m_nonStaticRigidBodies w' = m_nonStaticRigidBodies w ++ [b]
       | MOTION_TYPE_DYNAMIC =>
           m_linearVelocity body = entityVelocity ms
           /\ m_angularVelocity body = entityAngularVelocity ms
           /\ m_gravity_acceleration body = entityGravity ms
           /\ if F32.eqb (getMass ms) F32.zero
              then m_collisionFlags body = CF_STATIC_OBJECT
                   /\ m_inverseMass body = F32.zero
                   /\ m_activationState1 body = ISLAND_SLEEPING
                   /\ m_nonStaticRigidBodies w' = m_nonStaticRigidBodies w
              else m_collisionFlags body = 0
                   /\ m_inverseMass body = F32.div F32.one (getMass ms)
                   /\ m_activationState1 body = ACTIVE_TAG
                   /\ m_nonStaticRigidBodies w' = m_nonStaticRigidBodies w ++ [b]
       end.
Proof.
  intros Hms. destruct s as [dw sm vox off clk shp cobj rb mst nxt]. exec_in Hms.
  unfold addEntity, applyVelocities, applyGravity. exec. rewrite Hms.
  destruct (getShape _ _) as [[sh|] sa| |] eqn:Hget; try discriminate.
  destruct (getShape_frame _ _ _ _ Hget) as (Hdw & Hvox & Hoff & Hclk & Hco & Hrb' & Hmst & Hnext).
  destruct sa as [dwa sma voxa offa clka shpa cobja rba msta nxta]. simp_state.
  subst dwa voxa offa clka cobja rba msta.
  destruct (getMotionType ms) eqn:Ht; run.
  2: destruct (shpa !! sh) as [shape|]; [|discriminate]; run.
  all: destruct dw as [w|]; [|discriminate].
  1,3: rewrite (newRigidBody_massless F32.zero) by reflexivity.
  3: destruct (F32.eqb (getMass ms) F32.zero) eqn:Hmass;
       [rewrite (newRigidBody_massless _ _ _ _ _ Hmass)
       |rewrite (newRigidBody_massive _ _ _ _ _ Hmass)].
  all: match goal with |- context [addRigidBody ?b ?x ?w0] =>
         destruct (addRigidBody b x w0) as [b' w'] eqn:Hadd;
         apply addRigidBody_result with (sh := sh) in Hadd as [-> ->];
           [|reflexivity|reflexivity]
       end.
  all: exec; intros [_ <-]%Return_inj; exec; exists nxta; eexists _, _, _;
       rewrite !lookup_insert_eq.
  all: repeat (split; [reflexivity|]); reflexivity.
Qed.

End NewBodies.

(** ** Easy updates *)

Lemma set_rigidBodies_same (s : PhysicsEngine) : set_rigidBodies (rigidBodies s) s = s.
Proof. now destruct s. Qed.

(** [activate] touches nothing but the activation state. *)
Lemma activate_is_forceActivationState (force : bool) (b : btRigidBody) :
  activate force b = forceActivationState (m_activationState1 (activate force b)) b.
Proof.
  unfold activate, setActivationState.
  destruct (force || _); [destruct (_ && _)|]; now destruct b.
Qed.

(** The static flag after [setMassProps]: set for mass zero, cleared for
    any other mass. *)
Lemma isStaticObject_setMassProps (mass : float) (inertia : vec3) (b : btRigidBody) :
  isStaticObject (setMassProps mass inertia b) = F32.eqb mass F32.zero.
Proof.
  unfold isStaticObject, setMassProps. cbn [m_collisionFlags].
  destruct (F32.eqb mass F32.zero).
  - rewrite Z.land_lor_distr_l. change (Z.land CF_STATIC_OBJECT CF_STATIC_OBJECT) with 1.
    change CF_STATIC_OBJECT with (Z.ones 1). rewrite Z.land_ones by lia.
    change (2 ^ 1) with 2. change (Z.ones 1) with 1.
    assert (H : m_collisionFlags b mod 2 = 0 \/ m_collisionFlags b mod 2 = 1)
      by (pose proof (Z.mod_pos_bound (m_collisionFlags b) 2); lia).
    now destruct H as [-> | ->].
  - rewrite <- Z.land_assoc. change (Z.land (Z.lnot _) CF_STATIC_OBJECT) with 0.
    now rewrite Z.land_0_r.
Qed.

Section EasyUpdates.

Context {env : Environment}.

Section Frame.

Variables (s0 : PhysicsEngine) (p b sh : ptr) (ms : CustomMotionState).
Variables (body0 : btRigidBody) (shape : btCollisionShape).
Hypothesis Hms : motionStates s0 !! p = Some ms.
Hypothesis Hb : _body ms = Some b.
Hypothesis Hbody : rigidBodies s0 !! b = Some body0.
Hypothesis Hsh : m_collisionShape body0 = Some sh.
Hypothesis Hshape : shapes s0 !! sh = Some shape.

Lemma easyFrame_start : easyFrame s0 b s0.
Proof.
  split; [apply set_rigidBodies_same|]. split; [reflexivity|]. exists body0, body0. auto.
Qed.

Lemma easyFrame_ms s : easyFrame s0 b s -> motionStates s !! p = Some ms.
Proof.
  intros [Hrest _]. pose proof Hms as H. rewrite <- Hrest in H. now destruct s.
Qed.

Lemma easyFrame_stable : stableBody (easyFrame s0 b) b.
Proof.
  intros s body body' (Hrest & Hothers & b0 & b1 & Hb0 & Hb1 & Hs1 & Hm1) Hlook Hs' Hm'.
  destruct s as [dw sm vox off clk shp cobj rb mst nxt]. unfold easyFrame. simp_state.
  split; [exact Hrest|]. split.
  - intros x Hx. rewrite lookup_insert_ne by congruence. now apply Hothers.
  - exists b0, body'. rewrite lookup_insert_eq.
    rewrite Hb1 in Hlook. injection Hlook as <-.
    repeat split; [assumption|congruence..].
Qed.

Lemma easyFrame_live s :
  easyFrame s0 b s ->
  False \/ exists body sh shape,
             rigidBodies s !! b = Some body
             /\ m_collisionShape body = Some sh
             /\ shapes s !! sh = Some shape.
Proof.
  intros (Hrest & _ & b0 & b1 & Hb0 & Hb1 & Hs1 & _). right.
  exists b1, sh, shape. split; [assumption|].
  rewrite Hbody in Hb0. injection Hb0 as <-. split; [congruence|].
  pose proof Hshape as H. rewrite <- Hrest in H. now destruct s.
Qed.

(** X15.  An update without a hard bit works on the proxy's body in
    place: for a proxy whose body holds a live shape it returns [true],
    and the engine differs from before in that one body only.  The
    simulator's arrays, the Shape Cache, the shapes, the voxels, the
    proxies and every other body are as they were, and the body keeps its
    shape and its proxy. *)
Theorem easy_update_touches_the_body_only (flags : Z) :
  has flags PHYSICS_UPDATE_HARD = false ->
  exists s', updateEntity p flags s0 = Return true s' /\ easyFrame s0 b s'.
Proof.
  intros Hhard.
  assert (Hrun : triple False (easyFrame s0 b) (updateEntity p flags)
                   (fun r s => r = true /\ easyFrame s0 b s) (fun _ => False)).
  { unfold updateEntity.
    apply triple_deref_known with (a := ms); [apply easyFrame_ms|]. rewrite Hb, Hhard.
    apply triple_bind with (R := fun _ => easyFrame s0 b);
      [|intros _; now apply triple_ret].
    destruct (has flags PHYSICS_UPDATE_EASY).
    - apply (inv_updateEntityEasy False _ _ p b ms);
        [apply easyFrame_ms|assumption|apply easyFrame_stable|apply easyFrame_live].
    - now apply triple_ret. }
  specialize (Hrun s0 easyFrame_start).
  destruct (updateEntity p flags s0) as [r s'|s'|]; [|contradiction..].
  destruct Hrun as [-> Hframe]. eauto.
Qed.

End Frame.

(** X16.  What an easy update writes to the body of a proxy: always the
    proxy's restitution and friction; with [Position] the proxy's world
    transform, and without it the transform stays; with [Mass] the
    reciprocal of the proxy's mass (zero for mass zero), the static flag
    being set exactly when that mass is zero, and without it mass and
    collision flags stay.  The rigid-body flags are never written. *)
Theorem easy_update_copies_the_proxy
    (s : PhysicsEngine) (p b sh : ptr) (ms : CustomMotionState)
    (body : btRigidBody) (shape : btCollisionShape) (flags : Z) :
  motionStates s !! p = Some ms ->
  _body ms = Some b ->
  rigidBodies s !! b = Some body ->
  m_collisionShape body = Some sh ->
  shapes s !! sh = Some shape ->
  has flags PHYSICS_UPDATE_HARD = false ->
  has flags PHYSICS_UPDATE_EASY = true ->
  exists s' body',
    updateEntity p flags s = Return true s'
    /\ rigidBodies s' !! b = Some body'
    /\ m_restitution body' = _restitution ms
    /\ m_friction body' = _friction ms
    /\ m_worldTransform body'
       = (if has flags PHYSICS_UPDATE_POSITION
          then getWorldTransform ms else m_worldTransform body)
    /\ m_inverseMass body'
       = (if has flags PHYSICS_UPDATE_MASS
          then invOrZero (getMass ms) else m_inverseMass body)
    /\ (if has flags PHYSICS_UPDATE_MASS
        then isStaticObject body' = F32.eqb (getMass ms) F32.zero
        else m_collisionFlags body' = m_collisionFlags body)
    /\ m_rigidbodyFlags body' = m_rigidbodyFlags body.
Proof.
  intros Hms Hb Hbody Hsh Hshape Hhard Heasy.
  destruct s as [dw sm vox off clk shp cobj rb mst nxt]. simp_state.
  unfold updateEntity, updateEntityEasy, applyVelocities, applyGravity, bodyLocalInertia.
  rewrite Hhard, Heasy.
  destruct (has flags PHYSICS_UPDATE_POSITION), (has flags PHYSICS_UPDATE_VELOCITY),
    (has flags PHYSICS_UPDATE_MASS).
  all: repeat first
         [ progress run
         | progress cbn [m_collisionShape setFriction setRestitution setGravity
                         setAngularVelocity setLinearVelocity setWorldTransform]
         | rewrite Hsh ].
  all: eexists _, _; (split; [reflexivity|]); exec; rewrite lookup_insert_eq;
       (split; [reflexivity|]).
  all: rewrite activate_is_forceActivationState.
  all: cbn [forceActivationState m_restitution m_friction m_worldTransform m_inverseMass
            m_rigidbodyFlags m_collisionFlags updateInertiaTensor setFriction setRestitution
            setGravity setAngularVelocity setLinearVelocity setWorldTransform].
  all: repeat (split; [reflexivity|]).
  all: try (split; [|reflexivity]).
  all: try reflexivity.
  all: unfold isStaticObject at 1; cbn [m_collisionFlags forceActivationState].
  all: apply isStaticObject_setMassProps.
Qed.

End EasyUpdates.

(** ** Hard updates to static and to kinematic *)

Lemma static_is_staticOrKinematic (b : btRigidBody) :
  isStaticObject b = true -> isStaticOrKinematicObject b = true.
Proof.
  unfold isStaticObject, isStaticOrKinematicObject.
  rewrite !negb_true_iff, !Z.eqb_neq, Z.land_lor_distr_r, Z.lor_eq_0_iff. tauto.
Qed.

(** A static body whose activation state is one of the two sticky ones
    goes through reinsertion and the final [activate] untouched, and does
    not join the moving bodies. *)
Lemma reinsert_static (p sh : ptr) (z : btRigidBody) (w : btDiscreteDynamicsWorld) :
  isStaticObject z = true ->
  m_collisionShape z = Some sh ->
  m_activationState1 z = DISABLE_SIMULATION \/ m_activationState1 z = DISABLE_DEACTIVATION ->
  addRigidBody p z w = (z, addCollisionObject p w) /\ activate false z = z.
Proof.
  intros Hstatic Hsh Hact.
  pose proof (static_is_staticOrKinematic _ Hstatic) as Hsk.
  unfold addRigidBody, activate, setActivationState.
  rewrite Hsk. cbn [negb andb orb]. rewrite Hsh, Hstatic.
  now destruct Hact as [-> | ->].
Qed.

(** The static branch of the hard update, on a body [y]. *)
Lemma static_branch (y : btRigidBody) :
  let z := setAngularVelocity vec3_zero
             (setLinearVelocity vec3_zero
                (updateInertiaTensor
                   (setMassProps F32.zero vec3_zero
                      (forceActivationState DISABLE_SIMULATION
                         (setCollisionFlags
                            (Z.land (Z.lor (m_collisionFlags y) CF_STATIC_OBJECT)
                               (Z.lnot CF_KINEMATIC_OBJECT)) y))))) in
  isStaticObject z = true
  /\ isKinematicObject z = false
  /\ m_inverseMass z = F32.zero
  /\ m_activationState1 z = DISABLE_SIMULATION
  /\ m_linearVelocity z = vec3_zero
  /\ m_angularVelocity z = vec3_zero
  /\ m_collisionShape z = m_collisionShape y.
Proof.
  cbv zeta. split; [|split].
  - apply (isStaticObject_setMassProps F32.zero).
  - unfold isKinematicObject.
    cbn [m_collisionFlags setAngularVelocity setLinearVelocity updateInertiaTensor
         setMassProps forceActivationState setCollisionFlags].
    change (F32.eqb F32.zero F32.zero) with true. cbv iota.
    rewrite Z.land_lor_distr_l, <- Z.land_assoc.
    change (Z.land (Z.lnot CF_KINEMATIC_OBJECT) CF_KINEMATIC_OBJECT) with 0.
    now rewrite Z.land_0_r.
  - repeat split.
Qed.

(** The kinematic branch of the hard update, on a body [y]: the zero
    mass it sets brings the static flag back. *)
Lemma kinematic_branch (y : btRigidBody) :
  let z := updateInertiaTensor
             (setMassProps F32.zero vec3_zero
                (forceActivationState DISABLE_DEACTIVATION
                   (setCollisionFlags
                      (Z.land (Z.lor (m_collisionFlags y) CF_KINEMATIC_OBJECT)
                         (Z.lnot CF_STATIC_OBJECT)) y))) in
  isStaticObject z = true
  /\ isKinematicObject z = true
  /\ m_inverseMass z = F32.zero
  /\ m_activationState1 z = DISABLE_DEACTIVATION
  /\ m_collisionShape z = m_collisionShape y.
Proof.
  cbv zeta. split; [|split].
  - apply (isStaticObject_setMassProps F32.zero).
  - unfold isKinematicObject.
    cbn [m_collisionFlags updateInertiaTensor setMassProps forceActivationState
         setCollisionFlags].
    change (F32.eqb F32.zero F32.zero) with true. cbv iota.
    rewrite Z.land_lor_distr_l. change (Z.land CF_STATIC_OBJECT CF_KINEMATIC_OBJECT) with 0.
    rewrite Z.lor_0_r, <- Z.land_assoc.
    change (Z.land (Z.lnot CF_STATIC_OBJECT) CF_KINEMATIC_OBJECT) with CF_KINEMATIC_OBJECT.
    rewrite Z.land_lor_distr_l, Z.land_diag.
    apply negb_true_iff, Z.eqb_neq. rewrite Z.lor_eq_0_iff. now intros [_ [=]].
  - repeat split.
Qed.

(** Insertion changes nothing of a body but its gravity and its
    activation state. *)
Lemma addRigidBody_is_setGravity (p : ptr) (b b' : btRigidBody)
    (w w' : btDiscreteDynamicsWorld) :
  addRigidBody p b w = (b', w') ->
  b' = forceActivationState (m_activationState1 b')
         (setGravity (m_gravity_acceleration b') b).
Proof.
  unfold addRigidBody, setActivationState.
  destruct (negb _ && _); cbn [m_collisionShape setGravity];
    (destruct (m_collisionShape b); [destruct (isStaticObject _); [destruct (_ && _)|]|]);
    intros [= <- <-]; now destruct b.
Qed.

Lemma addRigidBody_keeps_mass (p : ptr) (b b' : btRigidBody)
    (w w' : btDiscreteDynamicsWorld) :
  addRigidBody p b w = (b', w') ->
  m_inverseMass b' = m_inverseMass b /\ m_invInertiaLocal b' = m_invInertiaLocal b.
Proof. intros ->%addRigidBody_is_setGravity. now split. Qed.

Lemma activate_keeps_mass (force : bool) (b : btRigidBody) :
  m_inverseMass (activate force b) = m_inverseMass b
  /\ m_invInertiaLocal (activate force b) = m_invInertiaLocal b.
Proof. rewrite activate_is_forceActivationState. now split. Qed.

(** The simulator's arrays after the insertion of a body with a shape. *)
Lemma addRigidBody_world (p sh : ptr) (b b' : btRigidBody) (w w' : btDiscreteDynamicsWorld) :
  addRigidBody p b w = (b', w') ->
  m_collisionShape b = Some sh ->
  m_collisionObjects w' = m_collisionObjects w ++ [p]
  /\ m_nonStaticRigidBodies w'
     = (if isStaticObject b
        then m_nonStaticRigidBodies w
        else m_nonStaticRigidBodies w ++ [p]).
Proof.
  unfold addRigidBody. intros Hadd Hsh.
  assert (Hb1 : forall g, m_collisionShape (setGravity g b) = Some sh
                          /\ isStaticObject (setGravity g b) = isStaticObject b)
    by (intros g; now destruct b).
  destruct (negb _ && _).
  - destruct (Hb1 (m_gravity w)) as [H1 H2]. rewrite H1, H2 in Hadd.
    destruct (isStaticObject b); now injection Hadd as <- <-.
  - rewrite Hsh in Hadd. destruct (isStaticObject b); now injection Hadd as <- <-.
Qed.

Section HardResults.

Context {env : Environment}.

(** X18.  A hard update (without [Shape]) of a proxy that reports Static
    returns [true] and leaves the body static and not kinematic, without
    mass, at rest, and with simulation disabled, whatever it was before
    and whatever easy bits the flags carry.  The body is back among the
    simulator's objects and is not among its moving bodies. *)
Theorem hard_update_to_static
    (s : PhysicsEngine) (p b sh : ptr) (ms : CustomMotionState) (body : btRigidBody)
    (shape : btCollisionShape) (w : btDiscreteDynamicsWorld) (flags : Z) :
  motionStates s !! p = Some ms ->
  _body ms = Some b ->
  rigidBodies s !! b = Some body ->
  _dynamicsWorld s = Some w ->
  m_collisionShape body = Some sh ->
  shapes s !! sh = Some shape ->
  getMotionType ms = MOTION_TYPE_STATIC ->
  has flags PHYSICS_UPDATE_HARD = true ->
  has flags PHYSICS_UPDATE_SHAPE = false ->
  exists s' body' w',
    updateEntity p flags s = Return true s'
    /\ rigidBodies s' !! b = Some body'
    /\ _dynamicsWorld s' = Some w'
    /\ isStaticObject body' = true
    /\ isKinematicObject body' = false
    /\ m_inverseMass body' = F32.zero
    /\ m_activationState1 body' = DISABLE_SIMULATION
    /\ m_linearVelocity body' = vec3_zero
    /\ m_angularVelocity body' = vec3_zero
    /\ m_collisionObjects w' = array_remove b (m_collisionObjects w) ++ [b]
    /\ m_nonStaticRigidBodies w' = array_remove b (m_nonStaticRigidBodies w).
Proof.
  intros Hms Hb Hbody Hw Hsh Hshape Htype Hhard Hnoshape.
  destruct s as [dw sm vox off clk shp cobj rb mst nxt]. simp_state. subst dw.
  unfold updateEntity, updateEntityHard, updateEntityEasy, applyVelocities, applyGravity,
    bodyLocalInertia.
  rewrite Hhard, Hnoshape.
  destruct (has flags PHYSICS_UPDATE_EASY);
    [destruct (has flags PHYSICS_UPDATE_POSITION), (has flags PHYSICS_UPDATE_VELOCITY),
       (has flags PHYSICS_UPDATE_MASS)|].
  all: repeat first
         [ progress run
         | rewrite Htype
         | progress cbn [m_collisionShape setFriction setRestitution setGravity
                         setAngularVelocity setLinearVelocity setWorldTransform
                         setMassProps updateInertiaTensor]
         | rewrite (proj1 (keepsLinks_activate _ _))
         | rewrite Hsh ].
  all: match goal with
       | |- context [addRigidBody ?p0
                       (setAngularVelocity vec3_zero
                          (setLinearVelocity vec3_zero
                             (updateInertiaTensor
                                (setMassProps F32.zero vec3_zero
                                   (forceActivationState DISABLE_SIMULATION
                                      (setCollisionFlags _ ?y)))))) ?w0] =>
           destruct (static_branch y) as (Hst & Hki & Him & Hact & Hlv & Hav & Hshy);
           cbv zeta in Hst, Hki, Him, Hact, Hlv, Hav, Hshy;
           assert (Hy : m_collisionShape y = Some sh)
             by (cbn [m_collisionShape setFriction setRestitution setGravity
                      setAngularVelocity setLinearVelocity setWorldTransform
                      setMassProps updateInertiaTensor];
                 rewrite ?(proj1 (keepsLinks_activate _ _));
                 cbn [m_collisionShape setFriction setRestitution setGravity
                      setAngularVelocity setLinearVelocity setWorldTransform
                      setMassProps updateInertiaTensor];
                 exact Hsh);
           rewrite Hy in Hshy;
           destruct (reinsert_static p0 sh _ w0 Hst Hshy (or_introl Hact)) as [Hadd Hfinal];
           rewrite Hadd
       end.
  all: run; rewrite Hfinal; eexists _, _, _; (split; [reflexivity|]); exec;
       rewrite lookup_insert_eq.
  all: repeat (split; [first [reflexivity|assumption]|]); reflexivity.
Qed.

(** X19.  A hard update (without [Shape]) of a proxy that reports
    Kinematic returns [true] and leaves the body kinematic, without mass
    and never deactivating.  The zero mass it sets brings the static flag
    back, so the body carries both flags, unlike a body that [addEntity]
    builds kinematic, and is not among the simulator's moving bodies. *)
Theorem hard_update_to_kinematic
    (s : PhysicsEngine) (p b sh : ptr) (ms : CustomMotionState) (body : btRigidBody)
    (shape : btCollisionShape) (w : btDiscreteDynamicsWorld) (flags : Z) :
  motionStates s !! p = Some ms ->
  _body ms = Some b ->
  rigidBodies s !! b = Some body ->
  _dynamicsWorld s = Some w ->
  m_collisionShape body = Some sh ->
  shapes s !! sh = Some shape ->
  getMotionType ms = MOTION_TYPE_KINEMATIC ->
  has flags PHYSICS_UPDATE_HARD = true ->
  has flags PHYSICS_UPDATE_SHAPE = false ->
  exists s' body' w',
    updateEntity p flags s = Return true s'
    /\ rigidBodies s' !! b = Some body'
    /\ _dynamicsWorld s' = Some w'
    /\ isKinematicObject body' = true
    /\ isStaticObject body' = true
    /\ m_inverseMass body' = F32.zero
    /\ m_activationState1 body' = DISABLE_DEACTIVATION
    /\ m_collisionObjects w' = array_remove b (m_collisionObjects w) ++ [b]
    /\ m_nonStaticRigidBodies w' = array_remove b (m_nonStaticRigidBodies w).
Proof.
  intros Hms Hb Hbody Hw Hsh Hshape Htype Hhard Hnoshape.
  destruct s as [dw sm vox off clk shp cobj rb mst nxt]. simp_state. subst dw.
  unfold updateEntity, updateEntityHard, updateEntityEasy, applyVelocities, applyGravity,
    bodyLocalInertia.
  rewrite Hhard, Hnoshape.
  destruct (has flags PHYSICS_UPDATE_EASY);
    [destruct (has flags PHYSICS_UPDATE_POSITION), (has flags PHYSICS_UPDATE_VELOCITY),
       (has flags PHYSICS_UPDATE_MASS)|].
  all: repeat first
         [ progress run
         | rewrite Htype
         | progress cbn [m_collisionShape setFriction setRestitution setGravity
                         setAngularVelocity setLinearVelocity setWorldTransform
                         setMassProps updateInertiaTensor]
         | rewrite (proj1 (keepsLinks_activate _ _))
         | rewrite Hsh ].
  all: match goal with
       | |- context [addRigidBody ?p0
                       (updateInertiaTensor
                          (setMassProps F32.zero vec3_zero
                             (forceActivationState DISABLE_DEACTIVATION
                                (setCollisionFlags _ ?y)))) ?w0] =>
           destruct (kinematic_branch y) as (Hst & Hki & Him & Hact & Hshy);
           cbv zeta in Hst, Hki, Him, Hact, Hshy;
           assert (Hy : m_collisionShape y = Some sh)
             by (cbn [m_collisionShape setFriction setRestitution setGravity
                      setAngularVelocity setLinearVelocity setWorldTransform
                      setMassProps updateInertiaTensor];
                 rewrite ?(proj1 (keepsLinks_activate _ _));
                 cbn [m_collisionShape setFriction setRestitution setGravity
                      setAngularVelocity setLinearVelocity setWorldTransform
                      setMassProps updateInertiaTensor];
                 exact Hsh);
           rewrite Hy in Hshy;
           destruct (reinsert_static p0 sh _ w0 Hst Hshy (or_intror Hact)) as [Hadd Hfinal];
           rewrite Hadd
       end.
  all: run; rewrite Hfinal; eexists _, _, _; (split; [reflexivity|]); exec;
       rewrite lookup_insert_eq.
  all: repeat (split; [first [reflexivity|assumption]|]); reflexivity.
Qed.

(** X25.  A hard update (without [Shape]) of a proxy that reports
    Dynamic with a non-zero mass, on a body that is not in
    [DISABLE_SIMULATION] (flags that carry [Mass] also carrying an easy
    bit, so that the easy steps run): whatever the body was, the call
    returns [true] and the body has neither the static nor the kinematic
    flag, the reciprocal of the proxy's mass, is active, and is back among
    the simulator's objects and among its moving bodies. *)
Theorem hard_update_to_dynamic
    (s : PhysicsEngine) (p b sh : ptr) (ms : CustomMotionState) (body : btRigidBody)
    (shape : btCollisionShape) (w : btDiscreteDynamicsWorld) (flags : Z) :
  motionStates s !! p = Some ms ->
  _body ms = Some b ->
  rigidBodies s !! b = Some body ->
  _dynamicsWorld s = Some w ->
  m_collisionShape body = Some sh ->
  shapes s !! sh = Some shape ->
  getMotionType ms = MOTION_TYPE_DYNAMIC ->
  F32.eqb (getMass ms) F32.zero = false ->
  m_activationState1 body ≠ DISABLE_SIMULATION ->
  has flags PHYSICS_UPDATE_HARD = true ->
  has flags PHYSICS_UPDATE_SHAPE = false ->
  (has flags PHYSICS_UPDATE_MASS = true -> has flags PHYSICS_UPDATE_EASY = true) ->
  exists s' body' w',
    updateEntity p flags s = Return true s'
    /\ rigidBodies s' !! b = Some body'
    /\ _dynamicsWorld s' = Some w'
    /\ isStaticObject body' = false
    /\ isKinematicObject body' = false
    /\ m_inverseMass body' = F32.div F32.one (getMass ms)
    /\ isActive body' = true
    /\ m_collisionObjects w' = array_remove b (m_collisionObjects w) ++ [b]
    /\ m_nonStaticRigidBodies w' = array_remove b (m_nonStaticRigidBodies w) ++ [b].
Proof.
  intros Hms Hb Hbody Hw Hsh Hshape Hdyn Hmass Hact Hhard Hnoshape Heasy.
  destruct s as [dw sm vox off clk shp cobj rb mst nxt]. simp_state. subst dw.
  unfold updateEntity, updateEntityHard, updateEntityEasy, applyVelocities, applyGravity,
    bodyLocalInertia.
  rewrite Hhard, Hnoshape.
  destruct (has flags PHYSICS_UPDATE_MASS) eqn:HM; [rewrite (Heasy eq_refl)|];
    [|destruct (has flags PHYSICS_UPDATE_EASY)];
    destruct (has flags PHYSICS_UPDATE_POSITION), (has flags PHYSICS_UPDATE_VELOCITY).
  all: repeat first
         [ progress run
         | rewrite Hdyn
         | progress cbn [negb]
         | progress cbn [m_collisionShape setFriction setRestitution setGravity
                         setAngularVelocity setLinearVelocity setWorldTransform
                         setMassProps updateInertiaTensor setCollisionFlags]
         | rewrite (proj1 (keepsLinks_activate _ _))
         | rewrite Hsh ].
  all: match goal with |- context [addRigidBody ?p0 ?x ?w0] =>
         assert (Hx : m_collisionShape x = Some sh)
           by (repeat first
                 [ rewrite (proj1 (keepsLinks_activate _ _))
                 | progress cbn [m_collisionShape setFriction setRestitution setGravity
                                 setAngularVelocity setLinearVelocity setWorldTransform
                                 setMassProps updateInertiaTensor setCollisionFlags] ];
               exact Hsh);
         destruct (addRigidBody p0 x w0) as [b' w'] eqn:Hadd;
         destruct (addRigidBody_world _ _ _ _ _ _ Hadd Hx) as [Hobjs Hmoving]
       end.
  all: run; eexists _, _, _; (split; [reflexivity|]); exec; rewrite lookup_insert_eq;
       (split; [reflexivity|]); (split; [reflexivity|]).
  all: rewrite <- (invOrZero_nonzero _ Hmass).
  all: lazymatch type of Hadd with
       | addRigidBody _ (activate true (updateInertiaTensor
           (setMassProps ?m ?i (setCollisionFlags _ ?y)))) _ = _ =>
           destruct (dynamic_branch_sets_mass y m i) as (Hm & Hv & Ha);
             [ first [ apply activate_not_disabled; now destruct body | assumption ]
             | assumption
             | rewrite <- (invOrZero_nonzero _ Hmass) in Hv;
               destruct (reinsert_moving _ _ _ _ _ _ Hadd Hm Hv Ha) as (H1 & H2 & H3 & H4) ]
       | addRigidBody _ (activate true (setCollisionFlags _ ?y)) _ = _ =>
           destruct (dynamic_branch_mass_set y (invOrZero (getMass ms))) as (Hm & Hv & Ha);
             [ apply activate_not_disabled; now destruct body
             | now rewrite activate_inverseMass
             | destruct (reinsert_moving _ _ _ _ _ _ Hadd Hm Hv Ha) as (H1 & H2 & H3 & H4) ]
       end.
  all: rewrite (proj1 Hm) in Hmoving.
  all: repeat (split; [assumption|]); assumption.
Qed.

(** X17.  The hard path applies the mass only through its easy steps,
    and the dynamic branch skips the mass when the flags carry [Mass].  So
    a hard update of a Dynamic proxy whose flags carry [Mass] and no easy
    bit returns [true] with the body's inverse mass and inverse inertia
    as they were: the proxy's mass is not read. *)
Theorem hard_update_with_mass_alone_keeps_the_mass
    (s : PhysicsEngine) (p b : ptr) (ms : CustomMotionState) (body : btRigidBody)
    (flags : Z) :
  motionStates s !! p = Some ms ->
  _body ms = Some b ->
  rigidBodies s !! b = Some body ->
  is_Some (_dynamicsWorld s) ->
  getMotionType ms = MOTION_TYPE_DYNAMIC ->
  has flags PHYSICS_UPDATE_HARD = true ->
  has flags PHYSICS_UPDATE_SHAPE = false ->
  has flags PHYSICS_UPDATE_MASS = true ->
  has flags PHYSICS_UPDATE_EASY = false ->
  exists s' body',
    updateEntity p flags s = Return true s'
    /\ rigidBodies s' !! b = Some body'
    /\ m_inverseMass body' = m_inverseMass body
    /\ m_invInertiaLocal body' = m_invInertiaLocal body.
Proof.
  intros Hms Hb Hbody [w Hw] Htype Hhard Hnoshape Hmass Hnoeasy.
  destruct s as [dw sm vox off clk shp cobj rb mst nxt]. simp_state. subst dw.
  unfold updateEntity, updateEntityHard.
  rewrite Hhard, Hnoshape, Hmass, Hnoeasy.
  repeat first [progress run | rewrite Htype | progress cbn [negb]].
  match goal with |- context [addRigidBody ?p0 ?x ?w0] =>
    destruct (addRigidBody p0 x w0) as [b' w'] eqn:Hadd;
    apply addRigidBody_keeps_mass in Hadd as [Hm Hi]
  end.
  run. eexists _, _. split; [reflexivity|]. exec. rewrite lookup_insert_eq.
  split; [reflexivity|].
  destruct (activate_keeps_mass false b') as [-> ->]. rewrite Hm, Hi.
  match goal with |- context [activate true ?x] =>
    destruct (activate_keeps_mass true x) as [-> ->]
  end.
  now destruct body.
Qed.

(** X20.  A hard update with [Shape] and [Mass] and an easy bit, for a
    descriptor the cache rejects, gives the body a null shape and then, in
    its easy steps, asks that shape for the inertia: the call
    dereferences a null pointer. *)
Theorem hard_update_with_rejected_shape_faults
    (s : PhysicsEngine) (p b : ptr) (ms : CustomMotionState) (flags : Z) :
  motionStates s !! p = Some ms ->
  _body ms = Some b ->
  has flags PHYSICS_UPDATE_HARD = true ->
  has flags PHYSICS_UPDATE_SHAPE = true ->
  has flags PHYSICS_UPDATE_MASS = true ->
  has flags PHYSICS_UPDATE_EASY = true ->
  ~ accepted s (computeShapeInfo ms) ->
  updateEntity p flags s = Fault.
Proof.
  intros Hms Hb Hhard Hshape Hmass Heasy Hrej.
  destruct s as [dw sm vox off clk shp cobj rb mst nxt].
  unfold accepted in Hrej. simp_state.
  assert (Hmiss : sm !! ShapeKey (computeShapeInfo ms) = None).
  { destruct (sm !! _) eqn:H; [exfalso; apply Hrej; eauto|reflexivity]. }
  assert (Hnone : createShape (computeShapeInfo ms) = None).
  { destruct (createShape _) eqn:H; [exfalso; apply Hrej; eauto|reflexivity]. }
  unfold updateEntity, updateEntityHard, updateEntityEasy, applyVelocities, applyGravity,
    bodyLocalInertia, getShape, releaseShapePtr, releaseShape.
  rewrite Hhard, Hshape, Hmass, Heasy. run.
  destruct (rb !! b) as [body|] eqn:Hbody; [|reflexivity]. run.
  destruct dw as [w|]; [|reflexivity]. run.
  rewrite orb_true_r.
  destruct (m_collisionShape body) as [old|] eqn:Hold.
  - rewrite bool_decide_eq_true_2 by discriminate. run.
    destruct (shp !! old) as [oldShape|] eqn:Hlive; [|reflexivity]. run.
    destruct (sm !! ShapeKey (collectInfo oldShape)) as [shapeRef|];
      [destruct (_ =? 0)|];
      destruct (has flags PHYSICS_UPDATE_POSITION), (has flags PHYSICS_UPDATE_VELOCITY);
      repeat first [progress run | progress cbn [m_collisionShape setCollisionShape
        setFriction setRestitution setGravity setAngularVelocity setLinearVelocity
        setWorldTransform]]; reflexivity.
  - rewrite bool_decide_eq_false_2 by (intros H; now apply H). run.
    destruct (sm !! ShapeKey InvalidShapeInfo) as [shapeRef|];
      [destruct (_ =? 0)|];
      destruct (has flags PHYSICS_UPDATE_POSITION), (has flags PHYSICS_UPDATE_VELOCITY);
      repeat first [progress run | rewrite Hold | progress cbn [m_collisionShape
        setCollisionShape setFriction setRestitution setGravity setAngularVelocity
        setLinearVelocity setWorldTransform]]; reflexivity.
Qed.

End HardResults.

(** ** Hard updates that change the shape *)

Lemma triple_exists {A X} (F : Prop) (P : X -> PhysicsEngine -> Prop) (m : M A)
    (Q : A -> PhysicsEngine -> Prop) (E : PhysicsEngine -> Prop) :
  (forall x, triple F (P x) m Q E) -> triple F (fun s => exists x, P x s) m Q E.
Proof. intros H s [x Hx]. now apply (H x). Qed.

Section ShapeSwap.

Context {env : Environment}.
Variables (s0 : PhysicsEngine) (p b sh : ptr) (ms : CustomMotionState).
Variables (body : btRigidBody) (oldShape : btCollisionShape) (oldRef : ShapeReference).
Variables (w : btDiscreteDynamicsWorld) (flags : Z).

Hypothesis Hms : motionStates s0 !! p = Some ms.
Hypothesis Hb : _body ms = Some b.
Hypothesis Hbody : rigidBodies s0 !! b = Some body.
Hypothesis Hsh : m_collisionShape body = Some sh.
Hypothesis Hold : shapes s0 !! sh = Some oldShape.
Hypothesis Hw : _dynamicsWorld s0 = Some w.
Hypothesis Hcached : _shapeManager s0 !! ShapeKey (collectInfo oldShape) = Some oldRef.
Hypothesis Hheld : _shape oldRef = sh.
Hypothesis Hsound : cacheSound s0.
Hypothesis Hfresh : map_Forall (fun x _ => (x < nextAddress s0)%positive) (shapes s0).
Hypothesis Hacc : accepted s0 (computeShapeInfo ms).
Hypothesis Hnew : ShapeKey (computeShapeInfo ms) ≠ ShapeKey (collectInfo oldShape).
Hypothesis Hmass : has flags PHYSICS_UPDATE_MASS = true.

Local Abbreviation kNew := (ShapeKey (computeShapeInfo ms)).
Local Abbreviation kOld := (ShapeKey (collectInfo oldShape)).

(** The state after the shape step, as far as the rest of the update and
    the cache are concerned. *)
Local Abbreviation swapped s :=
  (exists sh' shape',
     cacheFrame s p b ms sh' shape' s
     /\ ShapeKey (collectInfo shape') = kNew
     /\ (_shape <$> _shapeManager s !! kNew) = Some sh'
     /\ refCount s kNew = refCount s0 kNew + 1
     /\ refCount s kOld = refCount s0 kOld - 1
     /\ (forall k, k ≠ kNew -> k ≠ kOld -> _shapeManager s !! k = _shapeManager s0 !! k)).

Lemma shapeStep_swaps :
  triple False
    (fun s => s = set_dynamicsWorld (Some (removeRigidBody b w)) s0)
    (newShape ← getShape (computeShapeInfo ms);
     (if bool_decide (newShape ≠ Some sh)
      then modifyBody b (setCollisionShape newShape);;
           releaseShapePtr (Some sh)
      else releaseShapePtr newShape);;
     assert (has flags PHYSICS_UPDATE_MASS))
    (fun _ s => swapped s) (fun _ => False).
Proof.
  intros s ->. revert Hms Hbody Hold Hw Hcached Hsound Hfresh Hacc.
  unfold accepted, cacheSound, refCount.
  destruct s0 as [dw sm vox off clk shp cobj rb mst nxt]. simp_state.
  intros Hms' Hbody' Hold' Hw' Hcached' Hsound' Hfresh' Hacc'.
  assert (Hposold : 0 < _refCount oldRef) by (now destruct (Hsound' _ _ Hcached')).
  unfold getShape, releaseShapePtr, releaseShape. rewrite Hmass. exec.
  destruct (sm !! kNew) as [newRef|] eqn:Hhit.
  - destruct (Hsound' _ _ Hhit) as [Hpos Hlive].
    destruct (shp !! _shape newRef) as [shape'|] eqn:Hshape'; [|discriminate].
    injection Hlive as Hkey.
    assert (Hne : _shape newRef ≠ sh).
    { intros Heq. rewrite Heq, Hold' in Hshape'. injection Hshape' as <-.
      now apply Hnew. }
    rewrite bool_decide_eq_true_2 by congruence. run.
    rewrite lookup_insert_ne by congruence. rewrite Hcached'. cbn [_refCount _shape].
    rewrite Hheld.
    destruct (_refCount oldRef - 1 =? 0) eqn:Hz; run; rewrite orb_true_r;
      exists (_shape newRef), shape'.
    + unfold cacheFrame. simp_state.
      rewrite lookup_delete_ne by congruence.
      rewrite lookup_delete_ne by congruence. rewrite !lookup_insert_eq, lookup_delete_eq.
      cbn. apply Z.eqb_eq in Hz.
      repeat split; eauto; try lia.
      intros k Hk1 Hk2. now rewrite lookup_delete_ne, lookup_insert_ne by congruence.
    + unfold cacheFrame. simp_state.
      rewrite (lookup_insert_ne _ kOld kNew) by congruence.
      rewrite !lookup_insert_eq. cbn.
      repeat split; eauto; try lia.
      intros k Hk1 Hk2. now rewrite !lookup_insert_ne by congruence.
  - destruct Hacc' as [[? [=]]|[shape' Hcreate]]. rewrite Hcreate. run.
    assert (Hne : nxt ≠ sh).
    { intros ->. apply Hfresh' in Hold'. cbn in Hold'. lia. }
    rewrite bool_decide_eq_true_2 by congruence. run.
    rewrite lookup_insert_ne by congruence. rewrite Hold'. run.
    rewrite lookup_insert_ne by congruence. rewrite Hcached'. cbn [_refCount _shape].
    rewrite Hheld.
    pose proof (createShape_collectInfo _ _ Hcreate) as Hinfo.
    destruct (_refCount oldRef - 1 =? 0) eqn:Hz; run; rewrite orb_true_r;
      exists nxt, shape'.
    + unfold cacheFrame. simp_state.
      rewrite lookup_delete_ne by congruence.
      rewrite lookup_delete_ne by congruence. rewrite !lookup_insert_eq, lookup_delete_eq.
      cbn. apply Z.eqb_eq in Hz. rewrite Hinfo.
      repeat split; eauto; try lia.
      intros k Hk1 Hk2. now rewrite lookup_delete_ne, lookup_insert_ne by congruence.
    + unfold cacheFrame. simp_state.
      rewrite (lookup_insert_ne _ kOld kNew) by congruence.
      rewrite !lookup_insert_eq. cbn. rewrite Hinfo.
      repeat split; eauto; try lia.
      intros k Hk1 Hk2. now rewrite !lookup_insert_ne by congruence.
Qed.

(** The rest of a hard update keeps the cache and the body's shape. *)
Lemma hard_update_tail_keeps_shape (sX : PhysicsEngine) (sh' : ptr)
    (shape' : btCollisionShape) :
  triple False (cacheFrame sX p b ms sh' shape')
    (when (has flags PHYSICS_UPDATE_EASY) (updateEntityEasy b p flags);;
     match getMotionType ms with
     | MOTION_TYPE_KINEMATIC =>
         modifyBody b (fun b =>
           setCollisionFlags
             (Z.land (Z.lor (m_collisionFlags b) CF_KINEMATIC_OBJECT)
                (Z.lnot CF_STATIC_OBJECT)) b);;
         modifyBody b (forceActivationState DISABLE_DEACTIVATION);;
         modifyBody b (setMassProps F32.zero vec3_zero);;
         modifyBody b updateInertiaTensor
     | MOTION_TYPE_DYNAMIC =>
         modifyBody b (fun b =>
           setCollisionFlags
             (Z.land (m_collisionFlags b)
                (Z.lnot (Z.lor CF_KINEMATIC_OBJECT CF_STATIC_OBJECT))) b);;
         when (negb (has flags PHYSICS_UPDATE_MASS))
           (let mass := getMass ms in
            inertia ← bodyLocalInertia b mass;
            modifyBody b (setMassProps mass inertia);;
            modifyBody b updateInertiaTensor);;
         modifyBody b (activate true)
     | MOTION_TYPE_STATIC =>
         modifyBody b (fun b =>
           setCollisionFlags
             (Z.land (Z.lor (m_collisionFlags b) CF_STATIC_OBJECT)
                (Z.lnot CF_KINEMATIC_OBJECT)) b);;
         modifyBody b (forceActivationState DISABLE_SIMULATION);;
         modifyBody b (setMassProps F32.zero vec3_zero);;
         modifyBody b updateInertiaTensor;;
         modifyBody b (setLinearVelocity vec3_zero);;
         modifyBody b (setAngularVelocity vec3_zero)
     end;;
     world_addRigidBody b;;
     modifyBody b (activate false))
    (fun _ => cacheFrame sX p b ms sh' shape') (fun _ => False).
Proof.
  pose proof (cacheFrame_ms sX p b sh' ms shape') as G_ms.
  pose proof (cacheFrame_stable sX p b sh' ms shape') as G_stable.
  pose proof (cacheFrame_live sX p b sh' ms shape') as G_live.
  apply triple_bind with (R := fun _ => cacheFrame sX p b ms sh' shape').
  { apply triple_when; [|auto]. intros _.
    now apply (inv_updateEntityEasy False _ _ p b ms). }
  intros _. apply triple_bind with (R := fun _ => cacheFrame sX p b ms sh' shape').
  { destruct (getMotionType ms);
      repeat first
        [ apply inv_bind; [|intros _]
        | apply inv_when
        | apply (inv_bodyLocalInertia False _ _ b); [assumption|intros ?]
        | apply (inv_modifyBody False _ _ b); [assumption|assumption|auto with links] ]. }
  intros _. apply triple_bind with (R := fun _ => cacheFrame sX p b ms sh' shape').
  { apply triple_world_addRigidBody.
    - intros s body1 w1 b' w' Hs Hbody1 Hw1 Hadd.
      apply addRigidBody_spec in Hadd as (Hmo & Hsh' & _).
      apply (cacheFrame_world _ _ _ _ _ _ (set_rigidBodies _ s)).
      now apply (G_stable s body1).
    - intros s (_ & (body1 & Hb1 & _) & _ & Hw1 & _). right. split; [eauto|assumption]. }
  intros _. apply (inv_modifyBody False _ _ b); [assumption|assumption|auto with links].
Qed.

(** X21.  A hard update with [Shape] and [Mass] whose new descriptor the
    cache accepts and that differs from the descriptor of the shape the
    body holds moves one reference: the call returns [true], the body
    holds the cached shape of the new descriptor, whose count is one more
    than before (one, when it was not cached), the old descriptor's count
    is one less (and its entry gone when that was the last reference),
    and no other cache entry is touched. *)
Theorem hard_update_swaps_the_shape :
  has flags PHYSICS_UPDATE_HARD = true ->
  has flags PHYSICS_UPDATE_SHAPE = true ->
  exists s' body' sh' shape',
    updateEntity p flags s0 = Return true s'
    /\ rigidBodies s' !! b = Some body'
    /\ m_collisionShape body' = Some sh'
    /\ shapes s' !! sh' = Some shape'
    /\ ShapeKey (collectInfo shape') = kNew
    /\ (_shape <$> _shapeManager s' !! kNew) = Some sh'
    /\ refCount s' kNew = refCount s0 kNew + 1
    /\ refCount s' kOld = refCount s0 kOld - 1
    /\ (forall k, k ≠ kNew -> k ≠ kOld -> _shapeManager s' !! k = _shapeManager s0 !! k).
Proof.
  intros Hhard Hshape.
  set (Post := fun s : PhysicsEngine =>
         exists sX, swapped sX
           /\ exists sh' shape', cacheFrame sX p b ms sh' shape' s
                /\ (_shape <$> _shapeManager sX !! kNew) = Some sh'
                /\ ShapeKey (collectInfo shape') = kNew).
  assert (Hrun : triple False (fun s => s = s0) (updateEntity p flags)
            (fun r s => r = true /\ Post s) (fun _ => False)).
  { unfold updateEntity.
    apply triple_deref_known with (a := ms); [intros s Hs; now subst s|]. rewrite Hb, Hhard.
    apply triple_bind with (R := fun _ => Post);
      [|intros _; apply triple_ret; intros s Hs; now split].
    unfold updateEntityHard.
    apply triple_deref_known with (a := ms); [intros s Hs; now subst s|].
    apply triple_deref_known with (a := body); [intros s Hs; now subst s|]. cbv zeta.
    rewrite Hsh, Hshape.
    apply triple_bind with
      (R := fun _ s => s = set_dynamicsWorld (Some (removeRigidBody b w)) s0).
    { apply triple_world_removeRigidBody.
      - intros s w1 Hs Hw1. subst s. rewrite Hw in Hw1. now injection Hw1 as <-.
      - intros s Hs. subst s. right. eauto. }
    intros _. apply triple_bind with (R := fun _ s => swapped s); [apply shapeStep_swaps|].
    intros _ s Hs. pose proof Hs as (sh' & shape' & HG & Hkey & Hptr & _).
    pose proof (hard_update_tail_keeps_shape s sh' shape' s HG) as Htail.
    match type of Htail with match ?m' s with _ => _ end =>
      match goal with |- match ?m s with _ => _ end => change m with m' end;
      destruct (m' s) as [r s'|s'|]; [|contradiction..]
    end.
    exists s. split; [assumption|]. exists sh', shape'. auto. }
  specialize (Hrun s0 eq_refl).
  destruct (updateEntity p flags s0) as [r s'|s'|]; [|contradiction..].
  destruct Hrun as (-> & sX & (sh1 & shape1 & _ & _ & Hptr1 & Hcnew & Hcold & Hothers)
                       & sh' & shape' & (Hms' & (body' & Hbody' & Hsh') & Hlive & _ & Hsm)
                       & Hptr & Hkey).
  exists s', body', sh', shape'. unfold refCount in *. rewrite Hsm.
  repeat split; assumption.
Qed.

End ShapeSwap.

(** ** World gravity and reinsertion *)

Lemma activate_gravity (force : bool) (b : btRigidBody) :
  m_gravity_acceleration (activate force b) = m_gravity_acceleration b.
Proof. now destruct (activate_keeps force b) as (_ & _ & _ & _ & -> & _). Qed.

Lemma activate_rigidbodyFlags (force : bool) (b : btRigidBody) :
  m_rigidbodyFlags (activate force b) = m_rigidbodyFlags b.
Proof. now destruct (activate_keeps force b) as (_ & _ & _ & _ & _ & _ & ->). Qed.

Section GravityStaysOut.

Context {env : Environment}.

(** X22.  No update writes the rigid-body flags, so a body that has
    opted out of the world's gravity is reinserted by a hard update
    (without [Shape]) with the opt-out in place, for every motion type:
    its gravity afterwards is the proxy's when the easy steps ran with
    [Velocity], and what it was otherwise, never the world's. *)
Theorem hard_update_keeps_world_gravity_out
    (s : PhysicsEngine) (p b sh : ptr) (ms : CustomMotionState) (body : btRigidBody)
    (shape : btCollisionShape) (flags : Z) :
  motionStates s !! p = Some ms ->
  _body ms = Some b ->
  rigidBodies s !! b = Some body ->
  is_Some (_dynamicsWorld s) ->
  m_collisionShape body = Some sh ->
  shapes s !! sh = Some shape ->
  has (m_rigidbodyFlags body) BT_DISABLE_WORLD_GRAVITY = true ->
  has flags PHYSICS_UPDATE_HARD = true ->
  has flags PHYSICS_UPDATE_SHAPE = false ->
  exists s' body',
    updateEntity p flags s = Return true s'
    /\ rigidBodies s' !! b = Some body'
    /\ m_rigidbodyFlags body' = m_rigidbodyFlags body
    /\ m_gravity_acceleration body'
       = (if has flags PHYSICS_UPDATE_EASY && has flags PHYSICS_UPDATE_VELOCITY
          then entityGravity ms
          else m_gravity_acceleration body).
Proof.
  intros Hms Hb Hbody [w Hw] Hsh Hshape Hout Hhard Hnoshape.
  destruct s as [dw sm vox off clk shp cobj rb mst nxt]. simp_state. subst dw.
  unfold updateEntity, updateEntityHard, updateEntityEasy, applyVelocities, applyGravity,
    bodyLocalInertia.
  rewrite Hhard, Hnoshape.
  destruct (has flags PHYSICS_UPDATE_EASY);
    [destruct (has flags PHYSICS_UPDATE_POSITION), (has flags PHYSICS_UPDATE_VELOCITY)|];
    destruct (has flags PHYSICS_UPDATE_MASS); destruct (getMotionType ms) eqn:Htype.
  all: repeat first
         [ progress run
         | rewrite Htype
         | progress cbn [negb]
         | progress cbn [m_collisionShape setFriction setRestitution setGravity
                         setAngularVelocity setLinearVelocity setWorldTransform
                         setMassProps updateInertiaTensor setCollisionFlags
                         forceActivationState]
         | rewrite (proj1 (keepsLinks_activate _ _))
         | rewrite Hsh ].
  all: match goal with |- context [addRigidBody ?p0 ?x ?w0] =>
         destruct (addRigidBody p0 x w0) as [b' w'] eqn:Hadd;
         apply addRigidBody_spec in Hadd as (_ & _ & _ & Hrf & _ & _ & Hg & _);
         repeat first
           [ rewrite activate_gravity in Hg
           | rewrite activate_rigidbodyFlags in Hg
           | rewrite activate_rigidbodyFlags in Hrf
           | progress cbn [m_rigidbodyFlags m_gravity_acceleration setFriction
                           setRestitution setGravity setAngularVelocity setLinearVelocity
                           setWorldTransform setMassProps updateInertiaTensor
                           setCollisionFlags forceActivationState] in Hrf, Hg ];
         specialize (Hg Hout)
       end.
  all: run; eexists _, _; (split; [reflexivity|]); exec; rewrite lookup_insert_eq;
       (split; [reflexivity|]).
  all: rewrite activate_gravity, activate_rigidbodyFlags.
  all: now rewrite Hrf, Hg.
Qed.

End GravityStaysOut.

(** ** What removal leaves behind *)

Section Removal.

Context {env : Environment}.



(** X24.  A [removeVoxel] that returns [true] leaves no trace of the
    voxel either: its key is free again, its object is freed and, the
    simulator holding no object twice, no longer listed, while every
    other object of the simulator, every other voxel, the bodies and the
    proxies are where they were. *)
Theorem removeVoxel_leaves_no_dangling_object
    (s s' : PhysicsEngine) (position : vec3) (scale : float) :
  NoDup (worldObjects s) ->
  removeVoxel position scale s = Return true s' ->
  exists vo object,
    _voxels s !! voxelKey position scale = Some vo
    /\ _object vo = Some object
    /\ _voxels s' = delete (voxelKey position scale) (_voxels s)
    /\ collisionObjects s' = delete object (collisionObjects s)
    /\ (object ∉ worldObjects s')
    /\ (forall x, x ∈ worldObjects s' <-> x ∈ worldObjects s /\ x ≠ object)
    /\ rigidBodies s' = rigidBodies s
    /\ motionStates s' = motionStates s.
Proof.
  intros Hnd. destruct s as [dw sm vox off clk shp cobj rb mst nxt].
  unfold worldObjects in Hnd. simp_state.
  unfold removeVoxel, releaseShape, voxelKey, worldObjects. exec.
  destruct (vox !! _) as [vo|] eqn:Hvo; [|discriminate].
  destruct (NDEBUG || bool_decide (is_Some (_object vo))); [|discriminate].
  destruct (_object vo) as [object|] eqn:Hobj; [|discriminate].
  destruct dw as [w|]; [|discriminate]. run.
  destruct (sm !! _) as [shapeRef|]; [destruct (_ =? 0)|]; run;
    (destruct (NDEBUG || _); [|discriminate]);
    intros [_ <-]%Return_inj; exec; exists vo, object;
    (assert (Hin : forall x, x ∈ array_remove object (m_collisionObjects w)
                     <-> x ∈ m_collisionObjects w /\ x ≠ object)
       by (intros x; now apply array_remove_elem));
    (split; [reflexivity|]); (split; [assumption|]); (split; [reflexivity|]);
    (split; [reflexivity|]); (split; [intros Hx%Hin; now destruct Hx|]);
    (split; [exact Hin|]); split; reflexivity.
Qed.

End Removal.

(** ** Entities and voxels do not interfere *)

Section UpdateKeepsVoxels.

Context {env : Environment}.
Variables (s0 : PhysicsEngine) (p : ptr) (ms : CustomMotionState) (flags : Z).
Hypothesis Hms : motionStates s0 !! p = Some ms.

Local Abbreviation G :=
  (fun s : PhysicsEngine =>
     _voxels s = _voxels s0
     /\ collisionObjects s = collisionObjects s0
     /\ motionStates s = motionStates s0).

Lemma voxels_kept_ms s : G s -> motionStates s !! p = Some ms.
Proof. intros (_ & _ & ->). exact Hms. Qed.

Lemma voxels_kept_stable b : stableBody G b.
Proof. intros s body body' HG _ _ _. now destruct s. Qed.

Lemma voxels_kept_live (b : ptr) s :
  G s ->
  True \/ exists body sh shape,
            rigidBodies s !! b = Some body
            /\ m_collisionShape body = Some sh
            /\ shapes s !! sh = Some shape.
Proof. now left. Qed.

Lemma shapeStep_keeps_voxels (b : ptr) (oldShape : option ptr) :
  triple True G
    (newShape ← getShape (computeShapeInfo ms);
     (if bool_decide (newShape ≠ oldShape)
      then modifyBody b (setCollisionShape newShape);;
           releaseShapePtr oldShape
      else releaseShapePtr newShape);;
     assert (has flags PHYSICS_UPDATE_MASS))
    (fun _ => G) G.
Proof.
  intros s HG. destruct s as [dw sm vox off clk shp cobj rb mst nxt]. simp_state.
  unfold getShape, releaseShapePtr, releaseShape. exec.
  destruct (sm !! _) as [shapeRef|]; [|destruct (createShape _) as [shape|]]; run.
  all: destruct (bool_decide _); run.
  all: try (destruct oldShape as [old|]; run).
  all: crack; try exact I; exact HG.
Qed.

Lemma updateEntity_keeps_voxels :
  triple True G (updateEntity p flags) (fun _ => G) G.
Proof.
  pose proof voxels_kept_ms as G_ms.
  unfold updateEntity.
  apply triple_deref_known with (a := ms); [assumption|].
  destruct (_body ms) as [b|] eqn:Hb; [|now apply triple_ret].
  pose proof (voxels_kept_stable b) as G_stable.
  pose proof (voxels_kept_live b) as G_live.
  apply triple_bind with (R := fun _ => G); [|intros _; now apply triple_ret].
  destruct (has flags PHYSICS_UPDATE_HARD).
  - unfold updateEntityHard.
    apply triple_deref_known with (a := ms); [assumption|].
    apply triple_bind with (R := fun _ => G).
    { apply triple_deref. intros s HG. now destruct (rigidBodies s !! b). }
    intros body. cbv zeta.
    apply triple_bind with (R := fun _ => G).
    { apply triple_world_removeRigidBody; [|now left].
      intros s w HG _. now destruct s. }
    intros _. apply triple_bind with (R := fun _ => G).
    { apply triple_when; [|auto]. intros _. apply shapeStep_keeps_voxels. }
    intros _. apply triple_bind with (R := fun _ => G).
    { apply triple_when; [|auto]. intros _.
      now apply (inv_updateEntityEasy True _ _ p b ms). }
    intros _. apply triple_bind with (R := fun _ => G).
    { destruct (getMotionType ms);
        repeat first
          [ apply inv_bind; [|intros _]
          | apply inv_when
          | apply (inv_bodyLocalInertia True _ _ b); [assumption|intros ?]
          | apply (inv_modifyBody True _ _ b); [assumption|assumption|auto with links] ]. }
    intros _. apply triple_bind with (R := fun _ => G).
    { apply triple_world_addRigidBody; [|now left].
      intros s body1 w b' w' HG _ _ _. now destruct s. }
    intros _. apply (inv_modifyBody True _ _ b); [assumption|assumption|auto with links].
  - destruct (has flags PHYSICS_UPDATE_EASY).
    + now apply (inv_updateEntityEasy True _ _ p b ms).
    + now apply triple_ret.
Qed.

End UpdateKeepsVoxels.

Section Separation.

Context {env : Environment}.

(** X26.  The two halves of the engine do not interfere.  No entity
    operation touches the voxel map or the voxels' collision objects, and
    no voxel operation touches a body or a proxy, whatever the call
    returns; an update does not even write to a proxy. *)
Theorem entities_and_voxels_do_not_interfere (s : PhysicsEngine) :
  (forall p r s', addEntity p s = Return r s' ->
     _voxels s' = _voxels s /\ collisionObjects s' = collisionObjects s)
  /\ (forall p r s', removeEntity p s = Return r s' ->
        _voxels s' = _voxels s /\ collisionObjects s' = collisionObjects s)
  /\ (forall p flags r s', updateEntity p flags s = Return r s' ->
        _voxels s' = _voxels s /\ collisionObjects s' = collisionObjects s
        /\ motionStates s' = motionStates s)
  /\ (forall position scale r s', addVoxel position scale s = Return r s' ->
        rigidBodies s' = rigidBodies s /\ motionStates s' = motionStates s)
  /\ (forall position scale r s', removeVoxel position scale s = Return r s' ->
        rigidBodies s' = rigidBodies s /\ motionStates s' = motionStates s).
Proof.
  split; [|split; [|split; [|split]]].
  - intros p r s'. destruct s as [dw sm vox off clk shp cobj rb mst nxt].
    unfold addEntity, applyVelocities, applyGravity. exec.
    destruct (mst !! p) as [ms|] eqn:Hms; [|discriminate].
    destruct (getShape _ _) as [[sh|] sa| |] eqn:Hget; try discriminate.
    + destruct (getShape_frame _ _ _ _ Hget) as (_ & Hvox & _ & _ & Hco & _).
      destruct sa as [dwa sma voxa offa clka shpa cobja rba msta nxta]. simp_state.
      subst voxa cobja.
      destruct (getMotionType ms); crack; try discriminate;
        match goal with |- context [addRigidBody ?b ?x ?w0] =>
          destruct (addRigidBody b x w0) as [b' w']
        end; exec; intros [_ <-]%Return_inj; now split.
    + destruct (getShape_frame _ _ _ _ Hget) as (_ & Hvox & _ & _ & Hco & _).
      intros [_ <-]%Return_inj. now split.
  - intros p r s' Hrm. destruct s as [dw sm vox off clk shp cobj rb mst nxt].
    revert Hrm. unfold removeEntity, releaseShape. exec.
    destruct (mst !! p) as [ms|] eqn:Hms; [|discriminate].
    destruct (_body ms) as [b|]; [|intros [_ <-]%Return_inj; now split].
    crack; try discriminate; intros [_ <-]%Return_inj; now split.
  - intros p flags r s' Hup.
    destruct (motionStates s !! p) as [ms|] eqn:Hms.
    + pose proof (updateEntity_keeps_voxels s p ms flags Hms s) as Hrun.
      rewrite Hup in Hrun. now apply Hrun.
    + revert Hup. unfold updateEntity, mbind, M_bind, deref. now rewrite Hms.
  - intros position scale r s'. destruct s as [dw sm vox off clk shp cobj rb mst nxt].
    unfold addVoxel. exec.
    destruct (vox !! _); [intros [_ <-]%Return_inj; now split|].
    destruct (getShape _ _) as [[sh|] sa| |] eqn:Hget; try discriminate.
    + destruct (getShape_frame _ _ _ _ Hget) as (Hdw & _ & _ & _ & _ & Hrb & Hmst & _).
      destruct sa as [dwa sma voxa offa clka shpa cobja rba msta nxta]. simp_state.
      subst dwa rba msta. destruct dw; [|discriminate].
      intros [_ <-]%Return_inj. now split.
    + destruct (getShape_frame _ _ _ _ Hget) as (_ & _ & _ & _ & _ & Hrb & Hmst & _).
      intros [_ <-]%Return_inj. now split.
  - intros position scale r s'. destruct s as [dw sm vox off clk shp cobj rb mst nxt].
    unfold removeVoxel, releaseShape. exec.
    destruct (vox !! _) as [vo|]; [|intros [_ <-]%Return_inj; now split].
    crack; try discriminate; intros [_ <-]%Return_inj; now split.
Qed.

End Separation.

(** * The properties on the concrete scene *)

(** C1 (as stated) fails: the dynamic cube is added, its back-reference is
    non-NULL, and a second [addEntity] on it succeeds and leaves the
    simulator with two bodies for the one proxy. *)
Lemma addEntity_twice_inserts_two_bodies :
  Scene.addEntity Scene.proxy (Scene.engine0 MOTION_TYPE_DYNAMIC)
    = Return true (Scene.added MOTION_TYPE_DYNAMIC)
  /\ (_body <$> motionStates (Scene.added MOTION_TYPE_DYNAMIC) !! Scene.proxy)
     = Some (Some 4%positive)
  /\ bodiesOf (Scene.added MOTION_TYPE_DYNAMIC) Scene.proxy = [4%positive]
  /\ Scene.addEntity Scene.proxy (Scene.added MOTION_TYPE_DYNAMIC)
     = Return true (Scene.addedTwice MOTION_TYPE_DYNAMIC)
  /\ bodiesOf (Scene.addedTwice MOTION_TYPE_DYNAMIC) Scene.proxy = [4%positive; 5%positive].
Proof. repeat (split; [vm_compute; reflexivity|]). vm_compute; reflexivity. Qed.

(** C2 (as stated) fails: after the second [addEntity] the invariant still
    reads true (non-NULL and registered), yet [removeEntity] then returns
    [true] and leaves the back-reference NULL while the first body is still
    in the simulator, linked to the proxy. *)
Lemma removeEntity_after_double_add_breaks_backref :
  (_body <$> motionStates (Scene.addedTwice MOTION_TYPE_DYNAMIC) !! Scene.proxy)
    = Some (Some 5%positive)
  /\ registered (Scene.addedTwice MOTION_TYPE_DYNAMIC) Scene.proxy
  /\ Scene.removeEntity Scene.proxy (Scene.addedTwice MOTION_TYPE_DYNAMIC)
     = Return true (Scene.addedTwiceRemoved MOTION_TYPE_DYNAMIC)
  /\ (_body <$> motionStates (Scene.addedTwiceRemoved MOTION_TYPE_DYNAMIC) !! Scene.proxy)
     = Some None
  /\ registered (Scene.addedTwiceRemoved MOTION_TYPE_DYNAMIC) Scene.proxy
  /\ ~ backref_iff_registered (Scene.addedTwiceRemoved MOTION_TYPE_DYNAMIC).
Proof.
  assert (Hreg : registered (Scene.addedTwiceRemoved MOTION_TYPE_DYNAMIC) Scene.proxy).
  { exists 4%positive. split; [|vm_compute; reflexivity].
    assert (worldObjects (Scene.addedTwiceRemoved MOTION_TYPE_DYNAMIC)
            = [2%positive; 4%positive]) as -> by (vm_compute; reflexivity).
    apply list_elem_of_In. right. now left. }
  split; [vm_compute; reflexivity|]. split.
  { exists 5%positive. split; [|vm_compute; reflexivity].
    assert (worldObjects (Scene.addedTwice MOTION_TYPE_DYNAMIC)
            = [2%positive; 4%positive; 5%positive]) as -> by (vm_compute; reflexivity).
    apply list_elem_of_In. right. right. now left. }
  split; [vm_compute; reflexivity|]. split; [vm_compute; reflexivity|].
  split; [assumption|].
  intros Hinv.
  destruct (motionStates (Scene.addedTwiceRemoved MOTION_TYPE_DYNAMIC) !! Scene.proxy)
    as [ms|] eqn:Hms; [|vm_compute in Hms; discriminate].
  apply (Hinv _ _ Hms) in Hreg as [b Hb].
  vm_compute in Hms. injection Hms as <-. discriminate Hb.
Qed.

(** The other way out of the invariant: a [Shape|Mass] update whose new
    descriptor the cache rejects leaves the body without a shape, and the
    simulator does not take such a body back, while the back-reference
    stays.  This is the case the acceptance premise of [backref_invariant]
    sets aside. *)
Lemma updateEntity_rejected_shape_leaves_body_out :
  registered Scene.outgrown Scene.proxy
  /\ Scene.updateEntity false Scene.proxy
       (Z.lor Scene.PHYSICS_UPDATE_SHAPE Scene.PHYSICS_UPDATE_MASS) Scene.outgrown
     = Return true Scene.outgrownUpdated
  /\ (_body <$> motionStates Scene.outgrownUpdated !! Scene.proxy)
     = Some (Some 4%positive)
  /\ (m_collisionShape <$> rigidBodies Scene.outgrownUpdated !! 4%positive) = Some None
  /\ ~ registered Scene.outgrownUpdated Scene.proxy.
Proof.
  split.
  { exists 4%positive. split; [|vm_compute; reflexivity].
    assert (worldObjects Scene.outgrown = [2%positive; 4%positive]) as ->
      by (vm_compute; reflexivity).
    apply list_elem_of_In. right. now left. }
  split; [vm_compute; reflexivity|]. split; [vm_compute; reflexivity|].
  split; [vm_compute; reflexivity|].
  intros (b & Hin & Hb). revert Hin Hb.
  assert (worldObjects Scene.outgrownUpdated = [2%positive]) as ->
    by (vm_compute; reflexivity).
  intros Hin. apply list_elem_of_In in Hin. destruct Hin as [<-|[]].
  vm_compute. discriminate.
Qed.

(** C9 (as stated) fails: the static cube's entity grew, [updateEntity] is
    called with [Shape] alone.  With assertions enabled the call stops at
    the assertion only after the body has left the simulator and has been
    given the new shape; with assertions compiled out the call returns
    [true] with the new shape applied. *)
Lemma shape_without_mass_is_detected_late :
  exists s' s'' body body' body'',
    worldObjects Scene.grown = [2%positive; 4%positive]
    /\ rigidBodies Scene.grown !! 4%positive = Some body
    /\ m_collisionShape body = Some 3%positive
    /\ Scene.updateEntity false Scene.proxy Scene.PHYSICS_UPDATE_SHAPE Scene.grown
       = AssertionFailed s'
    /\ worldObjects s' = [2%positive]
    /\ rigidBodies s' !! 4%positive = Some body'
    /\ m_collisionShape body' = Some 5%positive
    /\ Scene.updateEntity true Scene.proxy Scene.PHYSICS_UPDATE_SHAPE Scene.grown
       = Return true s''
    /\ rigidBodies s'' !! 4%positive = Some body''
    /\ m_collisionShape body'' = Some 5%positive.
Proof.
  eexists _, _, _, _, _.
  repeat (split; [vm_compute; reflexivity|]). vm_compute; reflexivity.
Qed.

(** C3 at the failing input.  The cube is added as dynamic, its entity
    turns static and is hard-updated, then reports dynamic again.  The body
    is static and the proxy dynamic; the hard update returns [true], clears
    the static and kinematic flags and sets the inverse mass to that of the
    proxy's mass 2, but the activation state stays [DISABLE_SIMULATION]:
    the body is not active. *)
Lemma hard_update_to_dynamic_leaves_body_disabled :
  exists s' body body',
    Scene.addEntity Scene.proxy (Scene.engine0 MOTION_TYPE_DYNAMIC)
      = Return true (Scene.added MOTION_TYPE_DYNAMIC)
    /\ Scene.updateEntity false Scene.proxy Scene.PHYSICS_UPDATE_MOTION_TYPE
         (entityChanges Scene.proxy (set_motionType MOTION_TYPE_STATIC)
            (Scene.added MOTION_TYPE_DYNAMIC))
       = Return true Scene.turnedStatic
    /\ (getMotionType <$> motionStates Scene.reportsDynamicAgain !! Scene.proxy)
       = Some MOTION_TYPE_DYNAMIC
    /\ (getMass <$> motionStates Scene.reportsDynamicAgain !! Scene.proxy)
       = Some (F32.of_Z 2)
    /\ (_body <$> motionStates Scene.reportsDynamicAgain !! Scene.proxy)
       = Some (Some 4%positive)
    /\ rigidBodies Scene.reportsDynamicAgain !! 4%positive = Some body
    /\ isStaticObject body = true
    /\ Scene.updateEntity false Scene.proxy Scene.PHYSICS_UPDATE_MOTION_TYPE
         Scene.reportsDynamicAgain
       = Return true s'
    /\ rigidBodies s' !! 4%positive = Some body'
    /\ isStaticObject body' = false
    /\ isKinematicObject body' = false
    /\ m_inverseMass body' = F32.div F32.one (F32.of_Z 2)
    /\ m_activationState1 body' = DISABLE_SIMULATION
    /\ isActive body' = false.
Proof.
  eexists _, _, _.
  repeat (split; [vm_compute; reflexivity|]). vm_compute; reflexivity.
Qed.

(** The same update on a cube that was added as static works: the body
    ends up dynamic, with the proxy's mass, and active. *)
Lemma hard_update_to_dynamic_of_fresh_static_body :
  exists s' body',
    Scene.updateEntity false Scene.proxy Scene.PHYSICS_UPDATE_MOTION_TYPE
      (entityChanges Scene.proxy (set_motionType MOTION_TYPE_DYNAMIC)
         (Scene.added MOTION_TYPE_STATIC))
    = Return true s'
    /\ rigidBodies s' !! 4%positive = Some body'
    /\ isStaticObject body' = false
    /\ isKinematicObject body' = false
    /\ m_inverseMass body' = F32.div F32.one (F32.of_Z 2)
    /\ isActive body' = true.
Proof.
  eexists _, _.
  repeat (split; [vm_compute; reflexivity|]). vm_compute; reflexivity.
Qed.

(** ** Instances of the theorems *)

Lemma stepSimulation_clamps_at_50ms :
  exists w,
    _dynamicsWorld (Scene.engine0 MOTION_TYPE_STATIC) = Some w
    /\ F32.ltb MAX_TIMESTEP
         (F32.mul MICRO
            (F32.of_Z (getTimeMicroseconds 50000 (Scene.engine0 MOTION_TYPE_STATIC)))) = true
    /\ exists s' w',
         stepSimulation 50000 (Scene.engine0 MOTION_TYPE_STATIC) = Return tt s'
         /\ _dynamicsWorld s' = Some w'
         /\ m_stepCalls w' = (MAX_TIMESTEP, MAX_NUM_SUBSTEPS, FIXED_SUBSTEP) :: m_stepCalls w
         /\ _clock s' = 50000.
Proof.
  eexists. split; [vm_compute; reflexivity|]. split; [vm_compute; reflexivity|].
  apply (stepSimulation_clamps_to_MAX_TIMESTEP (Scene.engine0 MOTION_TYPE_STATIC) _ 50000);
    vm_compute; reflexivity.
Defined.

Lemma addVoxel_removeVoxel_refCount_at_origin :
  exists s1,
    Scene.addVoxel vec3_zero F32.one (Scene.engine0 MOTION_TYPE_STATIC) = Return true s1
    /\ exists s2,
         Scene.removeVoxel vec3_zero F32.one s1 = Return true s2
         /\ refCount s2
              (Scene.ShapeKey (voxelInfo F32.one))
            = refCount (Scene.engine0 MOTION_TYPE_STATIC)
                (Scene.ShapeKey (voxelInfo F32.one)).
Proof.
  eexists. split; [vm_compute; reflexivity|].
  apply (addVoxel_removeVoxel_refCount (env := Scene.environment false)
           (Scene.engine0 MOTION_TYPE_STATIC) _ vec3_zero F32.one).
  vm_compute; reflexivity.
Defined.

Lemma addVoxel_twice_removeVoxel_twice_at_origin :
  is_Some (_dynamicsWorld (Scene.engine0 MOTION_TYPE_STATIC))
  /\ accepted (env := Scene.environment false) (Scene.engine0 MOTION_TYPE_STATIC)
       (voxelInfo F32.one)
  /\ _voxels (Scene.engine0 MOTION_TYPE_STATIC)
       !! voxelKey (env := Scene.environment false) vec3_zero F32.one = None
  /\ exists s1 s2,
       Scene.addVoxel vec3_zero F32.one (Scene.engine0 MOTION_TYPE_STATIC) = Return true s1
       /\ Scene.addVoxel vec3_zero F32.one s1 = Return false s1
       /\ Scene.removeVoxel vec3_zero F32.one s1 = Return true s2
       /\ Scene.removeVoxel vec3_zero F32.one s2 = Return false s2.
Proof.
  assert (Hw : is_Some (_dynamicsWorld (Scene.engine0 MOTION_TYPE_STATIC)))
    by (vm_compute; eauto).
  assert (Hacc : accepted (env := Scene.environment false) (Scene.engine0 MOTION_TYPE_STATIC)
                   (voxelInfo F32.one))
    by (right; vm_compute; eauto).
  assert (Hfree : _voxels (Scene.engine0 MOTION_TYPE_STATIC)
                    !! voxelKey (env := Scene.environment false) vec3_zero F32.one = None)
    by (vm_compute; reflexivity).
  split; [exact Hw|]. split; [exact Hacc|]. split; [exact Hfree|].
  exact (addVoxel_twice_removeVoxel_twice (env := Scene.environment false)
           (Scene.engine0 MOTION_TYPE_STATIC) vec3_zero F32.one Hw Hacc Hfree).
Defined.

Lemma updateEntity_velocity_only_on_the_cube :
  exists body,
    rigidBodies (Scene.added MOTION_TYPE_DYNAMIC) !! 4%positive = Some body
    /\ exists s' body',
         Scene.updateEntity false Scene.proxy Scene.PHYSICS_UPDATE_VELOCITY
           (Scene.added MOTION_TYPE_DYNAMIC) = Return true s'
         /\ rigidBodies s' !! 4%positive = Some body'
         /\ m_collisionFlags body' = m_collisionFlags body
         /\ m_worldTransform body' = m_worldTransform body
         /\ m_origin (m_worldTransform body') = m_origin (m_worldTransform body)
         /\ m_linearVelocity body' = entityVelocity (set_body (Some 4%positive)
                                                       (Scene.cube MOTION_TYPE_DYNAMIC))
         /\ m_angularVelocity body' = entityAngularVelocity (set_body (Some 4%positive)
                                                       (Scene.cube MOTION_TYPE_DYNAMIC))
         /\ m_gravity_acceleration body' = entityGravity (set_body (Some 4%positive)
                                                       (Scene.cube MOTION_TYPE_DYNAMIC)).
Proof.
  eexists. split; [vm_compute; reflexivity|].
  apply (updateEntity_velocity_only (env := Scene.environment false)
           (Scene.added MOTION_TYPE_DYNAMIC) Scene.proxy 4%positive
           (set_body (Some 4%positive) (Scene.cube MOTION_TYPE_DYNAMIC)));
    vm_compute; reflexivity.
Defined.

Lemma addEntity_disables_world_gravity_on_the_cube :
  Scene.addEntity Scene.proxy (Scene.engine0 MOTION_TYPE_DYNAMIC)
    = Return true (Scene.added MOTION_TYPE_DYNAMIC)
  /\ exists b body,
       motionStates (Scene.added MOTION_TYPE_DYNAMIC) !! Scene.proxy
         = Some (set_body (Some b) (Scene.cube MOTION_TYPE_DYNAMIC))
       /\ rigidBodies (Scene.added MOTION_TYPE_DYNAMIC) !! b = Some body
       /\ has (m_rigidbodyFlags body) BT_DISABLE_WORLD_GRAVITY = true
       /\ b ∈ worldObjects (Scene.added MOTION_TYPE_DYNAMIC)
       /\ m_gravity_acceleration body = entityGravity (Scene.cube MOTION_TYPE_DYNAMIC).
Proof.
  split; [vm_compute; reflexivity|].
  apply (addEntity_disables_world_gravity (env := Scene.environment false)
           (Scene.engine0 MOTION_TYPE_DYNAMIC) (Scene.added MOTION_TYPE_DYNAMIC)
           Scene.proxy (Scene.cube MOTION_TYPE_DYNAMIC));
    vm_compute; reflexivity.
Defined.

Lemma addEntity_inserts_one_more_body_for_the_cube :
  exists b,
    (b ∉ worldObjects (Scene.added MOTION_TYPE_DYNAMIC))
    /\ bodiesOf (Scene.addedTwice MOTION_TYPE_DYNAMIC) Scene.proxy
       = bodiesOf (Scene.added MOTION_TYPE_DYNAMIC) Scene.proxy ++ [b]
    /\ (bodiesOf (Scene.added MOTION_TYPE_DYNAMIC) Scene.proxy = [] ->
        bodiesOf (Scene.addedTwice MOTION_TYPE_DYNAMIC) Scene.proxy = [b])
    /\ motionStates (Scene.addedTwice MOTION_TYPE_DYNAMIC) !! Scene.proxy
       = Some (set_body (Some b)
                 (set_body (Some 4%positive) (Scene.cube MOTION_TYPE_DYNAMIC))).
Proof.
  apply (addEntity_inserts_one_more_body (env := Scene.environment false)
           (Scene.added MOTION_TYPE_DYNAMIC) (Scene.addedTwice MOTION_TYPE_DYNAMIC)
           Scene.proxy (set_body (Some 4%positive) (Scene.cube MOTION_TYPE_DYNAMIC))).
  - vm_compute; reflexivity.
  - assert (worldObjects (Scene.added MOTION_TYPE_DYNAMIC) = [2%positive; 4%positive]) as ->
      by (vm_compute; reflexivity).
    assert (nextAddress (Scene.added MOTION_TYPE_DYNAMIC) = 5%positive) as ->
      by (vm_compute; reflexivity).
    intros x [->|[->|[]%elem_of_nil]%elem_of_cons]%elem_of_cons; reflexivity.
  - vm_compute; reflexivity.
Defined.

Lemma backref_invariant_from_the_start :
  consistent (Scene.engine0 MOTION_TYPE_DYNAMIC)
  /\ backref_iff_registered (Scene.engine0 MOTION_TYPE_DYNAMIC)
  /\ consistent (Scene.added MOTION_TYPE_DYNAMIC).
Proof.
  pose proof (backref_invariant (env := Scene.environment false)
                (Scene.engine0 MOTION_TYPE_DYNAMIC) (engine0_consistent MOTION_TYPE_DYNAMIC))
    as (Hiff & Hadd & _).
  split; [apply engine0_consistent|]. split; [exact Hiff|].
  apply (Hadd Scene.proxy (Scene.cube MOTION_TYPE_DYNAMIC) true); vm_compute; reflexivity.
Defined.

Lemma updateEntity_unchanged_shape_refCount_on_the_cube :
  exists s',
    (Scene.updateEntity false Scene.proxy 12 (Scene.added MOTION_TYPE_STATIC) = Return true s'
     \/ Scene.updateEntity false Scene.proxy 12 (Scene.added MOTION_TYPE_STATIC)
        = AssertionFailed s')
    /\ refCount s' (Scene.ShapeKey Scene.unitBox)
       = refCount (Scene.added MOTION_TYPE_STATIC)
           (Scene.ShapeKey Scene.unitBox)
    /\ _shapeManager s' = _shapeManager (Scene.added MOTION_TYPE_STATIC).
Proof.
  eapply (updateEntity_unchanged_shape_refCount (env := Scene.environment false)
            (Scene.added MOTION_TYPE_STATIC) Scene.proxy 4%positive 3%positive
            (set_body (Some 4%positive) (Scene.cube MOTION_TYPE_STATIC))
            (BtBoxShape (vec3_splat F32.half)) (MkShapeReference 1 3%positive)).
  all: try (vm_compute; reflexivity).
  vm_compute. eauto.
Defined.

Lemma updateEntity_shape_without_mass_on_the_grown_cube :
  (exists s' s1 newShape body',
     Scene.updateEntity false Scene.proxy Scene.PHYSICS_UPDATE_SHAPE Scene.grown
       = AssertionFailed s'
     /\ (exists w, _dynamicsWorld Scene.grown = Some w
                   /\ _dynamicsWorld s' = Some (removeRigidBody 4%positive w))
     /\ getShape (env := Scene.environment false) Scene.bigBox Scene.grown
        = Return (Some newShape) s1
     /\ rigidBodies s' !! 4%positive = Some body'
     /\ m_collisionShape body' = Some newShape).
Proof.
  destruct (_dynamicsWorld Scene.grown) as [w|] eqn:Hw; [|vm_compute in Hw; discriminate].
  destruct (rigidBodies Scene.grown !! 4%positive) as [body|] eqn:Hbody;
    [|vm_compute in Hbody; discriminate].
  assert (Hold : m_collisionShape body = Some 3%positive)
    by (vm_compute in Hbody; now injection Hbody as <-).
  assert (Hacc : accepted (env := Scene.environment false) Scene.grown Scene.bigBox)
    by (right; vm_compute; eauto).
  destruct (updateEntity_shape_without_mass (env := Scene.environment false)
              Scene.grown Scene.proxy 4%positive 3%positive
              (set_shapeInfo Scene.bigBox
                 (set_body (Some 4%positive) (Scene.cube MOTION_TYPE_STATIC)))
              body w (BtBoxShape (vec3_splat F32.half)) Scene.PHYSICS_UPDATE_SHAPE
              ltac:(vm_compute; reflexivity) eq_refl Hbody Hw Hold
              ltac:(vm_compute; reflexivity) Hacc
              ltac:(vm_compute; reflexivity) ltac:(vm_compute; reflexivity)
              ltac:(vm_compute; reflexivity))
    as [Hlate _].
  destruct (Hlate eq_refl) as (s' & s1 & newShape & body' & H1 & H2 & H3 & H4 & H5).
  exists s', s1, newShape, body'. eauto 10.
Defined.

(** ** Instances of the further properties *)

Lemma allocatedBelow_engine0 (t : MotionType) : allocatedBelow (Scene.engine0 t).
Proof.
  unfold allocatedBelow.
  repeat split; try (apply (bool_decide_unpack _); vm_compute; exact I).
  intros w Hw. vm_compute in Hw. injection Hw as <-.
  apply (bool_decide_unpack _). vm_compute. exact I.
Qed.

Lemma cacheSound_engine0 (t : MotionType) :
  cacheSound (env := Scene.environment false) (Scene.engine0 t).
Proof. unfold cacheSound. apply (bool_decide_unpack _). vm_compute. exact I. Qed.

Lemma init_builds_the_ground_of_a_new_engine :
  _dynamicsWorld (newPhysicsEngine vec3_zero 0) = None
  /\ exists s' ground groundShape,
       init (newPhysicsEngine vec3_zero 0) = Return tt s'
       /\ worldObjects s' = [ground]
       /\ collisionObjects s' !! ground
          = Some (BtCollisionObject CF_STATIC_OBJECT (Some groundShape)
                    (setOrigin (Vec3 (F32.of_Z 200) (SFopp (F32.of_Z 1)) (F32.of_Z 200))
                       identityTransform))
       /\ shapes s' !! groundShape
          = Some (BtBoxShape (Vec3 (F32.of_Z 200) (F32.of_Z 1) (F32.of_Z 200)))
       /\ ground ≠ groundShape
       /\ (nextAddress (newPhysicsEngine vec3_zero 0) <= groundShape)%positive
       /\ (nextAddress (newPhysicsEngine vec3_zero 0) <= ground)%positive
       /\ (ground < nextAddress s')%positive /\ (groundShape < nextAddress s')%positive
       /\ _shapeManager s' = _shapeManager (newPhysicsEngine vec3_zero 0)
       /\ _voxels s' = _voxels (newPhysicsEngine vec3_zero 0)
       /\ rigidBodies s' = rigidBodies (newPhysicsEngine vec3_zero 0)
       /\ motionStates s' = motionStates (newPhysicsEngine vec3_zero 0).
Proof.
  split; [reflexivity|].
  apply (init_builds_the_ground (newPhysicsEngine vec3_zero 0)). reflexivity.
Defined.

Lemma stepSimulation_step_is_bounded_after_50ms :
  exists s',
    stepSimulation 50000 (Scene.engine0 MOTION_TYPE_STATIC) = Return tt s'
    /\ exists w w' timeStep,
         _dynamicsWorld (Scene.engine0 MOTION_TYPE_STATIC) = Some w
         /\ _dynamicsWorld s' = Some w'
         /\ m_stepCalls w' = (timeStep, MAX_NUM_SUBSTEPS, FIXED_SUBSTEP) :: m_stepCalls w
         /\ F32.ltb MAX_TIMESTEP timeStep = false
         /\ MAX_NUM_SUBSTEPS = 2
         /\ FIXED_SUBSTEP = F32.div (F32.of_Z 1) (F32.of_Z 60)
         /\ _clock s' = 50000.
Proof.
  eexists. split; [vm_compute; reflexivity|].
  apply (stepSimulation_step_is_bounded (Scene.engine0 MOTION_TYPE_STATIC) _ 50000).
  vm_compute; reflexivity.
Defined.

Lemma stepSimulation_measures_10ms_after_10ms :
  exists w,
    _dynamicsWorld (Scene.engine0 MOTION_TYPE_STATIC) = Some w
    /\ exists s1 s2 w2 step1 step2,
         stepSimulation 10000 (Scene.engine0 MOTION_TYPE_STATIC) = Return tt s1
         /\ stepSimulation 20000 s1 = Return tt s2
         /\ _dynamicsWorld s2 = Some w2
         /\ m_stepCalls w2
            = (step2, MAX_NUM_SUBSTEPS, FIXED_SUBSTEP)
                :: (step1, MAX_NUM_SUBSTEPS, FIXED_SUBSTEP) :: m_stepCalls w
         /\ step1 = F32.btMin
                      (F32.mul MICRO
                         (F32.of_Z (10000 - _clock (Scene.engine0 MOTION_TYPE_STATIC))))
                      MAX_TIMESTEP
         /\ step2 = F32.btMin (F32.mul MICRO (F32.of_Z (20000 - 10000))) MAX_TIMESTEP
         /\ (F32.ltb (F32.mul MICRO (F32.of_Z (20000 - 10000))) MAX_TIMESTEP = true ->
             step2 = F32.mul MICRO (F32.of_Z (20000 - 10000)))
         /\ m_collisionObjects w2 = m_collisionObjects w.
Proof.
  eexists. split; [vm_compute; reflexivity|].
  apply (stepSimulation_measures_since_last_call (Scene.engine0 MOTION_TYPE_STATIC) _
           10000 20000).
  vm_compute; reflexivity.
Defined.

Lemma operations_before_init_fault_on_a_new_engine :
  _dynamicsWorld (Scene.uninitialised MOTION_TYPE_DYNAMIC) = None
  /\ stepSimulation 1000 (Scene.uninitialised MOTION_TYPE_DYNAMIC) = Fault
  /\ Scene.addVoxel vec3_zero F32.one (Scene.uninitialised MOTION_TYPE_DYNAMIC) = Fault
  /\ Scene.addEntity Scene.proxy (Scene.uninitialised MOTION_TYPE_DYNAMIC) = Fault.
Proof.
  destruct (operations_before_init_fault (env := Scene.environment false)
              (Scene.uninitialised MOTION_TYPE_DYNAMIC) eq_refl)
    as (Hstep & Hvoxel & Hentity & _).
  split; [reflexivity|]. split; [apply Hstep|]. split.
  - apply Hvoxel; [vm_compute; reflexivity|]. right. vm_compute. eauto.
  - apply (Hentity Scene.proxy (Scene.cube MOTION_TYPE_DYNAMIC)); [vm_compute; reflexivity|].
    right. vm_compute. eauto.
Defined.

Lemma addVoxel_effect_at_origin :
  exists s',
    Scene.addVoxel vec3_zero F32.one (Scene.engine0 MOTION_TYPE_STATIC) = Return true s'
    /\ exists object sh w,
         _dynamicsWorld (Scene.engine0 MOTION_TYPE_STATIC) = Some w
         /\ worldObjects s' = m_collisionObjects w ++ [object]
         /\ (nextAddress (Scene.engine0 MOTION_TYPE_STATIC) <= object)%positive
         /\ (object < nextAddress s')%positive
         /\ _voxels s'
            = <[voxelKey (env := Scene.environment false) vec3_zero F32.one :=
                  MkVoxelObject (vec3_add vec3_zero (vec3_splat (F32.mul F32.half F32.one)))
                    (Some object)]> (_voxels (Scene.engine0 MOTION_TYPE_STATIC))
         /\ collisionObjects s'
            = <[object :=
                  BtCollisionObject CF_STATIC_OBJECT (Some sh)
                    (setOrigin
                       (vec3_add
                          (vec3_sub vec3_zero
                             (_originOffset (Scene.engine0 MOTION_TYPE_STATIC)))
                          (vec3_splat (F32.mul F32.half F32.one)))
                       identityTransform)]>
                (collisionObjects (Scene.engine0 MOTION_TYPE_STATIC))
         /\ (_shape <$> _shapeManager s' !! Scene.ShapeKey (voxelInfo F32.one)) = Some sh
         /\ rigidBodies s' = rigidBodies (Scene.engine0 MOTION_TYPE_STATIC)
         /\ motionStates s' = motionStates (Scene.engine0 MOTION_TYPE_STATIC)
         /\ _originOffset s' = _originOffset (Scene.engine0 MOTION_TYPE_STATIC).
Proof.
  eexists. split; [vm_compute; reflexivity|].
  apply (addVoxel_effect (env := Scene.environment false)
           (Scene.engine0 MOTION_TYPE_STATIC) _ vec3_zero F32.one).
  vm_compute; reflexivity.
Defined.

Lemma addVoxel_removeVoxel_restores_the_engine_at_origin :
  exists s1,
    Scene.addVoxel vec3_zero F32.one (Scene.engine0 MOTION_TYPE_STATIC) = Return true s1
    /\ exists s2,
         Scene.removeVoxel vec3_zero F32.one s1 = Return true s2
         /\ rewound (Scene.engine0 MOTION_TYPE_STATIC) s2 = Scene.engine0 MOTION_TYPE_STATIC.
Proof.
  eexists. split; [vm_compute; reflexivity|].
  apply (addVoxel_removeVoxel_restores_the_engine (env := Scene.environment false)
           (Scene.engine0 MOTION_TYPE_STATIC) _ vec3_zero F32.one
           (allocatedBelow_engine0 _) (cacheSound_engine0 _)).
  vm_compute; reflexivity.
Defined.

Lemma removeVoxel_releases_by_the_given_scale_for_the_inner_voxel :
  Scene.addVoxel vec3_zero (F32.of_Z 2) (Scene.engine0 MOTION_TYPE_STATIC)
    = Return true Scene.bigVoxel
  /\ exists w vo object,
       _dynamicsWorld Scene.bigVoxel = Some w
       /\ _voxels Scene.bigVoxel
            !! voxelKey (env := Scene.environment false) Scene.innerCorner F32.one = Some vo
       /\ _object vo = Some object
       /\ _shapeManager Scene.bigVoxel !! Scene.ShapeKey (voxelInfo F32.one) = None
       /\ removeVoxel (env := Scene.environment false) Scene.innerCorner F32.one Scene.bigVoxel
          = AssertionFailed
              (set_dynamicsWorld (Some (removeCollisionObject object w)) Scene.bigVoxel)
       /\ removeVoxel (env := Scene.environment true) Scene.innerCorner F32.one Scene.bigVoxel
          = Return true
              (set_voxels
                 (delete (voxelKey (env := Scene.environment true) Scene.innerCorner F32.one)
                    (_voxels Scene.bigVoxel))
                 (set_collisionObjects (delete object (collisionObjects Scene.bigVoxel))
                    (set_dynamicsWorld (Some (removeCollisionObject object w))
                       Scene.bigVoxel))).
Proof.
  split; [vm_compute; reflexivity|].
  destruct (_dynamicsWorld Scene.bigVoxel) as [w|] eqn:Hw; [|vm_compute in Hw; discriminate].
  destruct (_voxels Scene.bigVoxel
              !! voxelKey (env := Scene.environment false) Scene.innerCorner F32.one)
    as [vo|] eqn:Hvo; [|vm_compute in Hvo; discriminate].
  destruct (_object vo) as [object|] eqn:Hobj;
    [|vm_compute in Hvo; injection Hvo as <-; discriminate Hobj].
  assert (Hmiss : _shapeManager Scene.bigVoxel !! Scene.ShapeKey (voxelInfo F32.one) = None)
    by (vm_compute; reflexivity).
  exists w, vo, object. repeat (split; [reflexivity || assumption|]). split.
  - exact (removeVoxel_releases_by_the_given_scale (env := Scene.environment false)
             Scene.bigVoxel Scene.innerCorner F32.one vo object w Hw Hvo Hobj Hmiss).
  - exact (removeVoxel_releases_by_the_given_scale (env := Scene.environment true)
             Scene.bigVoxel Scene.innerCorner F32.one vo object w Hw Hvo Hobj Hmiss).
Defined.

Lemma addEntity_refused_changes_nothing_for_the_oversized_cube :
  motionStates Scene.oversized !! Scene.proxy
    = Some (set_shapeInfo Scene.hugeBox (Scene.cube MOTION_TYPE_DYNAMIC))
  /\ ~ accepted (env := Scene.environment false) Scene.oversized Scene.hugeBox
  /\ Scene.addEntity Scene.proxy Scene.oversized = Return false Scene.oversized.
Proof.
  assert (Hms : motionStates Scene.oversized !! Scene.proxy
                = Some (set_shapeInfo Scene.hugeBox (Scene.cube MOTION_TYPE_DYNAMIC)))
    by (vm_compute; reflexivity).
  assert (Hrej : ~ accepted (env := Scene.environment false) Scene.oversized Scene.hugeBox).
  { intros [[x Hx]|[x Hx]]; vm_compute in Hx; discriminate. }
  split; [exact Hms|]. split; [exact Hrej|].
  exact (proj1 (addEntity_refused_changes_nothing (env := Scene.environment false)
                  Scene.oversized Scene.proxy _ Hms) Hrej).
Defined.

Lemma addEntity_builds_a_kinematic_cube :
  Scene.addEntity Scene.proxy (Scene.engine0 MOTION_TYPE_KINEMATIC)
    = Return true (Scene.added MOTION_TYPE_KINEMATIC)
  /\ exists b body w w',
       motionStates (Scene.added MOTION_TYPE_KINEMATIC) !! Scene.proxy
         = Some (set_body (Some b) (Scene.cube MOTION_TYPE_KINEMATIC))
       /\ rigidBodies (Scene.added MOTION_TYPE_KINEMATIC) !! b = Some body
       /\ _dynamicsWorld (Scene.engine0 MOTION_TYPE_KINEMATIC) = Some w
       /\ _dynamicsWorld (Scene.added MOTION_TYPE_KINEMATIC) = Some w'
       /\ m_collisionObjects w' = m_collisionObjects w ++ [b]
       /\ m_optionalMotionState body = Scene.proxy
       /\ m_worldTransform body = getWorldTransform (Scene.cube MOTION_TYPE_KINEMATIC)
       /\ m_restitution body = _restitution (Scene.cube MOTION_TYPE_KINEMATIC)
       /\ m_friction body = _friction (Scene.cube MOTION_TYPE_KINEMATIC)
       /\ m_collisionFlags body = CF_KINEMATIC_OBJECT
       /\ m_inverseMass body = F32.zero
       /\ m_activationState1 body = DISABLE_DEACTIVATION
       /\ m_linearVelocity body = vec3_zero
       /\ m_nonStaticRigidBodies w' = m_nonStaticRigidBodies w ++ [b].
Proof.
  split; [vm_compute; reflexivity|].
  apply (addEntity_builds_the_body_of_its_motion_type (env := Scene.environment false)
           (Scene.engine0 MOTION_TYPE_KINEMATIC) (Scene.added MOTION_TYPE_KINEMATIC)
           Scene.proxy (Scene.cube MOTION_TYPE_KINEMATIC));
    vm_compute; reflexivity.
Defined.

Lemma addEntity_removeEntity_restores_the_engine_for_the_cube :
  Scene.addEntity Scene.proxy (Scene.engine0 MOTION_TYPE_DYNAMIC)
    = Return true (Scene.added MOTION_TYPE_DYNAMIC)
  /\ exists s2,
       Scene.removeEntity Scene.proxy (Scene.added MOTION_TYPE_DYNAMIC) = Return true s2
       /\ rewound (Scene.engine0 MOTION_TYPE_DYNAMIC) s2 = Scene.engine0 MOTION_TYPE_DYNAMIC.
Proof.
  split; [vm_compute; reflexivity|].
  apply (addEntity_removeEntity_restores_the_engine (env := Scene.environment false)
           (Scene.engine0 MOTION_TYPE_DYNAMIC) (Scene.added MOTION_TYPE_DYNAMIC)
           Scene.proxy (Scene.cube MOTION_TYPE_DYNAMIC)
           (allocatedBelow_engine0 _) (cacheSound_engine0 _));
    vm_compute; reflexivity.
Defined.

Lemma removeEntity_twice_on_the_cube :
  exists s1,
    Scene.removeEntity Scene.proxy (Scene.added MOTION_TYPE_DYNAMIC) = Return true s1
    /\ Scene.removeEntity Scene.proxy s1 = Return false s1
    /\ forall flags, Scene.updateEntity false Scene.proxy flags s1 = Return false s1.
Proof.
  eexists. split; [vm_compute; reflexivity|].
  apply (removeEntity_twice (env := Scene.environment false) (Scene.added MOTION_TYPE_DYNAMIC)).
  vm_compute; reflexivity.
Defined.

Lemma updateEntity_without_work_on_the_cube :
  Scene.updateEntity false Scene.proxy Scene.PHYSICS_UPDATE_POSITION
    (Scene.engine0 MOTION_TYPE_DYNAMIC)
    = Return false (Scene.engine0 MOTION_TYPE_DYNAMIC)
  /\ Scene.updateEntity false Scene.proxy 0 (Scene.added MOTION_TYPE_DYNAMIC)
     = Return true (Scene.added MOTION_TYPE_DYNAMIC).
Proof.
  split.
  - apply (updateEntity_without_work (env := Scene.environment false)
             (Scene.engine0 MOTION_TYPE_DYNAMIC) Scene.proxy (Scene.cube MOTION_TYPE_DYNAMIC));
      vm_compute; reflexivity.
  - apply (updateEntity_without_work (env := Scene.environment false)
             (Scene.added MOTION_TYPE_DYNAMIC) Scene.proxy
             (set_body (Some 4%positive) (Scene.cube MOTION_TYPE_DYNAMIC)));
      try (vm_compute; reflexivity).
    vm_compute. eauto.
Defined.

Lemma easy_update_touches_the_body_only_on_the_cube :
  exists s',
    Scene.updateEntity false Scene.proxy Scene.PHYSICS_UPDATE_EASY
      (Scene.added MOTION_TYPE_DYNAMIC) = Return true s'
    /\ easyFrame (Scene.added MOTION_TYPE_DYNAMIC) 4%positive s'.
Proof.
  destruct (rigidBodies (Scene.added MOTION_TYPE_DYNAMIC) !! 4%positive) as [body|] eqn:Hbody;
    [|vm_compute in Hbody; discriminate].
  assert (Hsh : m_collisionShape body = Some 3%positive)
    by (vm_compute in Hbody; now injection Hbody as <-).
  apply (easy_update_touches_the_body_only (env := Scene.environment false)
           (Scene.added MOTION_TYPE_DYNAMIC) Scene.proxy 4%positive 3%positive
           (set_body (Some 4%positive) (Scene.cube MOTION_TYPE_DYNAMIC)) body
           (BtBoxShape (vec3_splat F32.half)));
    try assumption; vm_compute; reflexivity.
Defined.

Lemma easy_update_copies_the_proxy_of_the_cube :
  exists body s' body',
    rigidBodies (Scene.added MOTION_TYPE_DYNAMIC) !! 4%positive = Some body
    /\ Scene.updateEntity false Scene.proxy Scene.PHYSICS_UPDATE_POSITION
         (Scene.added MOTION_TYPE_DYNAMIC) = Return true s'
    /\ rigidBodies s' !! 4%positive = Some body'
    /\ m_restitution body' = _restitution (Scene.cube MOTION_TYPE_DYNAMIC)
    /\ m_friction body' = _friction (Scene.cube MOTION_TYPE_DYNAMIC)
    /\ m_worldTransform body' = getWorldTransform (Scene.cube MOTION_TYPE_DYNAMIC)
    /\ m_inverseMass body' = m_inverseMass body
    /\ m_collisionFlags body' = m_collisionFlags body
    /\ m_rigidbodyFlags body' = m_rigidbodyFlags body.
Proof.
  destruct (rigidBodies (Scene.added MOTION_TYPE_DYNAMIC) !! 4%positive) as [body|] eqn:Hbody;
    [|vm_compute in Hbody; discriminate].
  assert (Hsh : m_collisionShape body = Some 3%positive)
    by (vm_compute in Hbody; now injection Hbody as <-).
  destruct (easy_update_copies_the_proxy (env := Scene.environment false)
              (Scene.added MOTION_TYPE_DYNAMIC) Scene.proxy 4%positive 3%positive
              (set_body (Some 4%positive) (Scene.cube MOTION_TYPE_DYNAMIC)) body
              (BtBoxShape (vec3_splat F32.half)) Scene.PHYSICS_UPDATE_POSITION)
    as (s' & body' & Hup & Hbody' & Hre & Hfr & Htr & Him & Hcf & Hrf);
    try assumption; try (vm_compute; reflexivity).
  exists body, s', body'. repeat (split; [assumption || reflexivity|]). assumption.
Defined.

Lemma hard_update_with_mass_alone_keeps_the_mass_of_the_cube :
  exists body s' body',
    rigidBodies (Scene.added MOTION_TYPE_DYNAMIC) !! 4%positive = Some body
    /\ (getMass <$> motionStates Scene.heavier !! Scene.proxy) = Some (F32.of_Z 7)
    /\ m_inverseMass body = F32.div F32.one (F32.of_Z 2)
    /\ Scene.updateEntity false Scene.proxy Scene.PHYSICS_UPDATE_MASS Scene.heavier
       = Return true s'
    /\ rigidBodies s' !! 4%positive = Some body'
    /\ m_inverseMass body' = m_inverseMass body
    /\ m_invInertiaLocal body' = m_invInertiaLocal body.
Proof.
  destruct (rigidBodies (Scene.added MOTION_TYPE_DYNAMIC) !! 4%positive) as [body|] eqn:Hbody;
    [|vm_compute in Hbody; discriminate].
  assert (Hold : m_inverseMass body = F32.div F32.one (F32.of_Z 2))
    by (vm_compute in Hbody; injection Hbody as <-; vm_compute; reflexivity).
  exists body.
  destruct (hard_update_with_mass_alone_keeps_the_mass (env := Scene.environment false)
              Scene.heavier Scene.proxy 4%positive
              (set_mass (F32.of_Z 7)
                 (set_body (Some 4%positive) (Scene.cube MOTION_TYPE_DYNAMIC)))
              body Scene.PHYSICS_UPDATE_MASS)
    as (s' & body' & Hup & Hbody' & Him & Hii);
    try (vm_compute; reflexivity).
  - rewrite <- Hbody. vm_compute; reflexivity.
  - vm_compute. eauto.
  - exists s', body'. split; [reflexivity|]. split; [vm_compute; reflexivity|]. auto.
Defined.

Lemma hard_update_to_static_of_the_cube :
  exists body w s' body' w',
    rigidBodies (Scene.reporting MOTION_TYPE_DYNAMIC MOTION_TYPE_STATIC) !! 4%positive
      = Some body
    /\ isStaticObject body = false
    /\ _dynamicsWorld (Scene.reporting MOTION_TYPE_DYNAMIC MOTION_TYPE_STATIC) = Some w
    /\ Scene.updateEntity false Scene.proxy Scene.PHYSICS_UPDATE_MOTION_TYPE
         (Scene.reporting MOTION_TYPE_DYNAMIC MOTION_TYPE_STATIC) = Return true s'
    /\ rigidBodies s' !! 4%positive = Some body'
    /\ _dynamicsWorld s' = Some w'
    /\ isStaticObject body' = true
    /\ isKinematicObject body' = false
    /\ m_inverseMass body' = F32.zero
    /\ m_activationState1 body' = DISABLE_SIMULATION
    /\ m_linearVelocity body' = vec3_zero
    /\ m_angularVelocity body' = vec3_zero
    /\ m_collisionObjects w' = array_remove 4%positive (m_collisionObjects w) ++ [4%positive]
    /\ m_nonStaticRigidBodies w' = array_remove 4%positive (m_nonStaticRigidBodies w).
Proof.
  destruct (rigidBodies (Scene.reporting MOTION_TYPE_DYNAMIC MOTION_TYPE_STATIC) !! 4%positive)
    as [body|] eqn:Hbody; [|vm_compute in Hbody; discriminate].
  destruct (_dynamicsWorld (Scene.reporting MOTION_TYPE_DYNAMIC MOTION_TYPE_STATIC))
    as [w|] eqn:Hw; [|vm_compute in Hw; discriminate].
  assert (Hsh : m_collisionShape body = Some 3%positive)
    by (vm_compute in Hbody; now injection Hbody as <-).
  assert (Hdyn : isStaticObject body = false)
    by (vm_compute in Hbody; now injection Hbody as <-).
  exists body, w.
  destruct (hard_update_to_static (env := Scene.environment false)
              (Scene.reporting MOTION_TYPE_DYNAMIC MOTION_TYPE_STATIC)
              Scene.proxy 4%positive 3%positive
              (set_motionType MOTION_TYPE_STATIC
                 (set_body (Some 4%positive) (Scene.cube MOTION_TYPE_DYNAMIC)))
              body (BtBoxShape (vec3_splat F32.half)) w Scene.PHYSICS_UPDATE_MOTION_TYPE)
    as (s' & body' & w' & H); try assumption; try (vm_compute; reflexivity).
  exists s', body', w'. split; [reflexivity|]. split; [assumption|]. split; [reflexivity|].
  exact H.
Defined.

Lemma hard_update_to_kinematic_of_the_cube :
  exists body w s' body' w',
    rigidBodies (Scene.reporting MOTION_TYPE_DYNAMIC MOTION_TYPE_KINEMATIC) !! 4%positive
      = Some body
    /\ _dynamicsWorld (Scene.reporting MOTION_TYPE_DYNAMIC MOTION_TYPE_KINEMATIC) = Some w
    /\ Scene.updateEntity false Scene.proxy Scene.PHYSICS_UPDATE_MOTION_TYPE
         (Scene.reporting MOTION_TYPE_DYNAMIC MOTION_TYPE_KINEMATIC) = Return true s'
    /\ rigidBodies s' !! 4%positive = Some body'
    /\ _dynamicsWorld s' = Some w'
    /\ isKinematicObject body' = true
    /\ isStaticObject body' = true
    /\ m_inverseMass body' = F32.zero
    /\ m_activationState1 body' = DISABLE_DEACTIVATION
    /\ m_collisionObjects w' = array_remove 4%positive (m_collisionObjects w) ++ [4%positive]
    /\ m_nonStaticRigidBodies w' = array_remove 4%positive (m_nonStaticRigidBodies w).
Proof.
  destruct (rigidBodies (Scene.reporting MOTION_TYPE_DYNAMIC MOTION_TYPE_KINEMATIC)
              !! 4%positive)
    as [body|] eqn:Hbody; [|vm_compute in Hbody; discriminate].
  destruct (_dynamicsWorld (Scene.reporting MOTION_TYPE_DYNAMIC MOTION_TYPE_KINEMATIC))
    as [w|] eqn:Hw; [|vm_compute in Hw; discriminate].
  assert (Hsh : m_collisionShape body = Some 3%positive)
    by (vm_compute in Hbody; now injection Hbody as <-).
  exists body, w.
  destruct (hard_update_to_kinematic (env := Scene.environment false)
              (Scene.reporting MOTION_TYPE_DYNAMIC MOTION_TYPE_KINEMATIC)
              Scene.proxy 4%positive 3%positive
              (set_motionType MOTION_TYPE_KINEMATIC
                 (set_body (Some 4%positive) (Scene.cube MOTION_TYPE_DYNAMIC)))
              body (BtBoxShape (vec3_splat F32.half)) w Scene.PHYSICS_UPDATE_MOTION_TYPE)
    as (s' & body' & w' & H); try assumption; try (vm_compute; reflexivity).
  exists s', body', w'. split; [reflexivity|]. split; [reflexivity|]. exact H.
Defined.

Lemma hard_update_with_rejected_shape_faults_on_the_outgrown_cube :
  motionStates Scene.outgrown !! Scene.proxy
    = Some (set_shapeInfo Scene.hugeBox
              (set_body (Some 4%positive) (Scene.cube MOTION_TYPE_STATIC)))
  /\ ~ accepted (env := Scene.environment false) Scene.outgrown Scene.hugeBox
  /\ Scene.updateEntity false Scene.proxy
       (Z.lor Scene.PHYSICS_UPDATE_SHAPE
          (Z.lor Scene.PHYSICS_UPDATE_MASS Scene.PHYSICS_UPDATE_POSITION))
       Scene.outgrown
     = Fault.
Proof.
  assert (Hms : motionStates Scene.outgrown !! Scene.proxy
                = Some (set_shapeInfo Scene.hugeBox
                          (set_body (Some 4%positive) (Scene.cube MOTION_TYPE_STATIC))))
    by (vm_compute; reflexivity).
  assert (Hrej : ~ accepted (env := Scene.environment false) Scene.outgrown Scene.hugeBox).
  { intros [[x Hx]|[x Hx]]; vm_compute in Hx; discriminate. }
  split; [exact Hms|]. split; [exact Hrej|].
  apply (hard_update_with_rejected_shape_faults (env := Scene.environment false)
           Scene.outgrown Scene.proxy 4%positive _ _ Hms);
    try (vm_compute; reflexivity).
  exact Hrej.
Defined.

Lemma hard_update_swaps_the_shape_of_the_grown_cube :
  exists s' body' sh' shape',
    Scene.updateEntity false Scene.proxy
      (Z.lor Scene.PHYSICS_UPDATE_SHAPE Scene.PHYSICS_UPDATE_MASS) Scene.grown
    = Return true s'
    /\ rigidBodies s' !! 4%positive = Some body'
    /\ m_collisionShape body' = Some sh'
    /\ shapes s' !! sh' = Some shape'
    /\ Scene.ShapeKey (collectInfo shape') = Scene.ShapeKey Scene.bigBox
    /\ (_shape <$> _shapeManager s' !! Scene.ShapeKey Scene.bigBox) = Some sh'
    /\ refCount s' (Scene.ShapeKey Scene.bigBox)
       = refCount Scene.grown (Scene.ShapeKey Scene.bigBox) + 1
    /\ refCount s' (Scene.ShapeKey Scene.unitBox)
       = refCount Scene.grown (Scene.ShapeKey Scene.unitBox) - 1
    /\ (forall k, k ≠ Scene.ShapeKey Scene.bigBox -> k ≠ Scene.ShapeKey Scene.unitBox ->
        _shapeManager s' !! k = _shapeManager Scene.grown !! k).
Proof.
  destruct (rigidBodies Scene.grown !! 4%positive) as [body|] eqn:Hbody;
    [|vm_compute in Hbody; discriminate].
  destruct (_dynamicsWorld Scene.grown) as [w|] eqn:Hw; [|vm_compute in Hw; discriminate].
  assert (Hsh : m_collisionShape body = Some 3%positive)
    by (vm_compute in Hbody; now injection Hbody as <-).
  apply (hard_update_swaps_the_shape (env := Scene.environment false)
           Scene.grown Scene.proxy 4%positive 3%positive
           (set_shapeInfo Scene.bigBox
              (set_body (Some 4%positive) (Scene.cube MOTION_TYPE_STATIC)))
           body (BtBoxShape (vec3_splat F32.half)) (MkShapeReference 1 3%positive) w
           (Z.lor Scene.PHYSICS_UPDATE_SHAPE Scene.PHYSICS_UPDATE_MASS));
    try assumption; try (vm_compute; reflexivity).
  - unfold cacheSound. apply (bool_decide_unpack _). vm_compute. exact I.
  - apply (bool_decide_unpack _). vm_compute. exact I.
  - right. vm_compute. eauto.
  - vm_compute. discriminate.
Defined.

Lemma hard_update_keeps_world_gravity_out_of_the_cube :
  exists body s' body',
    rigidBodies (Scene.reporting MOTION_TYPE_STATIC MOTION_TYPE_DYNAMIC) !! 4%positive
      = Some body
    /\ has (m_rigidbodyFlags body) BT_DISABLE_WORLD_GRAVITY = true
    /\ Scene.updateEntity false Scene.proxy Scene.PHYSICS_UPDATE_MOTION_TYPE
         (Scene.reporting MOTION_TYPE_STATIC MOTION_TYPE_DYNAMIC) = Return true s'
    /\ rigidBodies s' !! 4%positive = Some body'
    /\ m_rigidbodyFlags body' = m_rigidbodyFlags body
    /\ m_gravity_acceleration body' = m_gravity_acceleration body.
Proof.
  destruct (rigidBodies (Scene.reporting MOTION_TYPE_STATIC MOTION_TYPE_DYNAMIC) !! 4%positive)
    as [body|] eqn:Hbody; [|vm_compute in Hbody; discriminate].
  assert (Hsh : m_collisionShape body = Some 3%positive)
    by (vm_compute in Hbody; now injection Hbody as <-).
  assert (Hout : has (m_rigidbodyFlags body) BT_DISABLE_WORLD_GRAVITY = true)
    by (vm_compute in Hbody; now injection Hbody as <-).
  exists body.
  destruct (hard_update_keeps_world_gravity_out (env := Scene.environment false)
              (Scene.reporting MOTION_TYPE_STATIC MOTION_TYPE_DYNAMIC)
              Scene.proxy 4%positive 3%positive
              (set_motionType MOTION_TYPE_DYNAMIC
                 (set_body (Some 4%positive) (Scene.cube MOTION_TYPE_STATIC)))
              body (BtBoxShape (vec3_splat F32.half)) Scene.PHYSICS_UPDATE_MOTION_TYPE)
    as (s' & body' & Hup & Hbody' & Hrf & Hg);
    try assumption; try (vm_compute; reflexivity).
  - vm_compute. eauto.
  - exists s', body'. repeat (split; [assumption || reflexivity|]). exact Hg.
Defined.



Lemma removeVoxel_leaves_no_dangling_object_at_origin :
  NoDup (worldObjects Scene.bigVoxel)
  /\ exists s',
       Scene.removeVoxel vec3_zero (F32.of_Z 2) Scene.bigVoxel = Return true s'
       /\ exists vo object,
            _voxels Scene.bigVoxel
              !! voxelKey (env := Scene.environment false) vec3_zero (F32.of_Z 2) = Some vo
            /\ _object vo = Some object
            /\ _voxels s'
               = delete (voxelKey (env := Scene.environment false) vec3_zero (F32.of_Z 2))
                   (_voxels Scene.bigVoxel)
            /\ collisionObjects s' = delete object (collisionObjects Scene.bigVoxel)
            /\ (object ∉ worldObjects s')
            /\ (forall x, x ∈ worldObjects s'
                          <-> x ∈ worldObjects Scene.bigVoxel /\ x ≠ object)
            /\ rigidBodies s' = rigidBodies Scene.bigVoxel
            /\ motionStates s' = motionStates Scene.bigVoxel.
Proof.
  assert (Hnd : NoDup (worldObjects Scene.bigVoxel))
    by (apply (bool_decide_unpack _); vm_compute; exact I).
  split; [exact Hnd|]. eexists. split; [vm_compute; reflexivity|].
  apply (removeVoxel_leaves_no_dangling_object (env := Scene.environment false)
           Scene.bigVoxel _ vec3_zero (F32.of_Z 2) Hnd).
  vm_compute; reflexivity.
Defined.

Lemma hard_update_to_dynamic_of_the_cube :
  exists body w s' body' w',
    rigidBodies (Scene.reporting MOTION_TYPE_KINEMATIC MOTION_TYPE_DYNAMIC) !! 4%positive
      = Some body
    /\ isKinematicObject body = true
    /\ _dynamicsWorld (Scene.reporting MOTION_TYPE_KINEMATIC MOTION_TYPE_DYNAMIC) = Some w
    /\ Scene.updateEntity false Scene.proxy Scene.PHYSICS_UPDATE_MOTION_TYPE
         (Scene.reporting MOTION_TYPE_KINEMATIC MOTION_TYPE_DYNAMIC) = Return true s'
    /\ rigidBodies s' !! 4%positive = Some body'
    /\ _dynamicsWorld s' = Some w'
    /\ isStaticObject body' = false
    /\ isKinematicObject body' = false
    /\ m_inverseMass body' = F32.div F32.one (getMass (Scene.cube MOTION_TYPE_KINEMATIC))
    /\ isActive body' = true
    /\ m_collisionObjects w' = array_remove 4%positive (m_collisionObjects w) ++ [4%positive]
    /\ m_nonStaticRigidBodies w'
       = array_remove 4%positive (m_nonStaticRigidBodies w) ++ [4%positive].
Proof.
  destruct (rigidBodies (Scene.reporting MOTION_TYPE_KINEMATIC MOTION_TYPE_DYNAMIC)
              !! 4%positive)
    as [body|] eqn:Hbody; [|vm_compute in Hbody; discriminate].
  destruct (_dynamicsWorld (Scene.reporting MOTION_TYPE_KINEMATIC MOTION_TYPE_DYNAMIC))
    as [w|] eqn:Hw; [|vm_compute in Hw; discriminate].
  assert (Hsh : m_collisionShape body = Some 3%positive)
    by (vm_compute in Hbody; now injection Hbody as <-).
  assert (Hkin : isKinematicObject body = true)
    by (vm_compute in Hbody; now injection Hbody as <-).
  assert (Hact : m_activationState1 body ≠ DISABLE_SIMULATION)
    by (vm_compute in Hbody; injection Hbody as <-; discriminate).
  exists body, w.
  destruct (hard_update_to_dynamic (env := Scene.environment false)
              (Scene.reporting MOTION_TYPE_KINEMATIC MOTION_TYPE_DYNAMIC)
              Scene.proxy 4%positive 3%positive
              (set_motionType MOTION_TYPE_DYNAMIC
                 (set_body (Some 4%positive) (Scene.cube MOTION_TYPE_KINEMATIC)))
              body (BtBoxShape (vec3_splat F32.half)) w Scene.PHYSICS_UPDATE_MOTION_TYPE)
    as (s' & body' & w' & H); try assumption; try (vm_compute; reflexivity).
  - vm_compute. discriminate.
  - exists s', body', w'. split; [reflexivity|]. split; [assumption|]. split; [reflexivity|].
    exact H.
Defined.

Lemma entities_and_voxels_do_not_interfere_around_the_cube :
  exists s1 s2,
    Scene.addVoxel vec3_zero F32.one (Scene.added MOTION_TYPE_DYNAMIC) = Return true s1
    /\ rigidBodies s1 = rigidBodies (Scene.added MOTION_TYPE_DYNAMIC)
    /\ motionStates s1 = motionStates (Scene.added MOTION_TYPE_DYNAMIC)
    /\ Scene.updateEntity false Scene.proxy Scene.PHYSICS_UPDATE_HARD s1 = Return true s2
    /\ _voxels s2 = _voxels s1
    /\ collisionObjects s2 = collisionObjects s1
    /\ motionStates s2 = motionStates s1.
Proof.
  pose (s1 := stateAfter (Scene.addVoxel vec3_zero F32.one) (Scene.added MOTION_TYPE_DYNAMIC)).
  pose (s2 := stateAfter (Scene.updateEntity false Scene.proxy Scene.PHYSICS_UPDATE_HARD) s1).
  assert (H1 : Scene.addVoxel vec3_zero F32.one (Scene.added MOTION_TYPE_DYNAMIC)
               = Return true s1) by (vm_compute; reflexivity).
  assert (H2 : Scene.updateEntity false Scene.proxy Scene.PHYSICS_UPDATE_HARD s1
               = Return true s2) by (vm_compute; reflexivity).
  exists s1, s2.
  destruct (entities_and_voxels_do_not_interfere (env := Scene.environment false)
              (Scene.added MOTION_TYPE_DYNAMIC)) as (_ & _ & _ & Hvoxel & _).
  destruct (entities_and_voxels_do_not_interfere (env := Scene.environment false) s1)
    as (_ & _ & Hupdate & _).
  split; [exact H1|].
  split; [exact (proj1 (Hvoxel vec3_zero F32.one true s1 H1))|].
  split; [exact (proj2 (Hvoxel vec3_zero F32.one true s1 H1))|].
  split; [exact H2|].
  exact (Hupdate Scene.proxy Scene.PHYSICS_UPDATE_HARD true s2 H2).
Defined.
